(** * suspect.io.twix: decoding and de-identification of Siemens TWIX files

    A shallow embedding of [suspect/io/twix.py]: the header parameter
    parser, the two scan-record decoders, the loop-index tensor builder
    and the header anonymizer, followed by the properties of the
    specification that concern them.

    Conventions of the embedding.
    - A byte is an [ascii]; a file is a [list ascii] with a read position.
    - Header text is the list of the characters of a single-byte code page
      (latin-1 on the decode path, windows-1252 on the anonymize path),
      each character written as its byte in that code page.
    - Integers read with [struct.unpack] are [Z]; counts, positions inside
      a list and array extents are [nat].
    - A 32-bit float is its IEEE-754 bit pattern (a [Z] below [2^32]); the
      decoders only move floats around and negate them.  A Python float is
      an IEEE-754 double of the standard library's [SpecFloat].
    - A Python exception is a value [Raise e] of the [result] type.  The
      regular expressions built at run time from header values are
      modelled for a fragment of the syntax (ordinary characters, [.] and
      backslash-escaped punctuation); outside it the outcome is
      [Unmodelled]. *)

From Stdlib Require Import ZArith Ascii String Bool Lia SpecFloat.
From stdpp Require Import list.

Local Open Scope Z_scope.

(** ** Outcomes *)

Inductive exn :=
| AttributeError      (* [.group()] or [.span()] on a failed [re.search] *)
| IndexError          (* list index out of range *)
| ValueError          (* inconsistent np / num_channels, int(nan), empty max *)
| TypeError           (* subscripting or computing with [None] *)
| OverflowError       (* an integer too large to convert to a float *)
| StructError         (* [struct.unpack] on a buffer of the wrong size *)
| UnicodeDecodeError  (* a byte with no character in windows-1252 *)
| OSError.            (* seek to a negative offset *)

Inductive result (A : Type) :=
| Ok (a : A)
| Raise (e : exn)
| Unmodelled.

Arguments Ok {A} a.
Arguments Raise {A} e.
Arguments Unmodelled {A}.

Definition bind {A B} (r : result A) (k : A -> result B) : result B :=
  match r with
  | Ok a => k a
  | Raise e => Raise e
  | Unmodelled => Unmodelled
  end.

Notation "x <- r ;; k" := (bind r (fun x => k))
  (at level 100, r at next level, right associativity).

Definition of_option {A} (e : exn) (o : option A) : result A :=
  match o with Some a => Ok a | None => Raise e end.

Definition is_error {A} (r : result A) : bool :=
  match r with Raise _ => true | _ => false end.

(** ** Text *)

Definition text := list ascii.

#[global] Instance ascii_eq_dec : EqDecision ascii := Ascii.ascii_dec.

Definition str (s : string) : text := list_ascii_of_string s.

Definition dq : ascii := "034"%char.     (* the double quote *)
Definition nl : ascii := "010"%char.     (* newline *)
Definition bsl : ascii := "092"%char.    (* backslash *)

Definition code (a : ascii) : Z := Z.of_N (N_of_ascii a).

Definition in_range (lo hi : Z) (a : ascii) : bool :=
  (lo <=? code a) && (code a <=? hi).

(** Python slicing [t[a:b]] and [t[a:]], [t[:b]] for non-negative bounds. *)
Definition slice {A} (a b : nat) (t : list A) : list A := take (b - a)%nat (drop a t).

(** [str.split(sep)] for a one-character separator. *)
Fixpoint split_on (sep : ascii) (t : text) : list text :=
  match t with
  | [] => [[]]
  | c :: t' =>
      if Ascii.eqb c sep then [] :: split_on sep t'
      else match split_on sep t' with
           | w :: ws => (c :: w) :: ws
           | [] => [[c]]
           end
  end.

(** ** The regular expressions of the [re] module that the program uses

    Every pattern of the program is a sequence of one-character atoms,
    each optionally repeated by a greedy [*] or [+], cut into consecutive
    capture groups.  Matching is the backtracking search of [re]: atoms
    from left to right, a repetition trying its longest run first. *)

Definition cls := ascii -> bool.

Inductive piece :=
| One (c : cls)      (* a single character of the class *)
| Star (c : cls)     (* c*  greedy *)
| Plus (c : cls).    (* c+  greedy *)

(** A pattern is the list of its capture groups; a pattern written with
    no parentheses is a single group, whose text is [group()]. *)
Definition pattern := list (list piece).

Definition lit (c : ascii) : cls := Ascii.eqb c.
Definition dot : cls := fun a => negb (Ascii.eqb a nl).           (* .   *)
Definition digit : cls := in_range 48 57.                          (* \d and [0-9] *)
Definition not_quote : cls := fun a => negb (Ascii.eqb a dq).      (* any character but the quote *)
Definition digit_or_dot : cls := fun a => digit a || Ascii.eqb a "."%char.  (* [\d\.] *)

(** [\s] and [\w] on the characters of windows-1252, as [re] classifies
    the Unicode characters they decode to. *)
Definition space : cls := fun a =>
  in_range 9 13 a || in_range 28 32 a || in_range 160 160 a.

Definition word : cls := fun a =>
  in_range 48 57 a || in_range 65 90 a || in_range 95 95 a || in_range 97 122 a
  || in_range 131 131 a || in_range 136 136 a || in_range 138 138 a
  || in_range 140 140 a || in_range 142 142 a || in_range 154 154 a
  || in_range 156 156 a || in_range 158 159 a || in_range 170 170 a
  || in_range 178 179 a || in_range 181 181 a || in_range 185 186 a
  || in_range 188 190 a || in_range 192 214 a || in_range 216 246 a
  || in_range 248 255 a.

Definition lits (s : string) : list piece := map (fun c => One (lit c)) (str s).

(** The longest run of [c] first, then one character less at a time. *)
Fixpoint greedy {R} (c : cls) (k : text -> option (text * R)) (s : text)
  : option (text * R) :=
  match s with
  | a :: s' =>
      if c a then
        match greedy c k s' with
        | Some (t, r) => Some (a :: t, r)
        | None => k s
        end
      else k s
  | [] => k s
  end.

(** [match_pieces ps k s]: the pieces match a prefix [t] of [s] and the
    continuation [k] accepts what follows; the first success in
    backtracking order. *)
Fixpoint match_pieces {R} (ps : list piece) (k : text -> option R) (s : text)
  : option (text * R) :=
  match ps with
  | [] => match k s with Some r => Some ([], r) | None => None end
  | One c :: ps' =>
      match s with
      | a :: s' =>
          if c a then
            match match_pieces ps' k s' with
            | Some (t, r) => Some (a :: t, r)
            | None => None
            end
          else None
      | [] => None
      end
  | Star c :: ps' => greedy c (match_pieces ps' k) s
  | Plus c :: ps' =>
      match s with
      | a :: s' =>
          if c a then
            match greedy c (match_pieces ps' k) s' with
            | Some (t, r) => Some (a :: t, r)
            | None => None
            end
          else None
      | [] => None
      end
  end.

(** A match anchored at the head of [s]: the text of every group. *)
Fixpoint match_groups (p : pattern) (s : text) : option (list text) :=
  match p with
  | [] => Some []
  | g :: p' =>
      match match_pieces g (match_groups p') s with
      | Some (t, ts) => Some (t :: ts)
      | None => None
      end
  end.

(** A match object: where the match starts and the text of its groups. *)
Record re_match := { m_start : nat; m_groups : list text }.

Definition group0 (m : re_match) : text := concat (m_groups m).           (* m.group() *)
Definition group (m : re_match) (k : nat) : text := nth (k - 1) (m_groups m) [].  (* m.group(k), k >= 1 *)
Definition span (m : re_match) (k : nat) : nat * nat :=                   (* m.span(k), k >= 1 *)
  let a := (m_start m + length (concat (take (k - 1) (m_groups m))))%nat in
  (a, (a + length (group m k))%nat).

(** [re.search]: the leftmost position at which the pattern matches. *)
Fixpoint search_from (p : pattern) (i : nat) (s : text) : option re_match :=
  match match_groups p s with
  | Some gs => Some {| m_start := i; m_groups := gs |}
  | None =>
      match s with
      | [] => None
      | _ :: s' => search_from p (S i) s'
      end
  end.

Definition re_search (p : pattern) (s : text) : option re_match := search_from p 0 s.

(** [re.search(...).group(...)] raises AttributeError on [None]. *)
Definition found (o : option re_match) : result re_match := of_option AttributeError o.

(** [re.sub] with a function (or a constant) for the replacement: the
    non-overlapping matches from left to right.  [skip] counts the
    characters of the current match that are still to be passed over. *)
Fixpoint sub_go (p : pattern) (repl : list text -> text) (skip : nat) (s : text) : text :=
  match skip with
  | S n =>
      match s with
      | [] => []
      | _ :: s' => sub_go p repl n s'
      end
  | O =>
      match match_groups p s, s with
      | Some gs, a :: s' =>
          match length (concat gs) with
          | O => repl gs ++ a :: sub_go p repl 0 s'
          | S n => repl gs ++ sub_go p repl n s'
          end
      | Some gs, [] => repl gs
      | None, a :: s' => a :: sub_go p repl 0 s'
      | None, [] => []
      end
  end.

Definition re_sub (p : pattern) (repl : list text -> text) (s : text) : text :=
  sub_go p repl 0 s.

(** The matches [re.sub] and [re.finditer] visit, as match objects. *)
Fixpoint finditer_go (p : pattern) (i skip : nat) (s : text) : list re_match :=
  match skip with
  | S n =>
      match s with
      | [] => []
      | _ :: s' => finditer_go p (S i) n s'
      end
  | O =>
      match match_groups p s, s with
      | Some gs, _ :: s' =>
          {| m_start := i; m_groups := gs |}
            :: finditer_go p (S i) (pred (length (concat gs))) s'
      | Some gs, [] => [{| m_start := i; m_groups := gs |}]
      | None, _ :: s' => finditer_go p (S i) 0 s'
      | None, [] => []
      end
  end.

Definition re_finditer (p : pattern) (s : text) : list re_match := finditer_go p 0 0 s.

(** The number of times a pattern matches in a text. *)
Definition count_matches (p : pattern) (s : text) : nat := length (re_finditer p s).

(** [re.escape]: a backslash before each of the special characters
    [()[]{}?*+-|^$\.&~# \t\n\r\v\f]. *)
Definition special_chars : text :=
  str "()[]{}?*+-|^$\.&~# " ++ ["009"; "010"; "013"; "011"; "012"]%char.

Definition is_special (c : ascii) : bool := existsb (Ascii.eqb c) special_chars.

Definition re_escape (t : text) : text :=
  flat_map (fun c => if is_special c then [bsl; c] else [c]) t.

(** Compiling a pattern that is a header value.  Modelled: an ordinary
    character stands for itself, [.] for any character but newline, a
    backslash followed by a character that is no ASCII letter or digit
    for that character.  Anything that involves [* + ? { } [ ] ( ) | ^ $],
    a backslash before a letter or digit, or a backslash at the end is
    outside the fragment. *)
Definition is_meta (c : ascii) : bool := existsb (Ascii.eqb c) (str "*+?{}[]()|^$").

Definition is_ascii_alnum (c : ascii) : bool :=
  in_range 48 57 c || in_range 65 90 c || in_range 97 122 c.

Fixpoint compile_atoms (t : text) : result (list piece) :=
  match t with
  | [] => Ok []
  | c :: t' =>
      if Ascii.eqb c bsl then
        match t' with
        | [] => Unmodelled
        | e :: t'' =>
            if is_ascii_alnum e then Unmodelled
            else ps <- compile_atoms t'' ;; Ok (One (lit e) :: ps)
        end
      else if Ascii.eqb c "."%char then ps <- compile_atoms t' ;; Ok (One dot :: ps)
      else if is_meta c then Unmodelled
      else ps <- compile_atoms t' ;; Ok (One (lit c) :: ps)
  end.

(** ** Files and [struct] *)

Definition byte := ascii.

(** An open binary file: its bytes and the read position ([fin.tell()]). *)
Record file := { content : list byte; pos : Z }.

Definition open_rb (bs : list byte) : file := {| content := bs; pos := 0 |}.

(** A computation that reads from the file and may raise. *)
Definition reader (A : Type) := file -> result (A * file).

Definition ret {A} (a : A) : reader A := fun f => Ok (a, f).

Definition rbind {A B} (m : reader A) (k : A -> reader B) : reader B :=
  fun f =>
    match m f with
    | Ok (a, f') => k a f'
    | Raise e => Raise e
    | Unmodelled => Unmodelled
    end.

Notation "x <~ m ;; k" := (rbind m (fun x => k))
  (at level 100, m at next level, right associativity).

Definition lift {A} (r : result A) : reader A :=
  fun f => match r with Ok a => Ok (a, f) | Raise e => Raise e | Unmodelled => Unmodelled end.

(** [fin.read(n)]: at most [n] bytes from the position, fewer at the end
    of the file; [n = -1] reads to the end, a smaller [n] is refused. *)
Definition read (n : Z) : reader (list byte) := fun f =>
  if n <? -1 then Raise ValueError
  else
    let rest := drop (Z.to_nat (pos f)) (content f) in
    let bs := if n =? -1 then rest else take (Z.to_nat n) rest in
    Ok (bs, {| content := content f; pos := pos f + Z.of_nat (length bs) |}).

Definition tell : reader Z := fun f => Ok (pos f, f).

(** [fin.seek(p)]: a negative offset is refused by the system, one that
    does not fit a 64-bit signed offset by Python; seeking past the end is
    allowed (the limit a file system puts on offsets is not modelled). *)
Definition seek (p : Z) : reader unit := fun f =>
  if p <? 0 then Raise OSError
  else if 2 ^ 63 <=? p then Raise ValueError
  else Ok (tt, {| content := content f; pos := p |}).

(** Little-endian value of a run of bytes. *)
Fixpoint le_Z (bs : list byte) : Z :=
  match bs with
  | [] => 0
  | b :: bs' => code b + 256 * le_Z bs'
  end.

(** [struct.unpack] of one unsigned integer of [n] bytes ("H", "I", "Q"). *)
Definition unpack_uint (n : nat) (bs : list byte) : result Z :=
  if (length bs =? n)%nat then Ok (le_Z bs) else Raise StructError.

(** [struct.unpack] of fields the program reads and never uses: only the
    size of the buffer matters. *)
Definition unpack_unused (n : nat) (bs : list byte) : result unit :=
  if (length bs =? n)%nat then Ok tt else Raise StructError.

(** [struct.unpack] of [k] fields of [n] bytes each ("14H", "7f", ...): the
    buffer must have exactly [k * n] bytes. *)
Fixpoint chunks (n k : nat) (bs : list byte) : list (list byte) :=
  match k with
  | O => []
  | S k' => take n bs :: chunks n k' (drop n bs)
  end.

Definition unpack_uints (n k : nat) (bs : list byte) : result (list Z) :=
  if (length bs =? k * n)%nat then Ok (map le_Z (chunks n k bs)) else Raise StructError.

(** [struct.pack("I", v)]. *)
Fixpoint le_bytes (n : nat) (v : Z) : list byte :=
  match n with
  | O => []
  | S n' => ascii_of_N (Z.to_N (v mod 256)) :: le_bytes n' (v / 256)
  end.

(** ** Code pages *)

(** The bytes windows-1252 leaves undefined. *)
Definition cp1252_undefined (b : byte) : bool :=
  existsb (Z.eqb (code b)) [129; 141; 143; 144; 157].

(** [bytes.decode('windows-1252')]: every defined byte is one character. *)
Definition decode_cp1252 (bs : list byte) : result text :=
  if existsb cp1252_undefined bs then Raise UnicodeDecodeError else Ok bs.

(** [str.encode('windows-1252')] of text made of decoded characters and
    ASCII: one byte per character. *)
Definition encode_cp1252 (t : text) : list byte := t.

(** [bytes.decode('latin-1')] is total: byte [b] is character [b]. *)
Definition decode_latin1 (bs : list byte) : text := bs.

(** ** The patterns of the program

    [tag ty name] is the text [<ty."name">  { ] of the container's tag
    syntax, in which the character between type and name is matched by
    the regular expression's [.]. *)
Definition tag (ty name : string) : list piece :=
  lits "<" ++ lits ty ++ [One dot; One (lit dq)] ++ lits name
       ++ [One (lit dq)] ++ lits ">  { ".

Definition quoted_value : list piece := [One (lit dq); Plus dot; One (lit dq)].
Definition close_line : list piece := lits "  }" ++ [One (lit nl)].

(** parse_twix_header, lines 68 and 71: the whole parameter line, no group. *)
Definition re_protocol_name : pattern :=
  [tag "ParamString" "tProtocolName" ++ quoted_value ++ close_line].
Definition re_patient_id_line : pattern :=
  [tag "ParamString" "PatientID" ++ quoted_value ++ close_line].

(** parse_twix_header, lines 73 and 74: the value between the quotes is
    group 2. *)
Definition re_patient_name_value : pattern :=
  [tag "ParamString" "PatientName" ++ [One (lit dq)]; [Plus dot]; One (lit dq) :: close_line].
Definition re_patient_birthday_value : pattern :=
  [tag "ParamString" "PatientBirthDay" ++ [One (lit dq)]; [Plus dot]; One (lit dq) :: close_line].

(** parse_twix_header, lines 76, 79 and 77. *)
Definition re_frequency : pattern :=
  [tag "ParamLong" "Frequency" ++ [Star digit] ++ lits "  }"].
Definition re_dwell_time : pattern :=
  [tag "ParamLong" "DwellTimeSig" ++ [Star digit] ++ lits "  }"].
Definition re_number : pattern := [[Plus digit]].

(** anonymize_twix_header, lines 327, 330, 333 and 352: the value with
    its quotes is group 2. *)
Definition re_quoted_param (name : string) : pattern :=
  [tag "ParamString" name; quoted_value; close_line].
Definition re_patient_id : pattern := re_quoted_param "PatientID".
Definition re_patient_birthday : pattern := re_quoted_param "PatientBirthDay".
Definition re_patient_name : pattern := re_quoted_param "PatientName".
Definition re_frame_of_reference : pattern := re_quoted_param "FrameOfReference".

(** anonymize_twix_header, line 338. *)
Definition re_patient_sex : pattern :=
  [tag "ParamLong" "PatientSex"; [Plus digit]; close_line].

(** anonymize_twix_header, line 341: [Sex], a quote, [>], white space, a
    brace, white space; one digit; white space, a brace. *)
Definition re_sex : pattern :=
  [lits "Sex" ++ [One (lit dq)] ++ lits ">" ++ [Plus space] ++ lits "{" ++ [Star space];
   [One digit];
   [Star space] ++ lits "}"].

(** anonymize_twix_header, line 358: a quoted run of digits and dots
    that contains the exam date. *)
Definition re_exam_date (date : list piece) : pattern :=
  [[One (lit dq); Star digit_or_dot] ++ date ++ [Star digit_or_dot; One (lit dq)]].

(** ** parse_twix_header *)

(** A Python float: an IEEE-754 double, that is 53 bits of precision and
    exponents up to 1024. *)
Definition float := spec_float.

(** The float literals [1e-6] and [1e-9]: the doubles nearest to the
    decimal fractions. *)
Definition float_1e_6 : float := S754_finite false 4722366482869645 (-72).
Definition float_1e_9 : float := S754_finite false 4835703278458517 (-82).

(** The conversion of an integer to a float that precedes a mixed
    product: rounded to the nearest double, ties to even, and
    OverflowError when that is beyond the largest double. *)
Definition float_of_int (v : Z) : result float :=
  match binary_normalize 53 1024 v 0 false with
  | S754_infinity _ => Raise OverflowError
  | x => Ok x
  end.

(** [v * x] for an integer [v] and a float [x]. *)
Definition int_times_float (v : Z) (x : float) : result float :=
  y <- float_of_int v ;; Ok (SFmul 53 1024 y x).

Record header_params_t := {
  protocol_name : text;
  patient_name : text;
  patient_id : text;
  patient_birthdate : text;
  dt : float;
  f0 : float
}.

(** [int(s)] for a run of decimal digits.  Interpreters differ on a run
    of more than 4300 digits (the newer ones refuse it with ValueError,
    the older ones convert it): such a run is outside the model. *)
Definition max_str_digits : nat := 4300.

Definition int_of_digits (t : text) : Z :=
  fold_left (fun acc c => 10 * acc + (code c - 48)) t 0.

Definition parse_int (t : text) : result Z :=
  if (max_str_digits <? length t)%nat then Unmodelled else Ok (int_of_digits t).

(** [l[i]] on a Python list. *)
Definition index {A} (l : list A) (i : nat) : result A := of_option IndexError (l !! i).

Definition parse_twix_header (header_string : text) : result header_params_t :=
  m <- found (re_search re_protocol_name header_string) ;;
  protocol_name <- index (split_on dq (group0 m)) 3 ;;
  m <- found (re_search re_patient_id_line header_string) ;;
  patient_id <- index (split_on dq (group0 m)) 3 ;;
  m <- found (re_search re_patient_name_value header_string) ;;
  let patient_name := re_escape (group m 2) in
  m <- found (re_search re_patient_birthday_value header_string) ;;
  let patient_birthday := group m 2 in
  m <- found (re_search re_frequency header_string) ;;
  let frequency_string := group0 m in
  m <- found (re_search re_number frequency_string) ;;
  let number_string := group0 m in
  v <- parse_int number_string ;;
  frequency <- int_times_float v float_1e_6 ;;
  m <- found (re_search re_dwell_time header_string) ;;
  let frequency_string := group0 m in
  m <- found (re_search re_number frequency_string) ;;
  let number_string := group0 m in
  v <- parse_int number_string ;;
  dwell_time <- int_times_float v float_1e_9 ;;
  Ok {| protocol_name := protocol_name;
        patient_name := patient_name;
        patient_id := patient_id;
        patient_birthdate := patient_birthday;
        dt := dwell_time;
        f0 := frequency |}.

(** ** anonymize_twix_header

    The function is one sequence of five rewriting stages, each of which
    locates a field with [re.search] in the text as the stages before it
    left it; they are named here so that properties can speak of them. *)

Definition xs (n : nat) : text := replicate n "x"%char.

(** lines 327-328: the patient id, used as a pattern, becomes x's. *)
Definition scrub_patient_id (header_string : text) : result text :=
  m <- found (re_search re_patient_id header_string) ;;
  let patient_id := group m 2 in
  p <- compile_atoms patient_id ;;
  Ok (re_sub [p] (fun _ => dq :: xs (length patient_id - 2) ++ [dq]) header_string).

(** lines 330-331: the birth date, used as a pattern, becomes 19700101. *)
Definition scrub_birthday (header_string : text) : result text :=
  m <- found (re_search re_patient_birthday header_string) ;;
  let patient_birthday := group m 2 in
  p <- compile_atoms patient_birthday ;;
  Ok (re_sub [p] (fun _ => dq :: str "19700101" ++ [dq]) header_string).

(** lines 333-336: every occurrence of the escaped name has all its
    characters but the quotes replaced by x. *)
Definition scrub_patient_name (header_string : text) : result text :=
  m <- found (re_search re_patient_name header_string) ;;
  let patient_name := re_escape (group m 2) in
  p <- compile_atoms patient_name ;;
  Ok (re_sub [p] (fun gs => re_sub [[One not_quote]] (fun _ => str "x") (concat gs))
             header_string).

(** lines 338-339: the digits of the PatientSex field become a single 0. *)
Definition zero_sex_field (header_string : text) : result text :=
  m <- found (re_search re_patient_sex header_string) ;;
  let patient_gender_span := span m 2 in
  Ok (take (fst patient_gender_span) header_string ++ str "0"
        ++ drop (snd patient_gender_span) header_string).

(** lines 341-343: the digit of every [Sex] parameter becomes 0. *)
Definition zero_sex_digits (header_string : text) : text :=
  re_sub re_sex (fun gs => nth 0 gs [] ++ str "0" ++ nth 2 gs []) header_string.

Definition scrub_patient_sex (header_string : text) : result text :=
  header_string <- zero_sex_field header_string ;;
  Ok (zero_sex_digits header_string).

(** lines 352-360: every quoted run of digits and dots that contains the
    exam date has its alphanumeric characters replaced by x. *)
Definition scrub_exam_date (header_string : text) : result text :=
  m <- found (re_search re_frame_of_reference header_string) ;;
  let frame_of_reference := group m 2 in
  exam_date_time <- index (split_on "."%char frame_of_reference) 10 ;;
  let exam_date := slice 2 8 exam_date_time in
  p <- compile_atoms exam_date ;;
  Ok (re_sub (re_exam_date p)
             (fun gs => re_sub [[One word]] (fun _ => str "x") (concat gs))
             header_string).

Definition anonymize_twix_header (header_string : text) : result text :=
  header_string <- scrub_patient_id header_string ;;
  header_string <- scrub_birthday header_string ;;
  header_string <- scrub_patient_name header_string ;;
  header_string <- scrub_patient_sex header_string ;;
  scrub_exam_date header_string.

(** ** anonymize_twix_vb, anonymize_twix_vd, anonymize_twix *)

(** Python's [b[:-24]] and [b[-24:]]. *)
Definition but_last (n : nat) {A} (l : list A) : list A := take (length l - n) l.
Definition last_n (n : nat) {A} (l : list A) : list A := drop (length l - n) l.

(** The bytes written to [fout]; every write comes after the last
    operation that can raise. *)
Definition anonymize_twix_vb : reader (list byte) :=
  hs <~ read 4 ;;
  header_size <~ lift (unpack_uint 4 hs) ;;
  header <~ read (header_size - 4) ;;
  header_string <~ lift (decode_cp1252 (but_last 24 header)) ;;
  anonymized_header <~ lift (anonymize_twix_header header_string) ;;
  rest <~ read (-1) ;;
  ret (le_bytes 4 header_size
         ++ encode_cp1252 anonymized_header
         ++ last_n 24 header
         ++ rest).

(** The body is [pass]: nothing is read, nothing is written. *)
Definition anonymize_twix_vd : reader (list byte) := ret [].

(** The two leading integers select the layout. *)
Definition is_vd (first_uint second_uint : Z) : bool :=
  (first_uint =? 0) && (second_uint <=? 64).

(** How a run of [anonymize_twix] ends: what it raised, if anything, and
    the content of the output file if it was opened (created empty by
    [open(..., 'wb')] before any byte is written). *)
Record anonymize_outcome := {
  outcome : result unit;
  output_file : option (list byte)
}.

Definition anonymize_twix (input : list byte) : anonymize_outcome :=
  let fin := open_rb input in
  match (bs <~ read 8 ;; lift (unpack_uints 4 2 bs)) fin with
  | Ok (uints, fin) =>
      let first_uint := nth 0 uints 0 in
      let second_uint := nth 1 uints 0 in
      match seek 0 fin with
      | Ok (_, fin) =>
          let written :=
            if is_vd first_uint second_uint then anonymize_twix_vd fin
            else anonymize_twix_vb fin in
          match written with
          | Ok (out, _) => {| outcome := Ok tt; output_file := Some out |}
          | Raise e => {| outcome := Raise e; output_file := Some [] |}
          | Unmodelled => {| outcome := Unmodelled; output_file := Some [] |}
          end
      | Raise e => {| outcome := Raise e; output_file := None |}
      | Unmodelled => {| outcome := Unmodelled; output_file := None |}
      end
  | Raise e => {| outcome := Raise e; output_file := None |}
  | Unmodelled => {| outcome := Unmodelled; output_file := None |}
  end.

(** ** Samples, matrices and arrays *)

(** A 32-bit float by its bit pattern; unary minus flips the sign bit. *)
Definition float32 := Z.
Definition fneg (x : float32) : float32 := Z.lxor x (2 ^ 31).

Record complex := { re_part : float32; im_part : float32 }.
Definition czero : complex := {| re_part := 0; im_part := 0 |}.

(** A channel-by-sample matrix, one row per channel. *)
Definition matrix := list (list complex).
Definition zero_matrix (num_channels np : nat) : matrix :=
  replicate num_channels (replicate np czero).
Definition has_shape (num_channels np : nat) (m : matrix) : bool :=
  (length m =? num_channels)%nat && forallb (fun row => (length row =? np)%nat) m.

(** The dense array of [build_mrsdata]: its shape, and its buffer in
    row-major order cut into the channel-by-sample blocks that the two
    trailing dimensions span, one block per loop-index tuple. *)
Record ndarray := { shape : list nat; slabs : list matrix }.

Definition product (dims : list nat) : nat := fold_right Nat.mul 1%nat dims.

(** The row-major position of an index tuple among the blocks. *)
Definition ravel (dims idx : list nat) : nat :=
  fold_left (fun acc di => (acc * fst di + snd di)%nat) (zip dims idx) 0%nat.

(** The array of zeros of a shape, once numpy has granted it. *)
Definition zero_array (loop_dims : list nat) (num_channels np : nat) : ndarray :=
  {| shape := loop_dims ++ [num_channels; np];
     slabs := replicate (product loop_dims) (zero_matrix num_channels np) |}.

(** What numpy checks before it allocates: the item size (16 bytes for
    dtype complex) is multiplied by the extents one after the other,
    extents of zero left out, and the array is refused with ValueError
    once the product passes the largest index of a 64-bit platform,
    [2^63 - 1]. *)
Definition nbytes (dims : list nat) : Z :=
  fold_left (fun acc d => if (d =? 0)%nat then acc else acc * Z.of_nat d) dims 16.

Definition too_big (dims : list nat) : bool := 2 ^ 63 - 1 <? nbytes dims.

(** [numpy.zeros(loop_dims ++ (num_channels, np), dtype='complex')].
    Whether the machine has the memory for an array that passes the
    check is not modelled. *)
Definition zeros (loop_dims : list nat) (num_channels np : nat) : result ndarray :=
  if too_big (loop_dims ++ [num_channels; np]) then Raise ValueError
  else Ok (zero_array loop_dims num_channels np).

(** [data[i0, ..., i13]] for a tuple inside the array. *)
Definition getitem (a : ndarray) (idx : list nat) : option matrix :=
  slabs a !! ravel (take 14 (shape a)) idx.

(** [data[i0, ..., i13] = m] for a tuple inside the array. *)
Definition setitem (a : ndarray) (idx : list nat) (m : matrix) : ndarray :=
  {| shape := shape a;
     slabs := <[ravel (take 14 (shape a)) idx := m]> (slabs a) |}.

(** [data.squeeze()]: the same buffer, without the dimensions of extent 1. *)
Definition squeeze (a : ndarray) : ndarray :=
  {| shape := filter (fun d => d <> 1%nat) (shape a); slabs := slabs a |}.

(** ** TwixBuilder *)

Record TwixBuilder := {
  header_params : option header_params_t;
  builder_dt : option float;           (* self.dt, never assigned *)
  np : option nat;
  num_channels : option nat;
  data : list matrix;
  loop_counters : list (list nat)
}.

(** [TwixBuilder()]. *)
Definition new_builder : TwixBuilder :=
  {| header_params := None; builder_dt := None; np := None; num_channels := None;
     data := []; loop_counters := [] |}.

Definition set_header_string (b : TwixBuilder) (header_string : text) : result TwixBuilder :=
  hp <- parse_twix_header header_string ;;
  Ok {| header_params := Some hp; builder_dt := builder_dt b; np := np b;
        num_channels := num_channels b; data := data b;
        loop_counters := loop_counters b |}.

Definition set_np (b : TwixBuilder) (v : nat) : result TwixBuilder :=
  match np b with
  | None =>
      Ok {| header_params := header_params b; builder_dt := builder_dt b; np := Some v;
            num_channels := num_channels b; data := data b;
            loop_counters := loop_counters b |}
  | Some old => if (old =? v)%nat then Ok b else Raise ValueError
  end.

Definition set_num_channels (b : TwixBuilder) (v : nat) : result TwixBuilder :=
  match num_channels b with
  | None =>
      Ok {| header_params := header_params b; builder_dt := builder_dt b; np := np b;
            num_channels := Some v; data := data b;
            loop_counters := loop_counters b |}
  | Some old => if (old =? v)%nat then Ok b else Raise ValueError
  end.

Definition add_scan (b : TwixBuilder) (lc : list nat) (scan_data : matrix) : TwixBuilder :=
  {| header_params := header_params b; builder_dt := builder_dt b; np := np b;
     num_channels := num_channels b;
     data := data b ++ [scan_data];
     loop_counters := loop_counters b ++ [lc] |}.

(** [numpy.max(loop_counter_array, axis=0)] for tuples of 14 counters. *)
Definition column (i : nat) (lcs : list (list nat)) : list nat :=
  map (fun lc => nth i lc 0%nat) lcs.
Definition column_max (lcs : list (list nat)) : list nat :=
  map (fun i => list_max (column i lcs)) (seq 0 14).

(** Lines 47-50 of build_mrsdata: the loop of assignments. *)
Definition assign (lcs : list (list nat)) (ms : list matrix) (a : ndarray) : ndarray :=
  fold_left (fun a lm => setitem a (fst lm) (snd lm)) (zip lcs ms) a.

(** Lines 44-51 of build_mrsdata: the array before [squeeze], when numpy
    grants it. *)
Definition scatter (lcs : list (list nat)) (ms : list matrix) (num_channels np : nat)
  : ndarray :=
  let data_shape := map (fun d => (1 + d)%nat) (column_max lcs) in
  assign lcs ms (zero_array data_shape num_channels np).

Record metadata_t := {
  md_patient_name : text;
  md_patient_id : text;
  md_patient_birthdate : text
}.

(** The arguments [MRSData] is constructed with. *)
Record MRSData := {
  mrs_data : ndarray;
  mrs_dt : float;
  mrs_f0 : float;
  mrs_metadata : metadata_t
}.

(** The builder of this file is only fed tuples of 14 counters and
    matrices of [num_channels] rows of [np] samples; what numpy does with
    other shapes (ragged arrays, broadcasting) is outside the model. *)
Definition build_mrsdata (b : TwixBuilder) : result MRSData :=
  match loop_counters b with
  | [] => Raise ValueError
  | _ :: _ =>
      match num_channels b, np b with
      | Some nc, Some n =>
          if forallb (fun lc => (length lc =? 14)%nat) (loop_counters b) then
            let data_shape := map (fun d => (1 + d)%nat) (column_max (loop_counters b)) in
            zeroed <- zeros data_shape nc n ;;
            if (length (data b) <? length (loop_counters b))%nat then Raise IndexError
            else if forallb (has_shape nc n) (data b) then
              let data := assign (loop_counters b) (data b) zeroed in
              let data := squeeze data in
              hp <- of_option TypeError (header_params b) ;;
              Ok {| mrs_data := data;
                    mrs_dt := dt hp;
                    mrs_f0 := f0 hp;
                    mrs_metadata :=
                      {| md_patient_name := patient_name hp;
                         md_patient_id := patient_id hp;
                         md_patient_birthdate := patient_birthdate hp |} |}
            else Unmodelled
          else Unmodelled
      | _, _ => Raise TypeError
      end
  end.

(** ** The scan-record decoders *)

(** [mask >> i & 1]. *)
Definition flag (mask i : Z) : Z := Z.land (Z.shiftr mask i) 1.

(** Truth of a Python integer. *)
Definition truthy (v : Z) : bool := negb (v =? 0).

(** [int(2 ** numpy.floor(numpy.log2(d)))] for an integer [d] below 2^17:
    the logarithm of a negative number is nan, whose conversion to [int]
    raises; that of zero is minus infinity, and two to that power is 0. *)
Definition usable_np (d : Z) : result nat :=
  if d <? 0 then Raise ValueError
  else if d =? 0 then Ok 0%nat
  else Ok (Z.to_nat (2 ^ Z.log2 d)).

(** [(complex(r, -i) for r, i in zip(data_iter, data_iter))]. *)
Fixpoint complex_pairs (raw_data : list float32) : list complex :=
  match raw_data with
  | r :: i :: rest => {| re_part := r; im_part := fneg i |} :: complex_pairs rest
  | _ => []
  end.

(** [scan_data[channel_index, :] = samples[start:(start + np)]]: the
    assignment into a row of [np] elements raises when the slice has
    another size (for the [np] of [usable_np] it never has). *)
Definition channel_row (start np : nat) (raw_data : list float32) : result (list complex) :=
  let row := slice start (start + np) (complex_pairs raw_data) in
  if (length row =? np)%nat then Ok row else Raise ValueError.

Inductive control := Break | Continue.

(** The channel loop of load_twix_vb, lines 177-188. *)
Fixpoint channels_vb (channels : nat) (num_samples : Z) (num_dummy_points np : nat)
  : reader matrix :=
  match channels with
  | O => ret []
  | S channels' =>
      bs <~ read 4 ;;
      _ <~ lift (unpack_unused 4 bs) ;;
      bs <~ read (num_samples * 4 * 2) ;;
      raw_data <~ lift (unpack_uints 4 (Z.to_nat (num_samples * 2)) bs) ;;
      row <~ lift (channel_row num_dummy_points np raw_data) ;;
      _ <~ read 124 ;;
      rows <~ channels_vb channels' num_samples num_dummy_points np ;;
      ret (row :: rows)
  end.

(** One turn of the loop of load_twix_vb, lines 104-194. *)
Definition scan_vb (builder : TwixBuilder) : reader (control * TwixBuilder) :=
  start_position <~ tell ;;
  bs <~ read 4 ;;
  temp <~ lift (unpack_uint 4 bs) ;;
  let DMA_length := Z.land temp (2 ^ 26 - 1) in
  bs <~ read 16 ;;
  _ <~ lift (unpack_unused 16 bs) ;;
  bs <~ read 8 ;;
  eval_info_mask <~ lift (unpack_uint 8 bs) ;;
  let acq_end := Z.land eval_info_mask 1 in
  let rt_feedback := flag eval_info_mask 1 in
  let hp_feedback := flag eval_info_mask 2 in
  let sync_data := flag eval_info_mask 5 in
  let phase_correction := flag eval_info_mask 21 in
  let noise_adj_scan := flag eval_info_mask 25 in
  if truthy acq_end then ret (Break, builder)
  else if truthy rt_feedback || truthy hp_feedback || truthy phase_correction
          || truthy noise_adj_scan || truthy sync_data
  then
    _ <~ seek (start_position + DMA_length) ;;
    ret (Continue, builder)
  else
    bs <~ read 4 ;;
    hh <~ lift (unpack_uints 2 2 bs) ;;
    let num_samples := nth 0 hh 0 in
    let num_channels := nth 1 hh 0 in
    builder <~ lift (set_num_channels builder (Z.to_nat num_channels)) ;;
    bs <~ read 28 ;;
    loop_counters <~ lift (unpack_uints 2 14 bs) ;;
    bs <~ read 12 ;;
    _ <~ lift (unpack_unused 12 bs) ;;
    bs <~ read 8 ;;
    _ <~ lift (unpack_unused 8 bs) ;;
    bs <~ read 8 ;;
    ice_program_params <~ lift (unpack_uints 2 4 bs) ;;
    bs <~ read 8 ;;
    free_params <~ lift (unpack_uints 2 4 bs) ;;
    let num_dummy_points := nth 0 free_params 0 in
    np <~ lift (usable_np (num_samples - num_dummy_points)) ;;
    builder <~ lift (set_np builder np) ;;
    bs <~ read 28 ;;
    _ <~ lift (unpack_unused 28 bs) ;;
    scan_data <~ channels_vb (Z.to_nat num_channels) num_samples
                             (Z.to_nat num_dummy_points) np ;;
    let builder := add_scan builder (map Z.to_nat loop_counters) scan_data in
    _ <~ seek (start_position + DMA_length) ;;
    ret (Continue, builder).

(** The channel loop of load_twix_vd, lines 273-284. *)
Fixpoint channels_vd (channels : nat) (num_samples : Z) (fid_start np : nat)
  : reader matrix :=
  match channels with
  | O => ret []
  | S channels' =>
      bs <~ read 32 ;;
      _ <~ lift (unpack_unused 32 bs) ;;
      bs <~ read (num_samples * 4 * 2) ;;
      raw_data <~ lift (unpack_uints 4 (Z.to_nat (num_samples * 2)) bs) ;;
      row <~ lift (channel_row fid_start np raw_data) ;;
      rows <~ channels_vd channels' num_samples fid_start np ;;
      ret (row :: rows)
  end.

(** One turn of the loop of load_twix_vd, lines 216-289. *)
Definition scan_vd (builder : TwixBuilder) : reader (control * TwixBuilder) :=
  initial_position <~ tell ;;
  bs <~ read 4 ;;
  temp <~ lift (unpack_uint 4 bs) ;;
  let DMA_length := Z.land temp (2 ^ 26 - 1) in
  bs <~ read 16 ;;
  _ <~ lift (unpack_unused 16 bs) ;;
  bs <~ read 20 ;;
  _ <~ lift (unpack_unused 20 bs) ;;
  bs <~ read 8 ;;
  eval_info_mask <~ lift (unpack_uint 8 bs) ;;
  let acq_end := Z.land eval_info_mask 1 in
  let rt_feedback := flag eval_info_mask 1 in
  let hp_feedback := flag eval_info_mask 2 in
  let sync_data := flag eval_info_mask 5 in
  let phase_correction := flag eval_info_mask 21 in
  let noise_adj_scan := flag eval_info_mask 25 in
  if truthy acq_end then ret (Break, builder)
  else if truthy rt_feedback || truthy hp_feedback || truthy phase_correction
          || truthy noise_adj_scan || truthy sync_data
  then
    _ <~ seek (initial_position + DMA_length) ;;
    ret (Continue, builder)
  else
    bs <~ read 4 ;;
    hh <~ lift (unpack_uints 2 2 bs) ;;
    let num_samples := nth 0 hh 0 in
    let num_channels := nth 1 hh 0 in
    builder <~ lift (set_num_channels builder (Z.to_nat num_channels)) ;;
    bs <~ read 28 ;;
    loop_counters <~ lift (unpack_uints 2 14 bs) ;;
    bs <~ read 12 ;;
    _ <~ lift (unpack_unused 12 bs) ;;
    bs <~ read 8 ;;
    _ <~ lift (unpack_unused 8 bs) ;;
    bs <~ read 28 ;;
    _ <~ lift (unpack_unused 28 bs) ;;
    bs <~ read 48 ;;
    ice_program_params <~ lift (unpack_uints 2 24 bs) ;;
    bs <~ read 8 ;;
    reserved_params <~ lift (unpack_uints 2 4 bs) ;;
    let fid_start_offset := nth 4 ice_program_params 0 in
    let num_dummy_points := nth 0 reserved_params 0 in
    let fid_start := fid_start_offset + num_dummy_points in
    np <~ lift (usable_np (num_samples - fid_start)) ;;
    builder <~ lift (set_np builder np) ;;
    bs <~ read 8 ;;
    _ <~ lift (unpack_unused 8 bs) ;;
    scan_data <~ channels_vd (Z.to_nat num_channels) num_samples
                             (Z.to_nat fid_start) np ;;
    let builder := add_scan builder (map Z.to_nat loop_counters) scan_data in
    _ <~ seek (initial_position + DMA_length) ;;
    ret (Continue, builder).

(** [while True]: the loop runs until a turn breaks or raises.  [None]
    when [fuel] turns were not enough. *)
Fixpoint scan_loop (scan : TwixBuilder -> reader (control * TwixBuilder))
         (fuel : nat) (builder : TwixBuilder) (fin : file)
  : option (result TwixBuilder) :=
  match fuel with
  | O => None
  | S fuel' =>
      match scan builder fin with
      | Ok (Break, builder, _) => Some (Ok builder)
      | Ok (Continue, builder, fin) => scan_loop scan fuel' builder fin
      | Raise e => Some (Raise e)
      | Unmodelled => Some Unmodelled
      end
  end.

(** load_twix_vb, lines 93-100: the header block. *)
Definition header_vb (builder : TwixBuilder) : reader TwixBuilder :=
  bs <~ read 4 ;;
  header_size <~ lift (unpack_uint 4 bs) ;;
  header <~ read (header_size - 4) ;;
  let header := decode_latin1 (but_last 24 header) in
  lift (set_header_string builder header).

Definition load_twix_vb (fuel : nat) (fin : file) (builder : TwixBuilder)
  : option (result TwixBuilder) :=
  match header_vb builder fin with
  | Ok (builder, fin) => scan_loop scan_vb fuel builder fin
  | Raise e => Some (Raise e)
  | Unmodelled => Some Unmodelled
  end.

(** load_twix_vd, lines 198-213: the index entry of the last measurement
    and the header block it points to. *)
Definition header_vd (builder : TwixBuilder) : reader TwixBuilder :=
  bs <~ read 8 ;;
  ids <~ lift (unpack_uints 4 2 bs) ;;
  let num_measurements := nth 1 ids 0 in
  let measurement_index := num_measurements - 1 in
  _ <~ seek (8 + 152 * measurement_index) ;;
  bs <~ read 152 ;;
  _ <~ lift (unpack_unused 152 bs) ;;
  let offset := le_Z (slice 8 16 bs) in
  _ <~ seek offset ;;
  bs <~ read 4 ;;
  header_size <~ lift (unpack_uint 4 bs) ;;
  header <~ read (header_size - 4) ;;
  let header := decode_latin1 header in
  lift (set_header_string builder header).

Definition load_twix_vd (fuel : nat) (fin : file) (builder : TwixBuilder)
  : option (result TwixBuilder) :=
  match header_vd builder fin with
  | Ok (builder, fin) => scan_loop scan_vd fuel builder fin
  | Raise e => Some (Raise e)
  | Unmodelled => Some Unmodelled
  end.

Definition load_twix (fuel : nat) (input : list byte) : option (result MRSData) :=
  let fin := open_rb input in
  match (bs <~ read 8 ;; lift (unpack_uints 4 2 bs)) fin with
  | Ok (uints, fin) =>
      let first_uint := nth 0 uints 0 in
      let second_uint := nth 1 uints 0 in
      match seek 0 fin with
      | Ok (_, fin) =>
          let builder := new_builder in
          let loaded :=
            if is_vd first_uint second_uint then load_twix_vd fuel fin builder
            else load_twix_vb fuel fin builder in
          match loaded with
          | Some (Ok builder) => Some (build_mrsdata builder)
          | Some (Raise e) => Some (Raise e)
          | Some Unmodelled => Some Unmodelled
          | None => None
          end
      | Raise e => Some (Raise e)
      | Unmodelled => Some Unmodelled
      end
  | Raise e => Some (Raise e)
  | Unmodelled => Some Unmodelled
  end.

(** ** Sample inputs *)

Definition param_string (name value : string) : text :=
  str "<ParamString." ++ [dq] ++ str name ++ [dq] ++ str ">  { "
      ++ [dq] ++ str value ++ [dq] ++ str "  }" ++ [nl].

Definition param_long (name value : string) : text :=
  str "<ParamLong." ++ [dq] ++ str name ++ [dq] ++ str ">  { "
      ++ str value ++ str "  }" ++ [nl].

(** A header with the parameters both the parser and the anonymizer
    look for. *)
Definition sample_header (id name birthday sex : string) (more : text) : text :=
  param_string "tProtocolName" "svs_se"
    ++ param_string "PatientID" id
    ++ param_string "PatientName" name
    ++ param_string "PatientBirthDay" birthday
    ++ param_long "PatientSex" sex
    ++ param_long "Frequency" "123456000"
    ++ param_long "DwellTimeSig" "5000"
    ++ param_string "FrameOfReference"
         "1.3.12.2.1107.5.2.32.35000.1.20150102123456789.0.0.0"
    ++ more.

Definition zero_bytes (n : nat) : list byte := replicate n "000"%char.

(** The first 124 bytes of a variant A record header after the composite
    word: identifiers, flag word, sample and channel counts, 14 loop
    counters, geometry, ICE and free parameters, slice position. *)
Definition vb_fields (mask num_samples num_channels : Z) (lc : list Z) (dummy : Z)
  : list byte :=
  zero_bytes 16 ++ le_bytes 8 mask ++ le_bytes 2 num_samples ++ le_bytes 2 num_channels
    ++ flat_map (le_bytes 2) lc ++ zero_bytes 12 ++ zero_bytes 8 ++ zero_bytes 8
    ++ (le_bytes 2 dummy ++ zero_bytes 6) ++ zero_bytes 28.

(** [n] samples whose real and imaginary bit patterns count up from [k]. *)
Definition ramp (k : Z) (n : nat) : list byte :=
  flat_map (fun i => le_bytes 4 (k + 2 * Z.of_nat i) ++ le_bytes 4 (k + 2 * Z.of_nat i + 1))
           (seq 0 n).

(** A variant A record of two channels: each channel has the 128-byte
    header (the last four bytes are the channel's own) and its samples. *)
Definition vb_record (num_samples dummy : Z) (lc : list Z) : list byte :=
  let dma := 2 * (128 + 8 * num_samples) in
  le_bytes 4 dma ++ vb_fields 0 num_samples 2 lc dummy ++ le_bytes 4 0
    ++ ramp 100 (Z.to_nat num_samples)
    ++ le_bytes 4 dma ++ vb_fields 0 num_samples 2 lc dummy ++ le_bytes 4 1
    ++ ramp 200 (Z.to_nat num_samples).

(** A record with the given flag word and nothing else. *)
Definition vb_flag_record (mask : Z) : list byte :=
  le_bytes 4 128 ++ zero_bytes 16 ++ le_bytes 8 mask ++ zero_bytes 100.

(** The same for variant B, whose flag word stands 20 bytes later. *)
Definition vd_flag_record (mask : Z) : list byte :=
  le_bytes 4 192 ++ zero_bytes 36 ++ le_bytes 8 mask ++ zero_bytes 144.

(** A variant A container: the length word, the header text, the 24
    opaque bytes, the records. *)
Definition vb_container (header : text) (records : list byte) : list byte :=
  le_bytes 4 (4 + Z.of_nat (length header) + 24) ++ header ++ zero_bytes 24 ++ records.

Definition sample_header_plain : text := sample_header "AB12" "Doe" "19850203" "1" [].

Definition sample_container : list byte :=
  vb_container sample_header_plain
               (vb_record 8 2 (replicate 14 0) ++ vb_flag_record 1).

(** A sequence of [add_scan] calls. *)
Definition submit (b : TwixBuilder) (l : list (list nat * matrix)) : TwixBuilder :=
  fold_left (fun b lm => add_scan b (fst lm) (snd lm)) l b.

(** An index tuple lies inside the loop dimensions of an array. *)
Definition in_bounds (dims idx : list nat) : Prop :=
  Forall2 (fun d i => (i < d)%nat) dims idx.

Definition sample_params : header_params_t :=
  {| protocol_name := str "svs_se";
     patient_name := str "Doe";
     patient_id := str "AB12";
     patient_birthdate := str "19850203";
     dt := SFmul 53 1024 (binary_normalize 53 1024 5000 0 false) float_1e_9;
     f0 := SFmul 53 1024 (binary_normalize 53 1024 123456000 0 false) float_1e_6 |}.

(** A matrix of two channels and two samples filled with one value. *)
Definition const_matrix (k : Z) : matrix :=
  replicate 2 (replicate 2 {| re_part := k; im_part := k |}).

(** A builder after the header and the first record have been read. *)
Definition sample_builder : TwixBuilder :=
  {| header_params := Some sample_params; builder_dt := None;
     np := Some 2%nat; num_channels := Some 2%nat;
     data := [const_matrix 1];
     loop_counters := [replicate 14 0%nat] |}.

Definition index_a : list nat := ([0; 0; 1] ++ replicate 11 0)%nat.
Definition index_b : list nat := ([0; 0; 0; 0; 0; 0; 0; 0; 2] ++ replicate 5 0)%nat.

(** The builder after two more records, at two other loop indices. *)
Definition two_more_scans : TwixBuilder :=
  submit sample_builder [(index_a, const_matrix 2); (index_b, const_matrix 3)].

(** A builder holding one scan whose 14 loop counters are all 65535. *)
Definition largest_counters : TwixBuilder :=
  submit {| header_params := Some sample_params; builder_dt := None;
            np := Some 2%nat; num_channels := Some 2%nat;
            data := []; loop_counters := [] |}
         [(replicate 14 (Z.to_nat 65535), const_matrix 1)].

(** A variant A file with one record whose 14 loop counters are all
    65535, the builder it fills being [largest_counters]. *)
Definition largest_counters_container : list byte :=
  vb_container sample_header_plain
               (vb_record 8 2 (replicate 14 65535) ++ vb_flag_record 1).

(** The [n] bytes of a file at offset [off]. *)
Definition bytes_at (bs : list byte) (off : Z) (n : nat) : list byte :=
  take n (drop (Z.to_nat off) bs).

(** The same file with the read position at [p]. *)
Definition at_pos (f : file) (p : Z) : file := {| content := content f; pos := p |}.

(** The flag bits that make a record a non-data record, in the order
    the decoders test them. *)
Definition skip_flags (mask : Z) : bool :=
  Z.testbit mask 1 || Z.testbit mask 2 || Z.testbit mask 21
  || Z.testbit mask 25 || Z.testbit mask 5.

(** The two layouts: the turn of the loop that decodes a record, and
    where the 64-bit flag word of a record stands. *)
Inductive variant := VariantA | VariantB.

Definition scan_of (v : variant) : TwixBuilder -> reader (control * TwixBuilder) :=
  match v with VariantA => scan_vb | VariantB => scan_vd end.

Definition flag_word_offset (v : variant) : Z :=
  match v with VariantA => 20 | VariantB => 40 end.

(** The text each later stage of the anonymizer searches. *)
Definition before_name (h : text) : result text :=
  h <- scrub_patient_id h ;; scrub_birthday h.
Definition before_sex (h : text) : result text :=
  h <- before_name h ;; scrub_patient_name h.
Definition before_exam_date (h : text) : result text :=
  h <- before_sex h ;; scrub_patient_sex h.

(** A file whose two leading integers (0 and 1) select variant B. *)
Definition vd_file : list byte := le_bytes 4 0 ++ le_bytes 4 1 ++ zero_bytes 152.

(** A header whose patient name has a regex metacharacter, and a
    container with that header. *)
Definition dotted_name_header : text := sample_header "AB12" "Doe.John" "19850203" "1" [].
Definition dotted_name_container : list byte :=
  vb_container dotted_name_header (vb_record 8 2 (replicate 14 0) ++ vb_flag_record 1).

(** A header with two PatientID parameters. *)
Definition two_ids_header : text :=
  sample_header "AB12" "Doe" "19850203" "1" (param_string "PatientID" "CD34").

(** The [n] conjugated complex samples stored from offset [off] on. *)
Definition samples_at (bs : list byte) (off n : Z) : list complex :=
  complex_pairs
    (map le_Z (chunks 4 (Z.to_nat (n * 2)) (bytes_at bs off (Z.to_nat (n * 4 * 2))))).

(** The fields of the record at offset [p] that decide its decoding:
    whether it is a data record (neither terminal nor skipped), its
    sample count, its channel count and the index of its first usable
    sample. *)
Definition is_data_record (v : variant) (bs : list byte) (p : Z) : bool :=
  let mask := le_Z (bytes_at bs (p + flag_word_offset v) 8) in
  negb (Z.testbit mask 0) && negb (skip_flags mask).

Definition num_samples_at (v : variant) (bs : list byte) (p : Z) : Z :=
  match v with
  | VariantA => le_Z (bytes_at bs (p + 28) 2)
  | VariantB => le_Z (bytes_at bs (p + 48) 2)
  end.

Definition num_channels_at (v : variant) (bs : list byte) (p : Z) : Z :=
  match v with
  | VariantA => le_Z (bytes_at bs (p + 30) 2)
  | VariantB => le_Z (bytes_at bs (p + 50) 2)
  end.

Definition sample_start_at (v : variant) (bs : list byte) (p : Z) : Z :=
  match v with
  | VariantA => le_Z (bytes_at bs (p + 88) 2)
  | VariantB => le_Z (bytes_at bs (p + 136) 2) + le_Z (bytes_at bs (p + 176) 2)
  end.

(** Where the samples of channel [c] of the record at [p] are read. *)
Definition channel_samples_offset (v : variant) (p n : Z) (c : nat) : Z :=
  match v with
  | VariantA => p + 124 + Z.of_nat c * (4 + 8 * n + 124) + 4
  | VariantB => p + 192 + Z.of_nat c * (32 + 8 * n) + 32
  end.

(** The channel loop of variant A as the specification words it: skip
    the 124-byte sub-header, then read the samples. *)
Fixpoint channels_vb_as_claimed (channels : nat) (num_samples : Z)
         (num_dummy_points np : nat) : reader matrix :=
  match channels with
  | O => ret []
  | S channels' =>
      _ <~ read 124 ;;
      bs <~ read (num_samples * 4 * 2) ;;
      raw_data <~ lift (unpack_uints 4 (Z.to_nat (num_samples * 2)) bs) ;;
      row <~ lift (channel_row num_dummy_points np raw_data) ;;
      rows <~ channels_vb_as_claimed channels' num_samples num_dummy_points np ;;
      ret (row :: rows)
  end.

(** The rows a channel loop produced, if it did not raise. *)
Definition rows_of (r : result (matrix * file)) : option matrix :=
  match r with Ok (m, _) => Some m | _ => None end.

(** A variant A record of two channels, eight samples and two dummy
    points, followed by the terminal record and padding. *)
Definition two_channel_stream : list byte :=
  vb_record 8 2 (replicate 14 0) ++ vb_flag_record 1 ++ zero_bytes 64.

(** A record whose dummy points are all of its samples. *)
Definition all_dummy_stream : list byte :=
  vb_record 2 2 (replicate 14 0) ++ vb_flag_record 1.

(** The least number of characters a run of pieces matches, and whether
    every piece is a single character. *)
Fixpoint min_len (ps : list piece) : nat :=
  match ps with
  | [] => 0
  | Star _ :: ps' => min_len ps'
  | _ :: ps' => S (min_len ps')
  end.

Definition all_one (ps : list piece) : bool :=
  forallb (fun q => match q with One _ => true | _ => false end) ps.


(** The value (group 2) a pattern locates in a text, empty if there is
    none. *)
Definition located (p : pattern) (t : text) : text :=
  match re_search p t with Some m => group m 2 | None => [] end.

Definition has_backslash (t : text) : bool := existsb (Ascii.eqb bsl) t.

(** The replacements of the anonymizer have the length of what they
    replace: the patient id and the birth date it locates (each in the
    text it is searched in) contain no backslash, the birth date has ten
    characters with its quotes, and the PatientSex field has one digit. *)
Definition keeps_length (h : text) : bool :=
  negb (has_backslash (located re_patient_id h))
  && match scrub_patient_id h with
     | Ok t => negb (has_backslash (located re_patient_birthday t))
               && (length (located re_patient_birthday t) =? 10)%nat
     | _ => true
     end
  && match before_sex h with
     | Ok t => (length (located re_patient_sex t) =? 1)%nat
     | _ => true
     end.

(** A header value holds none of the characters that are operators of a
    regular expression, [\ * + ? { } [ ] ( ) | ^ $]. *)
Definition has_operator (t : text) : bool :=
  existsb (fun c => Ascii.eqb c bsl || is_meta c) t.

(** The exam date the last stage takes from the FrameOfReference value
    of a text. *)
Definition exam_date_of (t : text) : text :=
  slice 2 8 (nth 10 (split_on "."%char (located re_frame_of_reference t)) []).

(** The three header values that the anonymizer uses as regular
    expressions without escaping them (the patient id, the birth date
    and the exam date, each located in the text it is searched in) hold
    no operator. *)
Definition operator_free (h : text) : bool :=
  negb (has_operator (located re_patient_id h))
  && match scrub_patient_id h with
     | Ok t => negb (has_operator (located re_patient_birthday t))
     | _ => true
     end
  && match before_exam_date h with
     | Ok t => negb (has_operator (exam_date_of t))
     | _ => true
     end.


(** The header text [anonymize_twix_vb] decodes from a file. *)
Definition vb_header_string (input : list byte) : result text :=
  match (hs <~ read 4 ;;
         header_size <~ lift (unpack_uint 4 hs) ;;
         header <~ read (header_size - 4) ;;
         lift (decode_cp1252 (but_last 24 header))) (open_rb input) with
  | Ok (t, _) => Ok t
  | Raise e => Raise e
  | Unmodelled => Unmodelled
  end.

(** A header whose birth date has four characters, and a container with
    that header. *)
Definition short_birthday_header : text := sample_header "AB12" "Doe" "1985" "1" [].
Definition short_birthday_container : list byte :=
  vb_container short_birthday_header (vb_record 8 2 (replicate 14 0) ++ vb_flag_record 1).

(** A header whose patient id has a period, and another parameter whose
    value the id, read as a regular expression, matches. *)
Definition dotted_id_header : text :=
  sample_header "1.5" "Doe" "19850203" "1" (param_string "tSequenceVariant" "1x5").

(** The PHI spans as the specification names them, for comparison with
    the places the program rewrites: the occurrences of the patient
    identifier, of the birth date and of the patient name (the located
    values as plain text, with or without their quotes), the digits of
    the PatientSex field and the [Sex] parameters, and the quoted runs of
    digits and periods that contain the exam date. *)
Fixpoint starts_with (v s : text) : bool :=
  match v, s with
  | [], _ => true
  | c :: v', a :: s' => Ascii.eqb c a && starts_with v' s'
  | _ :: _, [] => false
  end.

Definition in_occurrence (v h : text) (i : nat) : bool :=
  existsb (fun j => starts_with v (drop j h) && (j <=? i)%nat && (i <? j + length v)%nat)
          (seq 0 (length h)).

Definition unquoted (v : text) : text := slice 1 (length v - 1) v.

Definition in_value (v h : text) (i : nat) : bool :=
  in_occurrence v h i || in_occurrence (unquoted v) h i.

Definition in_match (ms : list re_match) (i : nat) : bool :=
  existsb (fun m => (m_start m <=? i)%nat && (i <? m_start m + length (group0 m))%nat) ms.

Definition literal (v : text) : list piece := map (fun c => One (lit c)) v.

Definition phi_span_as_claimed (h : text) (i : nat) : bool :=
  in_value (located re_patient_id h) h i
  || in_value (located re_patient_birthday h) h i
  || in_value (located re_patient_name h) h i
  || in_match (re_finditer re_patient_sex h) i
  || in_match (re_finditer re_sex h) i
  || in_match
       (re_finditer
          (re_exam_date
             (literal (slice 2 8 (nth 10 (split_on "."%char
                                            (located re_frame_of_reference h)) []))))
          h) i.

(** Headers that stop after the first [k] of the fields the anonymizer
    looks for. *)
Definition partial_header (k : nat) : text :=
  concat (take k [param_string "PatientID" "AB12";
                  param_string "PatientBirthDay" "19850203";
                  param_string "PatientName" "Doe";
                  param_long "PatientSex" "1"]).

(** A variant A container whose header text ends with byte 0x81, which
    windows-1252 leaves undefined. *)
Definition undecodable_container : list byte :=
  vb_container (sample_header_plain ++ ["129"%char]) (vb_flag_record 1).

(** What one turn of the record loop can do to the builder: leave it as
    it is (end of acquisition, or a record that is passed over), or check
    the two counts and append one scan. *)
Inductive scan_step (b : TwixBuilder) : control -> TwixBuilder -> Prop :=
| step_break : scan_step b Break b
| step_skip : scan_step b Continue b
| step_data (C u : nat) (b0 b1 : TwixBuilder) (lc : list nat) (m : matrix) :
    set_num_channels b C = Ok b0 ->
    set_np b0 u = Ok b1 ->
    length lc = 14%nat ->
    has_shape C u m = true ->
    scan_step b Continue (add_scan b1 lc m).

(** The scans of a builder: as many tuples as matrices, every tuple of
    14 counters, and every matrix of the builder's channel count and
    sample count. *)
Definition well_formed (b : TwixBuilder) : bool :=
  (length (data b) =? length (loop_counters b))%nat
  && forallb (fun lc => (length lc =? 14)%nat) (loop_counters b)
  && match data b with
     | [] => true
     | _ :: _ =>
         match num_channels b, np b with
         | Some nc, Some n => forallb (has_shape nc n) (data b)
         | _, _ => false
         end
     end.

(** [b'] continues [b]: the header and the counts that are set stay, scans
    are only appended, tuples and matrices in step. *)
Definition continues (b b' : TwixBuilder) : Prop :=
  header_params b' = header_params b
  /\ (forall n, np b = Some n -> np b' = Some n)
  /\ (forall c, num_channels b = Some c -> num_channels b' = Some c)
  /\ (exists ms lcs, data b' = data b ++ ms /\ loop_counters b' = loop_counters b ++ lcs
                     /\ length ms = length lcs)
  /\ (well_formed b = true -> well_formed b' = true).

(** The loader [load_twix] hands the file to, from the two leading
    integers. *)
Definition loader (fuel : nat) (input : list byte) : option (result TwixBuilder) :=
  if is_vd (le_Z (take 4 input)) (le_Z (take 4 (drop 4 input)))
  then load_twix_vd fuel (open_rb input) new_builder
  else load_twix_vb fuel (open_rb input) new_builder.

(** A variant A container whose only record is the end of acquisition. *)
Definition header_only_container : list byte :=
  vb_container sample_header_plain (vb_flag_record 1).

(** A variant B record of two channels: the 192-byte record header
    (the FID-start offset is the fifth of the 24 ICE parameters, the
    dummy-point count the first of the 4 reserved ones), then for each
    channel a 32-byte header and its samples. *)
Definition vd_record (num_samples fid_start_offset dummy : Z) (lc : list Z) : list byte :=
  let dma := 192 + 2 * (32 + 8 * num_samples) in
  le_bytes 4 dma ++ zero_bytes 16 ++ zero_bytes 20 ++ le_bytes 8 0
    ++ le_bytes 2 num_samples ++ le_bytes 2 2
    ++ flat_map (le_bytes 2) lc ++ zero_bytes 12 ++ zero_bytes 8 ++ zero_bytes 28
    ++ (zero_bytes 8 ++ le_bytes 2 fid_start_offset ++ zero_bytes 38)
    ++ (le_bytes 2 dummy ++ zero_bytes 6) ++ zero_bytes 8
    ++ zero_bytes 32 ++ ramp 100 (Z.to_nat num_samples)
    ++ zero_bytes 32 ++ ramp 200 (Z.to_nat num_samples).

Definition vd_two_channel_stream : list byte :=
  vd_record 8 1 1 (replicate 14 0) ++ vd_flag_record 1.

(** The 14 loop counters of the record at offset [p]: little-endian
    16-bit fields, 32 bytes into a variant A record and 52 bytes into a
    variant B record. *)
Definition loop_counters_at (v : variant) (bs : list byte) (p : Z) : list nat :=
  let off := match v with VariantA => 32 | VariantB => 52 end in
  map Z.to_nat (map le_Z (chunks 2 14 (bytes_at bs (p + off) 28))).

(** A builder that already holds a channel count and a sample count,
    as after a first data record. *)
Definition builder_with_counts (c n : nat) : TwixBuilder :=
  {| header_params := None; builder_dt := None; np := Some n; num_channels := Some c;
     data := []; loop_counters := [] |}.

(** The texts a run of pieces accepts. *)
Inductive accepts : list piece -> text -> Prop :=
| accepts_nil : accepts [] []
| accepts_one c ps a t :
    c a = true -> accepts ps t -> accepts (One c :: ps) (a :: t)
| accepts_star c ps t1 t2 :
    Forall (fun a => c a = true) t1 -> accepts ps t2 -> accepts (Star c :: ps) (t1 ++ t2)
| accepts_plus c ps a t1 t2 :
    c a = true -> Forall (fun a => c a = true) t1 -> accepts ps t2 ->
    accepts (Plus c :: ps) (a :: t1 ++ t2).

(** The digits [parse_twix_header] reads from a numeric parameter, empty
    if there are none. *)
Definition number_string (p : pattern) (h : text) : text :=
  match re_search p h with
  | Some m => match re_search re_number (group0 m) with
              | Some m' => group0 m'
              | None => []
              end
  | None => []
  end.

(** A header whose Frequency has 309 digits. *)
Definition long_frequency_header : text :=
  param_string "tProtocolName" "svs_se" ++ partial_header 3
    ++ str "<ParamLong." ++ [dq] ++ str "Frequency" ++ [dq] ++ str ">  { "
    ++ replicate 309 "9"%char ++ str "  }" ++ [nl].

(** The 256 characters, and the number of pieces of a run that accept
    the character [x] and no other. *)
Definition all_ascii : list ascii := map ascii_of_nat (seq 0 256).

Definition only_accepts (x : ascii) (c : cls) : bool :=
  c x && forallb (fun a => implb (c a) (Ascii.eqb a x)) all_ascii.

Fixpoint forced (x : ascii) (ps : list piece) : nat :=
  match ps with
  | [] => 0
  | One c :: ps' => ((if only_accepts x c then 1 else 0) + forced x ps')%nat
  | _ :: ps' => forced x ps'
  end.

(** How often a character occurs in a text. *)
Definition occurrences (x : ascii) (t : text) : nat := count_occ ascii_dec t x.

(** A header whose FrameOfReference has three fields only. *)
Definition short_frame_header : text :=
  partial_header 4 ++ param_string "FrameOfReference" "1.2.3".

(** * Properties *)

(** ** The tensor builder *)

Section Ravel.
Local Open Scope nat_scope.

Lemma ravel_fold_inj dims : forall idx1 idx2 acc1 acc2,
  in_bounds dims idx1 -> in_bounds dims idx2 ->
  fold_left (fun acc di => acc * fst di + snd di) (zip dims idx1) acc1
  = fold_left (fun acc di => acc * fst di + snd di) (zip dims idx2) acc2 ->
  acc1 = acc2 /\ idx1 = idx2.
Proof.
  induction dims as [|d dims IH]; intros idx1 idx2 acc1 acc2 H1 H2 E.
  - inversion H1; inversion H2; subst. simpl in E. auto.
  - inversion H1 as [|? i1 ? t1 Hi1 Ht1]; inversion H2 as [|? i2 ? t2 Hi2 Ht2]; subst.
    simpl in E. destruct (IH _ _ _ _ Ht1 Ht2 E) as [Ea ->].
    assert (acc1 = acc2 /\ i1 = i2) as [-> ->]; [|done].
    clear - Hi1 Hi2 Ea. simpl in Ea.
    destruct (Nat.lt_trichotomy acc1 acc2) as [L|[L|L]]; [exfalso|split; lia|exfalso].
    + assert (acc1 * d + d <= acc2 * d) by nia. lia.
    + assert (acc2 * d + d <= acc1 * d) by nia. lia.
Qed.

(** Two tuples inside the array address the same block only if they are
    the same tuple. *)
Lemma ravel_inj dims idx1 idx2 :
  in_bounds dims idx1 -> in_bounds dims idx2 ->
  ravel dims idx1 = ravel dims idx2 -> idx1 = idx2.
Proof. intros H1 H2 E. by destruct (ravel_fold_inj dims idx1 idx2 0 0 H1 H2 E). Qed.

Lemma ravel_fold_lt dims : forall idx acc,
  in_bounds dims idx ->
  fold_left (fun acc di => acc * fst di + snd di) (zip dims idx) acc
  < (acc + 1) * product dims.
Proof.
  induction dims as [|d dims IH]; intros idx acc H.
  - inversion H; subst. simpl. lia.
  - inversion H as [|? i ? t Hi Ht]; subst. simpl.
    specialize (IH t (acc * d + i) Ht). fold (product dims). nia.
Qed.

Lemma ravel_lt dims idx : in_bounds dims idx -> ravel dims idx < product dims.
Proof. intros H. pose proof (ravel_fold_lt dims idx 0 H). unfold ravel. lia. Qed.

End Ravel.

Section Scatter.
Local Open Scope nat_scope.

Lemma shape_fold_setitem W : forall a,
  shape (fold_left (fun a lm => setitem a (fst lm) (snd lm)) W a) = shape a.
Proof. induction W as [|w W IH]; intros a; simpl; [done|]. by rewrite IH. Qed.

Lemma slabs_fold_setitem W : forall a,
  slabs (fold_left (fun a lm => setitem a (fst lm) (snd lm)) W a)
  = fold_left (fun sl lm => <[ravel (take 14 (shape a)) (fst lm) := snd lm]> sl)
              W (slabs a).
Proof. induction W as [|w W IH]; intros a; simpl; [done|]. by rewrite IH. Qed.

Lemma lookup_fold_insert_other {A} (key : list nat -> nat) (W : list (list nat * A)) :
  forall (sl : list A) k,
  (forall lm, lm ∈ W -> key (fst lm) <> k) ->
  fold_left (fun sl lm => <[key (fst lm) := snd lm]> sl) W sl !! k = sl !! k.
Proof.
  induction W as [|w W IH]; intros sl k H; simpl; [done|].
  rewrite IH.
  - apply list_lookup_insert_ne. apply H. left.
  - intros lm Hlm. apply H. by right.
Qed.

(** An earlier write to a block is lost under a later write to it. *)
Lemma fold_insert_overwritten {A} (key : list nat -> nat) (W : list (list nat * A)) :
  forall (sl : list A) lc x y,
  fold_left (fun sl lm => <[key (fst lm) := snd lm]> sl) (W ++ [(lc, y)]) (<[key lc := x]> sl)
  = fold_left (fun sl lm => <[key (fst lm) := snd lm]> sl) (W ++ [(lc, y)]) sl.
Proof.
  induction W as [|[lc' z] W IH]; intros sl lc x y; simpl.
  - by rewrite list_insert_insert_eq.
  - destruct (decide (key lc = key lc')) as [E|N].
    + rewrite E. by rewrite list_insert_insert_eq.
    + rewrite list_insert_insert_ne by done. apply IH.
Qed.

Lemma fold_insert_drop_earlier {A} (key : list nat -> nat)
      (W l2 l3 : list (list nat * A)) lc x y (sl : list A) :
  fold_left (fun sl lm => <[key (fst lm) := snd lm]> sl)
            (W ++ (lc, x) :: l2 ++ (lc, y) :: l3) sl
  = fold_left (fun sl lm => <[key (fst lm) := snd lm]> sl)
              (W ++ l2 ++ (lc, y) :: l3) sl.
Proof.
  rewrite !fold_left_app. cbn [fold_left fst snd].
  replace (l2 ++ (lc, y) :: l3) with ((l2 ++ [(lc, y)]) ++ l3) by by rewrite <- app_assoc.
  rewrite !(fold_left_app _ (l2 ++ [(lc, y)]) l3).
  rewrite fold_insert_overwritten. by rewrite fold_left_app.
Qed.

Lemma list_max_elem x l : x ∈ l -> x <= list_max l.
Proof.
  intros H. pose proof (proj1 (list_max_le l (list_max l)) (le_n _)) as F.
  rewrite List.Forall_forall in F. apply F. by apply list_elem_of_In.
Qed.

(** Every submitted tuple lies inside the shape computed from the maxima. *)
Lemma submitted_in_bounds lcs lc :
  lc ∈ lcs -> length lc = 14 ->
  in_bounds (map (fun d => 1 + d) (column_max lcs)) lc.
Proof.
  intros Hin Hlen. apply Forall2_same_length_lookup. split.
  - unfold column_max. rewrite !length_map, length_seq. done.
  - intros i d x Hd Hx. rewrite list_lookup_fmap in Hd.
    unfold column_max in Hd. rewrite list_lookup_fmap in Hd.
    destruct (seq 0 14 !! i) as [j|] eqn:Hj; [|done]. simpl in Hd.
    inversion Hd; subst; clear Hd.
    apply lookup_seq in Hj as [-> _]. simpl.
    assert (x <= list_max (column i lcs)); [|lia].
    apply list_max_elem. unfold column. apply list_elem_of_fmap. exists lc. split; [|done].
    symmetry. by apply nth_lookup_Some with (d := 0) in Hx.
Qed.

Lemma zip_lookup_fst {A B} (l : list A) (k : list B) x y : (x, y) ∈ zip l k -> x ∈ l.
Proof.
  intros H. apply list_elem_of_lookup in H as [i Hi].
  apply lookup_zip_with_Some in Hi as (a & b & E & Ha & _). inversion E; subst.
  apply list_elem_of_lookup. eauto.
Qed.

Lemma scatter_shape lcs ms nc n :
  shape (scatter lcs ms nc n) = map (fun d => 1 + d) (column_max lcs) ++ [nc; n].
Proof. unfold scatter, assign. rewrite shape_fold_setitem. reflexivity. Qed.

Lemma scatter_slabs lcs ms nc n :
  let dims := map (fun d => 1 + d) (column_max lcs) in
  slabs (scatter lcs ms nc n)
  = fold_left (fun sl lm => <[ravel dims (fst lm) := snd lm]> sl) (zip lcs ms)
              (replicate (product dims) (zero_matrix nc n)).
Proof.
  intros dims. unfold scatter, assign. rewrite slabs_fold_setitem.
  unfold zero_array. cbn [shape slabs].
  fold dims. rewrite take_app_length'; [done|].
  unfold dims, column_max. by rewrite !length_map, length_seq.
Qed.

Lemma ndarray_eq (a b : ndarray) : shape a = shape b -> slabs a = slabs b -> a = b.
Proof. destruct a, b. simpl. by intros -> ->. Qed.

Lemma length_fold_insert {A} (key : list nat -> nat) (W : list (list nat * A)) :
  forall sl : list A,
  length (fold_left (fun sl lm => <[key (fst lm) := snd lm]> sl) W sl) = length sl.
Proof.
  induction W as [|w W IH]; intros sl; simpl; [done|].
  rewrite IH. apply length_insert.
Qed.

(** The block a write addresses holds what was written, as long as no
    later write addresses it. *)
Lemma fold_insert_last {A} (key : list nat -> nat) (W1 W2 : list (list nat * A))
      lc y (sl : list A) :
  key lc < length sl ->
  (forall lm, lm ∈ W2 -> key (fst lm) <> key lc) ->
  fold_left (fun sl lm => <[key (fst lm) := snd lm]> sl) (W1 ++ (lc, y) :: W2) sl !! key lc
  = Some y.
Proof.
  intros Hlt Hne. rewrite fold_left_app. cbn [fold_left fst snd].
  rewrite lookup_fold_insert_other by done.
  apply list_lookup_insert_eq. by rewrite length_fold_insert.
Qed.

(** In the array before squeezing, the block at a submitted tuple holds
    the matrix of the last submission at that tuple. *)
Lemma scatter_last_write lcs ms W1 W2 lc m nc n :
  zip lcs ms = W1 ++ (lc, m) :: W2 ->
  Forall (fun l => length l = 14) lcs ->
  lc ∉ map fst W2 ->
  getitem (scatter lcs ms nc n) lc = Some m.
Proof.
  intros Hz H14 Hlast. unfold getitem.
  rewrite scatter_shape, scatter_slabs. cbv zeta.
  set (dims := map (fun d => 1 + d) (column_max lcs)).
  assert (Hlen : length dims = 14).
  { unfold dims, column_max. by rewrite !length_map, length_seq. }
  rewrite take_app_length' by done.
  assert (Hin : forall l x, (l, x) ∈ zip lcs ms -> in_bounds dims l).
  { intros l x Hl. assert (l ∈ lcs) by by eapply zip_lookup_fst.
    apply submitted_in_bounds; [done|].
    rewrite List.Forall_forall in H14. apply H14. by apply list_elem_of_In. }
  assert (Hlc : in_bounds dims lc).
  { apply (Hin lc m). rewrite Hz. apply elem_of_app. right. left. }
  rewrite Hz. apply (fold_insert_last (ravel dims)).
  - rewrite length_replicate. by apply ravel_lt.
  - intros [l x] Hl E. cbn [fst] in E. apply Hlast.
    assert (l = lc) as <-.
    { apply (ravel_inj dims); [|done|done].
      apply (Hin l x). rewrite Hz. apply elem_of_app. right. by right. }
    apply list_elem_of_fmap. by exists (l, x).
Qed.

(** What a result of [build_mrsdata] tells about the builder. *)
Lemma build_mrsdata_ok b r :
  build_mrsdata b = Ok r ->
  exists nc n hp,
    num_channels b = Some nc /\ np b = Some n /\ header_params b = Some hp
    /\ loop_counters b <> []
    /\ forallb (fun lc => length lc =? 14) (loop_counters b) = true
    /\ too_big (map (fun d => 1 + d) (column_max (loop_counters b)) ++ [nc; n]) = false
    /\ length (loop_counters b) <= length (data b)
    /\ forallb (has_shape nc n) (data b) = true
    /\ r = {| mrs_data := squeeze (scatter (loop_counters b) (data b) nc n);
              mrs_dt := dt hp;
              mrs_f0 := f0 hp;
              mrs_metadata :=
                {| md_patient_name := patient_name hp;
                   md_patient_id := patient_id hp;
                   md_patient_birthdate := patient_birthdate hp |} |}.
Proof.
  unfold build_mrsdata, zeros.
  destruct (loop_counters b) as [|lc lcs] eqn:El; [discriminate|].
  destruct (num_channels b) as [nc|]; [|discriminate].
  destruct (np b) as [n|]; [|discriminate].
  destruct (forallb _ (lc :: lcs)) eqn:E14; [|discriminate].
  destruct (too_big _) eqn:Eb; [discriminate|]. cbn [bind].
  destruct (_ <? _) eqn:Elt; [discriminate|].
  destruct (forallb (has_shape nc n) (data b)) eqn:Es; [|discriminate].
  destruct (header_params b) as [hp|]; [|discriminate].
  cbn [of_option bind]. intros [= <-]. exists nc, n, hp.
  apply Nat.ltb_ge in Elt. repeat (split; [done|]). reflexivity.
Qed.

(** C3 as amended.  For a non-empty accumulated scan set
    (tuples of 14 counters, matrices of [nc] channels by [n] samples) the
    array asked of numpy has, in loop dimension [i], one plus the largest
    counter [i] submitted as its extent, followed by the channel count
    and the sample count.  numpy refuses an array of more than [2^63 - 1]
    bytes, and [build_mrsdata] then raises ValueError.  When numpy grants
    the array, [build_mrsdata] returns the squeezed form of an array
    [full] of that shape in which every block whose index tuple was not
    submitted is zero; squeezing drops exactly the dimensions of extent
    one, in order, and keeps the data. *)
Theorem build_mrsdata_tensor (b : TwixBuilder) (nc n : nat) (hp : header_params_t) :
  loop_counters b <> [] ->
  Forall (fun lc => length lc = 14) (loop_counters b) ->
  length (data b) = length (loop_counters b) ->
  Forall (fun m => has_shape nc n m = true) (data b) ->
  num_channels b = Some nc -> np b = Some n -> header_params b = Some hp ->
  let full := scatter (loop_counters b) (data b) nc n in
  let loop_dims := map (fun i => 1 + list_max (column i (loop_counters b))) (seq 0 14) in
  (too_big (loop_dims ++ [nc; n]) = true -> build_mrsdata b = Raise ValueError) /\
  (forall zeroed, zeros loop_dims nc n = Ok zeroed ->
     exists r, build_mrsdata b = Ok r /\ mrs_data r = squeeze full) /\
  (forall r, build_mrsdata b = Ok r ->
     zeros loop_dims nc n = Ok (zero_array loop_dims nc n) /\ mrs_data r = squeeze full) /\
  shape full = loop_dims ++ [nc; n] /\
  (forall idx, in_bounds loop_dims idx -> idx ∉ loop_counters b ->
     getitem full idx = Some (zero_matrix nc n)) /\
  shape (squeeze full) = filter (fun d => d <> 1) (loop_dims ++ [nc; n]) /\
  slabs (squeeze full) = slabs full.
Proof.
  intros Hne H14 Hlen Hshape Hnc Hnp Hhp full loop_dims.
  assert (Hdims : map (fun d => 1 + d) (column_max (loop_counters b)) = loop_dims).
  { unfold loop_dims, column_max. by rewrite map_map. }
  assert (Hfull : shape full = loop_dims ++ [nc; n]).
  { unfold full. by rewrite scatter_shape, Hdims. }
  assert (Hbuild : build_mrsdata b
                   = (zeroed <- zeros loop_dims nc n ;;
                      Ok {| mrs_data := squeeze (assign (loop_counters b) (data b) zeroed);
                            mrs_dt := dt hp;
                            mrs_f0 := f0 hp;
                            mrs_metadata :=
                              {| md_patient_name := patient_name hp;
                                 md_patient_id := patient_id hp;
                                 md_patient_birthdate := patient_birthdate hp |} |})).
  { unfold build_mrsdata.
    destruct (loop_counters b) as [|lc lcs] eqn:E; [done|].
    rewrite Hnc, Hnp, Hlen. rewrite (proj2 (Nat.ltb_ge _ _)) by lia.
    assert (forallb (fun lc => length lc =? 14) (lc :: lcs) = true) as ->.
    { apply forallb_forall. rewrite List.Forall_forall in H14. intros x Hx.
      apply Nat.eqb_eq. by apply H14. }
    assert (forallb (has_shape nc n) (data b) = true) as ->.
    { apply forallb_forall. rewrite List.Forall_forall in Hshape. done. }
    rewrite Hhp. cbv zeta. rewrite Hdims. reflexivity. }
  assert (Hzeros : forall zeroed, zeros loop_dims nc n = Ok zeroed ->
                     zeroed = zero_array loop_dims nc n).
  { unfold zeros. intros zeroed. destruct (too_big _); [discriminate|]. by intros [= <-]. }
  assert (Hscatter : full = assign (loop_counters b) (data b) (zero_array loop_dims nc n)).
  { unfold full, scatter. cbv zeta. by rewrite Hdims. }
  split; [|split; [|split; [|split; [done|split; [|split]]]]].
  - intros Hbig. rewrite Hbuild. unfold zeros. by rewrite Hbig.
  - intros zeroed Hz. rewrite Hbuild, Hz. cbn [bind]. eexists. split; [reflexivity|].
    cbn [mrs_data]. by rewrite (Hzeros _ Hz), Hscatter.
  - intros r Hr. rewrite Hbuild in Hr.
    destruct (zeros loop_dims nc n) as [zeroed| |] eqn:Hz; [|discriminate..].
    cbn [bind] in Hr. injection Hr as <-. cbn [mrs_data].
    rewrite (Hzeros _ eq_refl), Hscatter. done.
  - intros idx Hidx Hnot. unfold getitem. rewrite Hfull.
    assert (Hl : length loop_dims = 14).
    { unfold loop_dims. by rewrite length_map, length_seq. }
    rewrite take_app_length' by done.
    unfold full. rewrite scatter_slabs. cbv zeta. rewrite Hdims.
    rewrite (lookup_fold_insert_other (ravel loop_dims)).
    + apply lookup_replicate_2. by apply ravel_lt.
    + intros [lc m] Hlm E. simpl in E. apply Hnot.
      assert (lc ∈ loop_counters b) as Hin by by eapply zip_lookup_fst.
      assert (lc = idx) as <-; [|done].
      apply (ravel_inj loop_dims); [|done|done].
      rewrite <- Hdims. apply submitted_in_bounds; [done|].
      rewrite List.Forall_forall in H14. apply H14. by apply list_elem_of_In.
  - unfold squeeze. simpl. by rewrite Hfull.
  - done.
Qed.

End Scatter.

Section Submit.
Local Open Scope nat_scope.

Lemma submit_fields l : forall b,
  header_params (submit b l) = header_params b /\
  np (submit b l) = np b /\
  num_channels (submit b l) = num_channels b /\
  loop_counters (submit b l) = loop_counters b ++ map fst l /\
  data (submit b l) = data b ++ map snd l.
Proof.
  induction l as [|[lc m] l IH]; intros b.
  - simpl. by rewrite !app_nil_r.
  - simpl. destruct (IH (add_scan b lc m)) as (-> & -> & -> & -> & ->).
    simpl. by rewrite <- !app_assoc.
Qed.

Lemma zip_fst_snd {A B} (l : list (A * B)) : zip (map fst l) (map snd l) = l.
Proof. induction l as [|[a b] l IH]; simpl; [done|]. by rewrite IH. Qed.

Lemma zip_submitted (lcs : list (list nat)) (ms : list matrix) l :
  length ms = length lcs ->
  zip (lcs ++ map fst l) (ms ++ map snd l) = zip lcs ms ++ l.
Proof.
  intros H. rewrite zip_with_app by done. by rewrite zip_fst_snd.
Qed.

Lemma column_max_drop_earlier (X Y Z : list (list nat)) lc :
  column_max (X ++ lc :: Y ++ lc :: Z) = column_max (X ++ Y ++ lc :: Z).
Proof.
  unfold column_max. apply map_ext. intros i. unfold column.
  rewrite !map_app, !map_cons, !map_app, !map_cons.
  rewrite !list_max_app. simpl. rewrite !list_max_app. simpl. lia.
Qed.

Lemma forallb_drop_earlier {A} (f : A -> bool) (X Y Z : list A) x y :
  f x = f y ->
  forallb f (X ++ x :: Y ++ y :: Z) = forallb f (X ++ Y ++ y :: Z).
Proof.
  intros E. rewrite !forallb_app. simpl. rewrite !forallb_app. simpl. rewrite E.
  destruct (forallb f X), (f y), (forallb f Y), (forallb f Z); done.
Qed.

Lemma assign_drop_earlier lcs ms l1 l2 l3 lc m1 m2 a :
  length ms = length lcs ->
  assign (lcs ++ map fst (l1 ++ (lc, m1) :: l2 ++ (lc, m2) :: l3))
         (ms ++ map snd (l1 ++ (lc, m1) :: l2 ++ (lc, m2) :: l3)) a
  = assign (lcs ++ map fst (l1 ++ l2 ++ (lc, m2) :: l3))
           (ms ++ map snd (l1 ++ l2 ++ (lc, m2) :: l3)) a.
Proof.
  intros Hlen. unfold assign. apply ndarray_eq.
  - by rewrite !shape_fold_setitem.
  - rewrite !slabs_fold_setitem.
    rewrite !zip_submitted by done.
    rewrite !(app_assoc (zip lcs ms) l1).
    apply (fold_insert_drop_earlier (ravel _)).
Qed.

Lemma build_drop_earlier (b : TwixBuilder) l1 l2 l3 lc m1 m2 :
  length (data b) = length (loop_counters b) ->
  (forall nc n, has_shape nc n m1 = has_shape nc n m2) ->
  build_mrsdata (submit b (l1 ++ (lc, m1) :: l2 ++ (lc, m2) :: l3))
  = build_mrsdata (submit b (l1 ++ l2 ++ (lc, m2) :: l3)).
Proof.
  intros Hlen Hsh. unfold build_mrsdata.
  destruct (submit_fields (l1 ++ (lc, m1) :: l2 ++ (lc, m2) :: l3) b) as (-> & -> & -> & -> & ->).
  destruct (submit_fields (l1 ++ l2 ++ (lc, m2) :: l3) b) as (-> & -> & -> & -> & ->).
  rewrite !length_app, !length_map, Hlen.
  rewrite !(proj2 (Nat.ltb_ge _ _)) by lia.
  destruct (num_channels b) as [nc|], (np b) as [n|].
  2-4: by destruct (loop_counters b), l1, l2.
  assert (column_max (loop_counters b ++ map fst (l1 ++ (lc, m1) :: l2 ++ (lc, m2) :: l3))
          = column_max (loop_counters b ++ map fst (l1 ++ l2 ++ (lc, m2) :: l3))) as ->.
  { rewrite !map_app, !map_cons, !map_app, !map_cons. cbn [fst].
    rewrite !(app_assoc (loop_counters b)). apply column_max_drop_earlier. }
  assert (forallb (fun lc0 => length lc0 =? 14)
            (loop_counters b ++ map fst (l1 ++ (lc, m1) :: l2 ++ (lc, m2) :: l3))
          = forallb (fun lc0 => length lc0 =? 14)
              (loop_counters b ++ map fst (l1 ++ l2 ++ (lc, m2) :: l3))) as ->.
  { rewrite !map_app, !map_cons, !map_app, !map_cons. cbn [fst].
    rewrite !(app_assoc (loop_counters b)). by apply forallb_drop_earlier. }
  assert (forallb (has_shape nc n)
            (data b ++ map snd (l1 ++ (lc, m1) :: l2 ++ (lc, m2) :: l3))
          = forallb (has_shape nc n)
              (data b ++ map snd (l1 ++ l2 ++ (lc, m2) :: l3))) as ->.
  { rewrite !map_app, !map_cons, !map_app, !map_cons. cbn [snd].
    rewrite !(app_assoc (data b)). by apply forallb_drop_earlier. }
  cbv zeta.
  destruct (zeros _ nc n) as [zeroed| |]; cbn [bind].
  - rewrite assign_drop_earlier by done. by destruct (loop_counters b), l1, l2.
  - by destruct (loop_counters b), l1, l2.
  - by destruct (loop_counters b), l1, l2.
Qed.

(** C7.  Scatter is idempotent and the last write wins.  In any sequence
    of submissions, submitting a pair a second time gives the same result
    of [build_mrsdata] as submitting it once (at the place of the later
    submission).  More generally, of two submissions at one loop-index
    tuple (with matrices of one shape) the earlier one can be dropped
    without changing the result; and when no submission at that tuple
    follows the later one, the tensor [build_mrsdata] returns is the
    squeezed form of an array whose block at the tuple is the matrix of
    the later submission. *)
Theorem scatter_idempotent_last_write_wins (b : TwixBuilder) l1 l2 l3 lc m m' :
  length (data b) = length (loop_counters b) ->
  let twice := submit b (l1 ++ (lc, m) :: l2 ++ (lc, m) :: l3) in
  let once := submit b (l1 ++ l2 ++ (lc, m) :: l3) in
  let both := submit b (l1 ++ (lc, m') :: l2 ++ (lc, m) :: l3) in
  build_mrsdata twice = build_mrsdata once
  /\ ((forall nc n, has_shape nc n m' = has_shape nc n m) ->
      build_mrsdata both = build_mrsdata once)
  /\ (forall r nc n,
        build_mrsdata both = Ok r ->
        num_channels b = Some nc -> np b = Some n ->
        lc ∉ map fst l3 ->
        mrs_data r = squeeze (scatter (loop_counters both) (data both) nc n)
        /\ getitem (scatter (loop_counters both) (data both) nc n) lc = Some m).
Proof.
  intros Hlen twice once both. split; [|split].
  - by apply build_drop_earlier.
  - intros Hsh. by apply build_drop_earlier.
  - intros r nc n Hr Hnc Hnp Hlast.
    destruct (build_mrsdata_ok _ _ Hr)
      as (nc' & n' & hp & Hnc' & Hnp' & _ & _ & H14 & _ & _ & _ & ->).
    unfold both in Hnc', Hnp'.
    destruct (submit_fields (l1 ++ (lc, m') :: l2 ++ (lc, m) :: l3) b)
      as (_ & Enp & Enc & Elc & Ed).
    rewrite Enc, Hnc in Hnc'. rewrite Enp, Hnp in Hnp'.
    injection Hnc' as <-. injection Hnp' as <-. split; [done|].
    apply (scatter_last_write _ _ (zip (loop_counters b) (data b) ++ l1 ++ (lc, m') :: l2) l3).
    + unfold both. rewrite Elc, Ed. rewrite zip_submitted by done.
      by rewrite <- !app_assoc.
    + apply Forall_forall. intros l Hl. apply Nat.eqb_eq.
      rewrite forallb_forall in H14. apply H14. by apply list_elem_of_In.
    + done.
Qed.

End Submit.

Lemma build_mrsdata_tensor_witness :
  too_big (map (fun i => (1 + list_max (column i (loop_counters two_more_scans)))%nat)
               (seq 0 14) ++ [2; 2]%nat) = false
  /\ exists r, build_mrsdata two_more_scans = Ok r
               /\ mrs_data r
                  = squeeze (scatter (loop_counters two_more_scans) (data two_more_scans) 2 2).
Proof.
  split; [reflexivity|].
  destruct (build_mrsdata_tensor two_more_scans 2 2 sample_params) as (_ & H & _).
  - discriminate.
  - repeat constructor.
  - reflexivity.
  - repeat constructor.
  - reflexivity.
  - reflexivity.
  - reflexivity.
  - exact (H _ eq_refl).
Defined.

(** C3, counterexample.  One scan whose 14 loop counters all have the
    largest value a record can hold (65535): the scan set is not empty
    and well formed, the tensor of the claim would have 65536 blocks in
    each of the 14 loop dimensions, that is [2^230] bytes, and
    [build_mrsdata] raises ValueError instead of allocating it; so does
    [load_twix] on a file with this one record. *)
Lemma oversized_tensor_is_refused :
  load_twix 2 largest_counters_container = Some (Raise ValueError)
  /\ loop_counters largest_counters <> []
  /\ Forall (fun lc => length lc = 14%nat) (loop_counters largest_counters)
  /\ length (data largest_counters) = length (loop_counters largest_counters)
  /\ Forall (fun m => has_shape 2 2 m = true) (data largest_counters)
  /\ num_channels largest_counters = Some 2%nat /\ np largest_counters = Some 2%nat
  /\ header_params largest_counters = Some sample_params
  /\ nbytes (map (fun d => (1 + d)%nat) (column_max (loop_counters largest_counters))
             ++ [2; 2]%nat) = 2 ^ 230
  /\ build_mrsdata largest_counters = Raise ValueError.
Proof.
  split; [vm_compute; reflexivity|].
  split; [discriminate|]. split; [repeat constructor|]. split; [reflexivity|].
  split; [repeat constructor|]. do 3 (split; [reflexivity|]).
  split; vm_compute; reflexivity.
Qed.

Lemma scatter_idempotent_witness :
  let once := submit sample_builder [(index_b, const_matrix 3); (index_a, const_matrix 2)] in
  let both := submit sample_builder
                [(index_a, const_matrix 5); (index_b, const_matrix 3); (index_a, const_matrix 2)] in
  build_mrsdata both = build_mrsdata once
  /\ exists r, build_mrsdata both = Ok r
       /\ mrs_data r = squeeze (scatter (loop_counters both) (data both) 2 2)
       /\ getitem (scatter (loop_counters both) (data both) 2 2) index_a
          = Some (const_matrix 2).
Proof.
  destruct (scatter_idempotent_last_write_wins sample_builder []
              [(index_b, const_matrix 3)] [] index_a (const_matrix 2) (const_matrix 5))
    as (_ & H2 & H3).
  - reflexivity.
  - split.
    + apply H2. reflexivity.
    + eexists. split; [vm_compute; reflexivity|].
      apply H3; [vm_compute; reflexivity|reflexivity|reflexivity|].
      intros H. inversion H.
Defined.

(** ** The scan-record decoders *)

Section Readers.

Lemma read_spec n f :
  0 <= n ->
  read n f = Ok (bytes_at (content f) (pos f) (Z.to_nat n),
                 at_pos f (pos f + Z.of_nat (length (bytes_at (content f) (pos f) (Z.to_nat n))))).
Proof.
  intros Hn. unfold read, bytes_at, at_pos.
  destruct (n <? -1) eqn:E1; [lia|]. destruct (n =? -1) eqn:E2; [lia|]. done.
Qed.

Lemma bind_read_uint n {A} (k : Z -> reader A) f :
  0 <= n ->
  (bs <~ read n ;; v <~ lift (unpack_uint (Z.to_nat n) bs) ;; k v) f
  = if (length (bytes_at (content f) (pos f) (Z.to_nat n)) =? Z.to_nat n)%nat
    then k (le_Z (bytes_at (content f) (pos f) (Z.to_nat n))) (at_pos f (pos f + n))
    else Raise StructError.
Proof.
  intros Hn. unfold rbind at 1. rewrite read_spec by done.
  unfold rbind, lift, unpack_uint.
  destruct (_ =? _)%nat eqn:E; [|done].
  apply Nat.eqb_eq in E. rewrite E. by rewrite Z2Nat.id.
Qed.

Lemma bind_read_uints n w c {A} (k : list Z -> reader A) f :
  0 <= n -> Z.to_nat n = (c * w)%nat ->
  (bs <~ read n ;; v <~ lift (unpack_uints w c bs) ;; k v) f
  = if (length (bytes_at (content f) (pos f) (Z.to_nat n)) =? Z.to_nat n)%nat
    then k (map le_Z (chunks w c (bytes_at (content f) (pos f) (Z.to_nat n))))
           (at_pos f (pos f + n))
    else Raise StructError.
Proof.
  intros Hn Hw. unfold rbind at 1. rewrite read_spec by done.
  unfold rbind, lift, unpack_uints. rewrite <- Hw.
  destruct (_ =? _)%nat eqn:E; [|done].
  apply Nat.eqb_eq in E. rewrite E. by rewrite Z2Nat.id.
Qed.

Lemma bind_read_unused n {A} (k : reader A) f :
  0 <= n ->
  (bs <~ read n ;; _ <~ lift (unpack_unused (Z.to_nat n) bs) ;; k) f
  = if (length (bytes_at (content f) (pos f) (Z.to_nat n)) =? Z.to_nat n)%nat
    then k (at_pos f (pos f + n))
    else Raise StructError.
Proof.
  intros Hn. unfold rbind at 1. rewrite read_spec by done.
  unfold rbind, lift, unpack_unused.
  destruct (_ =? _)%nat eqn:E; [|done].
  apply Nat.eqb_eq in E. rewrite E. by rewrite Z2Nat.id.
Qed.

Lemma length_bytes_at bs off n :
  0 <= off -> off + Z.of_nat n <= Z.of_nat (length bs) ->
  length (bytes_at bs off n) = n.
Proof.
  intros H0 H. unfold bytes_at. rewrite length_take, length_drop. lia.
Qed.

Lemma length_bytes_at_inv bs off n :
  0 <= off -> (0 < n)%nat -> length (bytes_at bs off n) = n ->
  off + Z.of_nat n <= Z.of_nat (length bs).
Proof.
  intros H0 Hn. unfold bytes_at. rewrite length_take, length_drop. lia.
Qed.

End Readers.

Section Flags.

Lemma land_1_odd x : Z.land x 1 = Z.b2z (Z.odd x).
Proof.
  change 1 with (Z.ones 1). rewrite Z.land_ones by lia.
  rewrite <- Z.bit0_odd. by rewrite Z.bit0_mod.
Qed.

Lemma truthy_land_1 mask : truthy (Z.land mask 1) = Z.testbit mask 0.
Proof. rewrite land_1_odd, Z.bit0_odd. unfold truthy. by destruct (Z.odd mask). Qed.

Lemma truthy_flag mask i : 0 <= i -> truthy (flag mask i) = Z.testbit mask i.
Proof.
  intros Hi. unfold flag. rewrite truthy_land_1. rewrite Z.shiftr_spec by lia.
  by rewrite Z.add_0_l.
Qed.

Lemma dma_length_low_bits temp : Z.land temp (2 ^ 26 - 1) = temp mod 2 ^ 26.
Proof. change (2 ^ 26 - 1) with (Z.ones 26). apply Z.land_ones. lia. Qed.

End Flags.

Section ScanHead.

Lemma bind_tell {A} (k : Z -> reader A) f : (p <~ tell ;; k p) f = k (pos f) f.
Proof. reflexivity. Qed.

Lemma bind_seek {A} (k : reader A) p f :
  0 <= p < 2 ^ 63 -> (_ <~ seek p ;; k) f = k (at_pos f p).
Proof.
  intros H. unfold rbind, seek.
  destruct (p <? 0) eqn:E1; [lia|]. destruct (2 ^ 63 <=? p) eqn:E2; [lia|]. done.
Qed.

Ltac forward_read n :=
  first [ rewrite (bind_read_uint n) by lia
        | rewrite (bind_read_unused n) by lia ];
  cbn [at_pos content pos];
  let m := eval compute in (Z.to_nat n) in change (Z.to_nat n) with m;
  rewrite length_bytes_at by lia;
  rewrite Nat.eqb_refl.

Lemma scan_vb_head (b : TwixBuilder) (f : file) :
  0 <= pos f -> pos f + 28 <= Z.of_nat (length (content f)) ->
  pos f + 2 ^ 26 < 2 ^ 63 ->
  let temp := le_Z (bytes_at (content f) (pos f) 4) in
  let mask := le_Z (bytes_at (content f) (pos f + 20) 8) in
  (Z.testbit mask 0 = true -> scan_vb b f = Ok (Break, b, at_pos f (pos f + 28))) /\
  (Z.testbit mask 0 = false -> skip_flags mask = true ->
   scan_vb b f = Ok (Continue, b, at_pos f (pos f + temp mod 2 ^ 26))).
Proof.
  intros H0 Hlen Hmax temp mask.
  assert (Hscan : scan_vb b f
    = if Z.testbit mask 0 then Ok (Break, b, at_pos f (pos f + 28))
      else if skip_flags mask
           then Ok (Continue, b, at_pos f (pos f + temp mod 2 ^ 26))
           else scan_vb b f).
  { destruct (Z.testbit mask 0) eqn:E0; [|destruct (skip_flags mask) eqn:Es; [|done]].
    - unfold scan_vb. rewrite bind_tell.
      forward_read 4. forward_read 16. forward_read 8.
      replace (pos f + 4 + 16) with (pos f + 20) by lia. fold mask.
      rewrite truthy_land_1, E0. unfold ret. f_equal. f_equal. f_equal. lia.
    - unfold scan_vb. rewrite bind_tell.
      forward_read 4. forward_read 16. forward_read 8.
      replace (pos f + 4 + 16) with (pos f + 20) by lia. fold mask.
      rewrite truthy_land_1, E0. rewrite !truthy_flag by lia.
      unfold skip_flags in Es. rewrite Es.
      fold temp.
      rewrite dma_length_low_bits.
      pose proof (Z.mod_pos_bound temp (2 ^ 26) ltac:(lia)).
      rewrite bind_seek by lia. reflexivity. }
  split.
  - intros E. by rewrite Hscan, E.
  - intros E Es. by rewrite Hscan, E, Es.
Qed.

Lemma scan_vd_head (b : TwixBuilder) (f : file) :
  0 <= pos f -> pos f + 48 <= Z.of_nat (length (content f)) ->
  pos f + 2 ^ 26 < 2 ^ 63 ->
  let temp := le_Z (bytes_at (content f) (pos f) 4) in
  let mask := le_Z (bytes_at (content f) (pos f + 40) 8) in
  (Z.testbit mask 0 = true -> scan_vd b f = Ok (Break, b, at_pos f (pos f + 48))) /\
  (Z.testbit mask 0 = false -> skip_flags mask = true ->
   scan_vd b f = Ok (Continue, b, at_pos f (pos f + temp mod 2 ^ 26))).
Proof.
  intros H0 Hlen Hmax temp mask.
  assert (Hscan : scan_vd b f
    = if Z.testbit mask 0 then Ok (Break, b, at_pos f (pos f + 48))
      else if skip_flags mask
           then Ok (Continue, b, at_pos f (pos f + temp mod 2 ^ 26))
           else scan_vd b f).
  { destruct (Z.testbit mask 0) eqn:E0; [|destruct (skip_flags mask) eqn:Es; [|done]].
    - unfold scan_vd. rewrite bind_tell.
      forward_read 4. forward_read 16. forward_read 20. forward_read 8.
      replace (pos f + 4 + 16 + 20) with (pos f + 40) by lia. fold mask.
      rewrite truthy_land_1, E0. unfold ret. f_equal. f_equal. f_equal. lia.
    - unfold scan_vd. rewrite bind_tell.
      forward_read 4. forward_read 16. forward_read 20. forward_read 8.
      replace (pos f + 4 + 16 + 20) with (pos f + 40) by lia. fold mask.
      rewrite truthy_land_1, E0. rewrite !truthy_flag by lia.
      unfold skip_flags in Es. rewrite Es.
      fold temp.
      rewrite dma_length_low_bits.
      pose proof (Z.mod_pos_bound temp (2 ^ 26) ltac:(lia)).
      rewrite bind_seek by lia. reflexivity. }
  split.
  - intros E. by rewrite Hscan, E.
  - intros E Es. by rewrite Hscan, E, Es.
Qed.

(** C4.  For a record of either variant whose leading fields are in the
    file (the composite word at the record's start, the flag word at
    offset 20 or 40): if flag bit 0 is set the turn breaks the loop, so
    decoding terminates with the builder as it was; otherwise, if one of
    bits 1, 2, 5, 21, 25 is set, the turn adds no scan and leaves the
    stream at the record's start plus the low 26 bits of the composite
    word. *)
Theorem scan_flag_control (v : variant) (b : TwixBuilder) (f : file) :
  0 <= pos f ->
  pos f + flag_word_offset v + 8 <= Z.of_nat (length (content f)) ->
  pos f + 2 ^ 26 < 2 ^ 63 ->
  let temp := le_Z (bytes_at (content f) (pos f) 4) in
  let mask := le_Z (bytes_at (content f) (pos f + flag_word_offset v) 8) in
  (Z.testbit mask 0 = true ->
     (exists f', scan_of v b f = Ok (Break, b, f')) /\
     forall fuel, scan_loop (scan_of v) (S fuel) b f = Some (Ok b)) /\
  (Z.testbit mask 0 = false ->
   Z.testbit mask 1 || Z.testbit mask 2 || Z.testbit mask 5
   || Z.testbit mask 21 || Z.testbit mask 25 = true ->
     scan_of v b f = Ok (Continue, b, at_pos f (pos f + temp mod 2 ^ 26))
     /\ temp mod 2 ^ 26 = Z.land temp (Z.ones 26)).
Proof.
  intros H0 Hlen Hmax temp mask.
  assert (Hskip : Z.testbit mask 1 || Z.testbit mask 2 || Z.testbit mask 5
                  || Z.testbit mask 21 || Z.testbit mask 25 = skip_flags mask).
  { unfold skip_flags.
    destruct (Z.testbit mask 1), (Z.testbit mask 2), (Z.testbit mask 5),
      (Z.testbit mask 21), (Z.testbit mask 25); reflexivity. }
  rewrite Hskip.
  destruct v; cbn [flag_word_offset scan_of] in *.
  - destruct (scan_vb_head b f H0 ltac:(lia) Hmax) as [HB HC]. split.
    + intros E. specialize (HB E). split; [eauto|].
      intros fuel. cbn [scan_loop]. by rewrite HB.
    + intros E Es. split; [by apply HC|]. symmetry. apply Z.land_ones. lia.
  - destruct (scan_vd_head b f H0 ltac:(lia) Hmax) as [HB HC]. split.
    + intros E. specialize (HB E). split; [eauto|].
      intros fuel. cbn [scan_loop]. by rewrite HB.
    + intros E Es. split; [by apply HC|]. symmetry. apply Z.land_ones. lia.
Qed.

End ScanHead.

Lemma scan_flag_control_witness :
  scan_loop scan_vb 1 sample_builder (open_rb (vb_flag_record 1)) = Some (Ok sample_builder)
  /\ scan_vd sample_builder (open_rb (vd_flag_record (2 ^ 21)))
     = Ok (Continue, sample_builder, at_pos (open_rb (vd_flag_record (2 ^ 21))) 192).
Proof.
  split.
  - destruct (scan_flag_control VariantA sample_builder (open_rb (vb_flag_record 1)))
      as [HB _].
    + simpl; lia.
    + vm_compute; discriminate.
    + simpl; lia.
    + destruct (HB eq_refl) as [_ H]. exact (H 0%nat).
  - destruct (scan_flag_control VariantB sample_builder (open_rb (vd_flag_record (2 ^ 21))))
      as [_ HC].
    + simpl; lia.
    + vm_compute; discriminate.
    + simpl; lia.
    + destruct (HC eq_refl eq_refl) as [H _]. exact H.
Defined.

(** ** Anonymizing a variant B file *)

Section AnonymizeVd.

(** A file of variant B is accepted without error and the output file is
    left empty. *)
Lemma anonymize_vd_silent :
  is_vd (le_Z (take 4 vd_file)) (le_Z (take 4 (drop 4 vd_file))) = true
  /\ is_error (outcome (anonymize_twix vd_file)) = false
  /\ output_file (anonymize_twix vd_file) = Some [].
Proof. vm_compute. auto. Qed.

Lemma chunks_4_2 (bs : list byte) :
  map le_Z (chunks 4 2 bs) = [le_Z (take 4 bs); le_Z (take 4 (drop 4 bs))].
Proof. reflexivity. Qed.

(** C9 as amended.  Anonymizing a container whose two leading integers
    select variant B raises nothing: the output file is created and left
    empty, whatever the input holds. *)
Theorem anonymize_twix_vd_empty_output (input : list byte) :
  (8 <= length input)%nat ->
  is_vd (le_Z (take 4 input)) (le_Z (take 4 (drop 4 input))) = true ->
  anonymize_twix input = {| outcome := Ok tt; output_file := Some [] |}.
Proof.
  intros Hlen Hvd. unfold anonymize_twix.
  unfold rbind at 1. rewrite read_spec by lia.
  cbn [open_rb content pos]. change (Z.to_nat 8) with 8%nat.
  unfold lift, unpack_uints.
  rewrite length_bytes_at by lia. cbn [Nat.mul Nat.add Nat.eqb].
  rewrite chunks_4_2.
  unfold bytes_at. cbn [Z.to_nat drop nth at_pos seek pos content Z.ltb Z.leb Z.compare].
  rewrite take_take, (skipn_firstn_comm 4 8).
  rewrite take_take. cbn [Nat.min Nat.sub].
  change (Z.to_nat 0) with 0%nat. rewrite !drop_0. rewrite Hvd. reflexivity.
Qed.

Lemma anonymize_twix_vd_empty_output_witness :
  anonymize_twix vd_file = {| outcome := Ok tt; output_file := Some [] |}.
Proof.
  apply anonymize_twix_vd_empty_output.
  - apply Nat.leb_le. reflexivity.
  - reflexivity.
Defined.

End AnonymizeVd.


(** ** The patient name in the parsed header *)

Section PatientName.

Lemma re_escape_plain t :
  forallb (fun c => negb (is_special c)) t = true -> re_escape t = t.
Proof.
  induction t as [|c t IH]; [done|]. cbn [forallb]. intros H.
  apply andb_true_iff in H as [Hc Ht]. unfold re_escape. cbn [flat_map].
  destruct (is_special c); [done|]. cbn [app]. f_equal. by apply IH.
Qed.

Lemma parse_twix_header_name h p :
  parse_twix_header h = Ok p ->
  exists m, re_search re_patient_name_value h = Some m
            /\ patient_name p = re_escape (group m 2).
Proof.
  unfold parse_twix_header, bind, found, index, of_option. intros H.
  repeat match type of H with
         | context [match re_search ?q ?s with _ => _ end] =>
             destruct (re_search q s) eqn:?; [|discriminate]
         | context [match ?l !! ?i with _ => _ end] =>
             destruct (l !! i) eqn:?; [|discriminate]
         | context [match parse_int ?t with _ => _ end] =>
             destruct (parse_int t) eqn:?; [|discriminate..]
         | context [match int_times_float ?v ?x with _ => _ end] =>
             destruct (int_times_float v x) eqn:?; [|discriminate..]
         end.
  inversion H; subst; clear H. cbn [patient_name]. eauto.
Qed.

Lemma build_mrsdata_metadata b r :
  build_mrsdata b = Ok r ->
  exists p, header_params b = Some p
            /\ md_patient_name (mrs_metadata r) = patient_name p.
Proof.
  intros H.
  destruct (build_mrsdata_ok _ _ H) as (nc & n & p & _ & _ & Hp & _ & _ & _ & _ & _ & ->).
  cbn. eauto.
Qed.

(** C10.  The parser returns the patient name regex-escaped: it equals
    the text of the PatientName field when no character of that text is
    special for [re.escape]; for a name with a period it has a backslash
    the field has not; and [build_mrsdata] (so [load_twix]) passes the
    escaped value on in the metadata. *)
Theorem patient_name_is_regex_escaped :
  (forall h p m,
     parse_twix_header h = Ok p ->
     re_search re_patient_name_value h = Some m ->
     forallb (fun c => negb (is_special c)) (group m 2) = true ->
     patient_name p = group m 2)
  /\ (exists h p m,
        parse_twix_header h = Ok p
        /\ re_search re_patient_name_value h = Some m
        /\ In "."%char (group m 2)
        /\ ~ In bsl (group m 2)
        /\ In bsl (patient_name p)
        /\ patient_name p <> group m 2)
  /\ (forall b r,
        build_mrsdata b = Ok r ->
        exists p, header_params b = Some p
                  /\ md_patient_name (mrs_metadata r) = patient_name p)
  /\ (exists r,
        load_twix 2 dotted_name_container = Some (Ok r)
        /\ md_patient_name (mrs_metadata r) = str "Doe\.John").
Proof.
  split; [|split; [|split]].
  - intros h p m Hp Hm Hplain.
    destruct (parse_twix_header_name h p Hp) as (m' & Hm' & ->).
    rewrite Hm in Hm'. inversion Hm'; subst. by apply re_escape_plain.
  - destruct (parse_twix_header dotted_name_header) as [p| |] eqn:Hp;
      [|vm_compute in Hp; discriminate..].
    destruct (re_search re_patient_name_value dotted_name_header) as [m|] eqn:Hm;
      [|vm_compute in Hm; discriminate].
    exists dotted_name_header, p, m.
    vm_compute in Hp. vm_compute in Hm. inversion Hp; subst. inversion Hm; subst.
    split; [reflexivity|]. split; [reflexivity|].
    cbn [group m_groups nth Nat.sub patient_name].
    repeat split.
    + vm_compute. tauto.
    + intros H. vm_compute in H. intuition discriminate.
    + vm_compute. tauto.
    + discriminate.
  - apply build_mrsdata_metadata.
  - eexists. split; vm_compute; reflexivity.
Qed.

Lemma patient_name_is_regex_escaped_witness :
  (exists p m,
     parse_twix_header sample_header_plain = Ok p
     /\ re_search re_patient_name_value sample_header_plain = Some m
     /\ patient_name p = group m 2)
  /\ exists p, header_params sample_builder = Some p
               /\ (exists r, build_mrsdata sample_builder = Ok r
                             /\ md_patient_name (mrs_metadata r) = patient_name p).
Proof.
  split.
  - eexists _, _. split; [vm_compute; reflexivity|]. split; [vm_compute; reflexivity|].
    apply (proj1 patient_name_is_regex_escaped sample_header_plain).
    + vm_compute. reflexivity.
    + vm_compute. reflexivity.
    + vm_compute. reflexivity.
  - destruct (build_mrsdata sample_builder) as [r| |] eqn:Hb;
      [|vm_compute in Hb; discriminate..].
    destruct (proj1 (proj2 (proj2 patient_name_is_regex_escaped)) sample_builder r Hb)
      as (p & Hp & Hn).
    exists p. split; [exact Hp|]. exists r. split; [reflexivity|exact Hn].
Defined.

End PatientName.



(** ** Fields the anonymizer does not find *)

Section MissingField.

Lemma finditer_nil_search p : forall s i,
  finditer_go p i 0 s = [] -> search_from p i s = None.
Proof.
  induction s as [|a s IH]; intros i H; cbn [finditer_go search_from] in *.
  - by destruct (match_groups p []).
  - destruct (match_groups p (a :: s)); [discriminate|]. by apply IH.
Qed.

Lemma count_zero_search p s : count_matches p s = 0%nat -> re_search p s = None.
Proof.
  unfold count_matches, re_finditer, re_search. intros H.
  apply finditer_nil_search. by apply length_zero_iff_nil.
Qed.

Lemma anonymize_stages h :
  anonymize_twix_header h = (h <- before_exam_date h ;; scrub_exam_date h).
Proof.
  unfold anonymize_twix_header, before_exam_date, before_sex, before_name.
  destruct (scrub_patient_id h) as [h1| |]; cbn [bind]; [|done..].
  destruct (scrub_birthday h1) as [h2| |]; cbn [bind]; [|done..].
  destruct (scrub_patient_name h2) as [h3| |]; cbn [bind]; done.
Qed.

Lemma stage_fails (stage : text -> result text) p t :
  (forall t, re_search p t = None -> stage t = Raise AttributeError) ->
  count_matches p t = 0%nat -> stage t = Raise AttributeError.
Proof. intros H Hc. apply H. by apply count_zero_search. Qed.

Lemma anonymize_twix_output input :
  outcome (anonymize_twix input) <> Ok tt ->
  output_file (anonymize_twix input) = None
  \/ output_file (anonymize_twix input) = Some [].
Proof.
  unfold anonymize_twix.
  destruct ((bs <~ read 8 ;; lift (unpack_uints 4 2 bs)) (open_rb input)) as [[u f]| |];
    [|cbn [outcome output_file]; auto..].
  destruct (seek 0 f) as [[? f']| |]; [|cbn [outcome output_file]; auto..].
  generalize (if is_vd (nth 0 u 0) (nth 1 u 0)
              then anonymize_twix_vd f' else anonymize_twix_vb f').
  intros [[out ?]| |]; cbn [outcome output_file]; auto.
  intros H. by contradict H.
Qed.

(** C6 as amended.  Anonymization raises AttributeError as soon as one of
    its five searches (patient id, birth date, name, sex, frame of
    reference) finds no match in the text it is applied to, which is the
    header as the stages before it left it; and whenever [anonymize_twix]
    does not succeed the output file is absent or empty, never partly
    written. *)
Theorem anonymize_fails_when_field_missing (h : text) :
  (count_matches re_patient_id h = 0%nat ->
   anonymize_twix_header h = Raise AttributeError)
  /\ (forall t, scrub_patient_id h = Ok t ->
        count_matches re_patient_birthday t = 0%nat ->
        anonymize_twix_header h = Raise AttributeError)
  /\ (forall t, before_name h = Ok t ->
        count_matches re_patient_name t = 0%nat ->
        anonymize_twix_header h = Raise AttributeError)
  /\ (forall t, before_sex h = Ok t ->
        count_matches re_patient_sex t = 0%nat ->
        anonymize_twix_header h = Raise AttributeError)
  /\ (forall t, before_exam_date h = Ok t ->
        count_matches re_frame_of_reference t = 0%nat ->
        anonymize_twix_header h = Raise AttributeError)
  /\ (forall input,
        outcome (anonymize_twix input) <> Ok tt ->
        output_file (anonymize_twix input) = None
        \/ output_file (anonymize_twix input) = Some []).
Proof.
  repeat split.
  - intros Hc. apply count_zero_search in Hc.
    unfold anonymize_twix_header, scrub_patient_id. by rewrite Hc.
  - intros t Ht Hc. apply count_zero_search in Hc.
    unfold anonymize_twix_header. rewrite Ht. cbn [bind].
    unfold scrub_birthday. by rewrite Hc.
  - intros t Ht Hc. apply count_zero_search in Hc.
    rewrite anonymize_stages. unfold before_exam_date, before_sex. rewrite Ht. cbn [bind].
    unfold scrub_patient_name. by rewrite Hc.
  - intros t Ht Hc. apply count_zero_search in Hc.
    rewrite anonymize_stages. unfold before_exam_date. rewrite Ht. cbn [bind].
    unfold scrub_patient_sex, zero_sex_field. by rewrite Hc.
  - intros t Ht Hc. apply count_zero_search in Hc.
    rewrite anonymize_stages. rewrite Ht. cbn [bind].
    unfold scrub_exam_date. by rewrite Hc.
  - apply anonymize_twix_output.
Qed.

(** A header with two PatientID parameters is anonymized without error;
    the second identifier is left in the text. *)
Lemma anonymize_two_ids_no_error :
  count_matches re_patient_id two_ids_header = 2%nat
  /\ is_error (anonymize_twix_header two_ids_header) = false
  /\ exists out,
       anonymize_twix_header two_ids_header = Ok out
       /\ last_n (length (param_string "PatientID" "CD34")) out
          = param_string "PatientID" "CD34".
Proof.
  split; [vm_compute; reflexivity|]. split; [vm_compute; reflexivity|].
  eexists. split; vm_compute; reflexivity.
Qed.

Lemma anonymize_fails_when_field_missing_witness :
  anonymize_twix_header (partial_header 0) = Raise AttributeError
  /\ anonymize_twix_header (partial_header 1) = Raise AttributeError
  /\ anonymize_twix_header (partial_header 2) = Raise AttributeError
  /\ anonymize_twix_header (partial_header 3) = Raise AttributeError
  /\ anonymize_twix_header (partial_header 4) = Raise AttributeError
  /\ (output_file (anonymize_twix (vb_container (partial_header 4) [])) = None
      \/ output_file (anonymize_twix (vb_container (partial_header 4) [])) = Some []).
Proof.
  split; [|split; [|split; [|split; [|split]]]].
  - apply (proj1 (anonymize_fails_when_field_missing (partial_header 0))).
    vm_compute. reflexivity.
  - eapply (proj1 (proj2 (anonymize_fails_when_field_missing (partial_header 1)))).
    + vm_compute. reflexivity.
    + vm_compute. reflexivity.
  - eapply (proj1 (proj2 (proj2 (anonymize_fails_when_field_missing (partial_header 2))))).
    + vm_compute. reflexivity.
    + vm_compute. reflexivity.
  - eapply (proj1 (proj2 (proj2 (proj2
              (anonymize_fails_when_field_missing (partial_header 3)))))).
    + vm_compute. reflexivity.
    + vm_compute. reflexivity.
  - eapply (proj1 (proj2 (proj2 (proj2 (proj2
              (anonymize_fails_when_field_missing (partial_header 4))))))).
    + vm_compute. reflexivity.
    + vm_compute. reflexivity.
  - apply (proj2 (proj2 (proj2 (proj2 (proj2
              (anonymize_fails_when_field_missing (partial_header 4))))))).
    vm_compute. discriminate.
Defined.

End MissingField.

(** ** Data records *)

Section Chunks.

Lemma chunks_lookup w : forall c (l : list byte) k,
  (k < c)%nat -> chunks w c l !! k = Some (take w (drop (k * w) l)).
Proof.
  induction c as [|c IH]; intros l k Hk; [lia|].
  cbn [chunks]. destruct k as [|k].
  - by rewrite Nat.mul_0_l, drop_0.
  - change ((take w l :: chunks w c (drop w l)) !! S k) with (chunks w c (drop w l) !! k).
    rewrite IH by lia. rewrite drop_drop.
    do 3 f_equal; lia.
Qed.

Lemma length_chunks w : forall c (l : list byte), length (chunks w c l) = c.
Proof. induction c as [|c IH]; intros l; cbn [chunks length]; [done|]. by rewrite IH. Qed.

Lemma bytes_at_sub bs off (n w : nat) (k : nat) :
  0 <= off -> (k + w <= n)%nat ->
  take w (drop k (bytes_at bs off n)) = bytes_at bs (off + Z.of_nat k) w.
Proof.
  intros H0 Hk. unfold bytes_at.
  rewrite skipn_firstn_comm, take_take, drop_drop.
  rewrite Nat.min_l by lia. do 2 f_equal. lia.
Qed.

Lemma field_at bs off (w c k : nat) :
  0 <= off -> (k < c)%nat ->
  nth k (map le_Z (chunks w c (bytes_at bs off (c * w)))) 0
  = le_Z (bytes_at bs (off + Z.of_nat (k * w)) w).
Proof.
  intros H0 Hk. apply nth_lookup_Some. rewrite list_lookup_fmap.
  rewrite chunks_lookup by done. cbn [fmap option_fmap option_map].
  rewrite bytes_at_sub by nia. done.
Qed.

End Chunks.

Section Samples.

Lemma complex_pairs_lookup : forall (k : nat) raw r i,
  raw !! (2 * k)%nat = Some r -> raw !! (2 * k + 1)%nat = Some i ->
  complex_pairs raw !! k = Some {| re_part := r; im_part := fneg i |}.
Proof.
  induction k as [|k IH]; intros raw r i Hr Hi.
  - destruct raw as [|r0 [|i0 rest]]; cbn in Hr, Hi; try discriminate.
    by inversion Hr; inversion Hi; subst.
  - replace (2 * S k)%nat with (S (S (2 * k))) in Hr by lia.
    replace (2 * S k + 1)%nat with (S (S (2 * k + 1))) in Hi by lia.
    destruct raw as [|r0 [|i0 rest]]; [discriminate..|].
    cbn [complex_pairs]. change (complex_pairs rest !! k = Some {| re_part := r; im_part := fneg i |}).
    by apply IH.
Qed.

Lemma length_complex_pairs : forall (m : nat) raw,
  length raw = (2 * m)%nat -> length (complex_pairs raw) = m.
Proof.
  induction m as [|m IH]; intros raw H.
  - by destruct raw.
  - destruct raw as [|r0 [|i0 rest]]; cbn [length] in H; try lia.
    cbn [complex_pairs length]. rewrite IH; [done|lia].
Qed.

Lemma length_samples_at bs off n :
  0 <= n -> length (samples_at bs off n) = Z.to_nat n.
Proof.
  intros Hn. unfold samples_at. apply length_complex_pairs.
  rewrite length_map, length_chunks. lia.
Qed.

(** Sample [k] of a channel: the real part is the float at byte [8k], the
    imaginary part the negated float at byte [8k + 4]. *)
Lemma samples_at_lookup bs off n (k : nat) :
  0 <= off -> Z.of_nat k < n ->
  samples_at bs off n !! k
  = Some {| re_part := le_Z (bytes_at bs (off + 8 * Z.of_nat k) 4);
            im_part := fneg (le_Z (bytes_at bs (off + 8 * Z.of_nat k + 4) 4)) |}.
Proof.
  intros H0 Hk. unfold samples_at.
  replace (Z.to_nat (n * 4 * 2)) with (Z.to_nat (n * 2) * 4)%nat by lia.
  apply complex_pairs_lookup.
  - rewrite list_lookup_fmap, chunks_lookup by lia. cbn [fmap option_fmap option_map].
    rewrite bytes_at_sub by lia. do 3 f_equal. lia.
  - rewrite list_lookup_fmap, chunks_lookup by lia. cbn [fmap option_fmap option_map].
    rewrite bytes_at_sub by lia. do 3 f_equal. lia.
Qed.

End Samples.

Section ChannelLoop.

Lemma bind_lift {A B} (r : result A) (k : A -> reader B) f :
  (x <~ lift r ;; k x) f
  = match r with Ok a => k a f | Raise e => Raise e | Unmodelled => Unmodelled end.
Proof. unfold rbind, lift. by destruct r. Qed.

Lemma bind_read {A} n (k : list byte -> reader A) f :
  0 <= n ->
  (bs <~ read n ;; k bs) f
  = k (bytes_at (content f) (pos f) (Z.to_nat n))
      (at_pos f (pos f + Z.of_nat (length (bytes_at (content f) (pos f) (Z.to_nat n))))).
Proof. intros Hn. unfold rbind. by rewrite read_spec. Qed.

Lemma channels_vb_first C n d u f r :
  0 <= pos f -> channels_vb (S C) n d u f = Ok r ->
  pos f + 4 <= Z.of_nat (length (content f)).
Proof.
  intros H0 H. cbn [channels_vb] in H.
  rewrite (bind_read_unused 4) in H by lia.
  destruct (_ =? _)%nat eqn:E in H; [|discriminate].
  apply Nat.eqb_eq in E. apply length_bytes_at_inv in E; simpl; lia.
Qed.

Lemma channels_vb_rows : forall C n d u f m f',
  0 <= pos f -> 0 <= n ->
  channels_vb C n d u f = Ok (m, f') ->
  length m = C /\
  forall c : nat, (c < C)%nat ->
    let off := pos f + Z.of_nat c * (8 * n + 128) + 4 in
    off + 8 * n <= Z.of_nat (length (content f))
    /\ m !! c = Some (slice d (d + u) (samples_at (content f) off n))
    /\ length (slice d (d + u) (samples_at (content f) off n)) = u.
Proof.
  induction C as [|C IH]; intros n d u f m f' H0 Hn H.
  - cbn in H. inversion H; subst. split; [done|]. intros c Hc. lia.
  - pose proof (channels_vb_first _ _ _ _ _ _ H0 H) as Hfirst.
    cbn [channels_vb] in H.
    rewrite (bind_read_unused 4) in H by lia.
    destruct (_ =? _)%nat eqn:E4 in H; [|discriminate]. clear E4.
    rewrite (bind_read_uints (n * 4 * 2) 4 (Z.to_nat (n * 2))) in H by lia.
    cbn [at_pos content pos] in H.
    destruct (_ =? _)%nat eqn:E8 in H; [|discriminate]. apply Nat.eqb_eq in E8.
    rewrite bind_lift in H. unfold channel_row in H.
    fold (samples_at (content f) (pos f + 4) n) in H.
    destruct (_ =? _)%nat eqn:Er in H; [|discriminate]. apply Nat.eqb_eq in Er.
    rewrite bind_read in H by lia. cbn [at_pos content pos] in H.
    unfold rbind in H.
    match type of H with
    | context [channels_vb C n d u ?f1] =>
        destruct (channels_vb C n d u f1) as [[rows f2]| |] eqn:Hrec; [|discriminate..];
        set (g := f1) in *
    end.
    cbn [ret] in H. inversion H; subst m f'; clear H.
    assert (Hg0 : 0 <= pos g) by (unfold g; cbn [pos at_pos content]; lia).
    destruct (IH n d u g rows f2 Hg0 Hn Hrec) as [Hlen Hrows].
    assert (Hbytes : pos f + 4 + 8 * n <= Z.of_nat (length (content f))).
    { destruct (decide (n = 0)) as [->|Hnz]; [lia|].
      apply length_bytes_at_inv in E8; lia. }
    split; [cbn [length]; by rewrite Hlen|].
    intros [|c] Hc off.
    + subst off. replace (pos f + Z.of_nat 0 * (8 * n + 128) + 4) with (pos f + 4) by lia.
      split; [lia|]. split; [done|]. done.
    + destruct C as [|C']; [lia|].
      pose proof (channels_vb_first _ _ _ _ _ _ Hg0 Hrec) as Hnext.
      assert (Hpos : pos g = pos f + (8 * n + 128)).
      { unfold g in Hnext |- *. cbn [pos at_pos content] in Hnext |- *.
        unfold bytes_at in Hnext |- *. rewrite length_take, length_drop in Hnext |- *.
        change (Z.to_nat 124) with 124%nat in *. lia. }
      destruct (Hrows c ltac:(lia)) as (Hb & Hrow & Hl).
      cbv zeta in Hb, Hrow, Hl. rewrite Hpos in Hb, Hrow, Hl.
      unfold g in Hb, Hrow, Hl. cbn [content at_pos] in Hb, Hrow, Hl.
      subst off.
      replace (pos f + Z.of_nat (S c) * (8 * n + 128) + 4)
        with (pos f + (8 * n + 128) + Z.of_nat c * (8 * n + 128) + 4) by lia.
      split; [done|]. split; [done|]. done.
Qed.

End ChannelLoop.

Section DataRecord.

Lemma le_Z_nonneg bs : 0 <= le_Z bs.
Proof.
  induction bs as [|b bs IH]; cbn [le_Z]; [lia|].
  unfold code. lia.
Qed.

Lemma set_np_fields b v b1 :
  set_np b v = Ok b1 -> np b1 = Some v /\ data b1 = data b /\ loop_counters b1 = loop_counters b.
Proof.
  unfold set_np. destruct (np b) as [old|] eqn:E.
  - destruct (old =? v)%nat eqn:Ev; [|discriminate]. intros H; inversion H; subst.
    apply Nat.eqb_eq in Ev. by subst.
  - intros H; inversion H; subst. done.
Qed.

Lemma set_num_channels_fields b v b1 :
  set_num_channels b v = Ok b1 ->
  num_channels b1 = Some v /\ data b1 = data b /\ loop_counters b1 = loop_counters b
  /\ np b1 = np b.
Proof.
  unfold set_num_channels. destruct (num_channels b) as [old|] eqn:E.
  - destruct (old =? v)%nat eqn:Ev; [|discriminate]. intros H; inversion H; subst.
    apply Nat.eqb_eq in Ev. by subst.
  - intros H; inversion H; subst. done.
Qed.

Ltac inv_if H :=
  cbn [at_pos content pos] in H;
  match type of H with
  | (if ?c then _ else _) _ = _ =>
      let E := fresh "E" in destruct c eqn:E; [apply Nat.eqb_eq in E | discriminate]
  | (if ?c then _ else _) = _ =>
      let E := fresh "E" in destruct c eqn:E; [apply Nat.eqb_eq in E | discriminate]
  end.

Ltac inv_uint H n := rewrite (bind_read_uint n) in H by lia; inv_if H.
Ltac inv_unused H n := rewrite (bind_read_unused n) in H by lia; inv_if H.
Ltac inv_uints H n w c :=
  rewrite (bind_read_uints n w c) in H by first [reflexivity | lia]; inv_if H.
Ltac inv_lift H x :=
  rewrite bind_lift in H;
  match type of H with
  | match ?r with _ => _ end = _ =>
      let E := fresh "E" in destruct r as [x| |] eqn:E; [|discriminate..]
  end.

Lemma scan_vb_data (b : TwixBuilder) (f : file) ctl b' f' :
  0 <= pos f ->
  scan_vb b f = Ok (ctl, b', f') ->
  Z.testbit (le_Z (bytes_at (content f) (pos f + 20) 8)) 0 = false ->
  skip_flags (le_Z (bytes_at (content f) (pos f + 20) 8)) = false ->
  let n := le_Z (bytes_at (content f) (pos f + 28) 2) in
  let C := le_Z (bytes_at (content f) (pos f + 30) 2) in
  let d := le_Z (bytes_at (content f) (pos f + 88) 2) in
  exists u m g,
    usable_np (n - d) = Ok u
    /\ data b' = data b ++ [m]
    /\ np b' = Some u
    /\ channels_vb (Z.to_nat C) n (Z.to_nat d) u (at_pos f (pos f + 124)) = Ok (m, g).
Proof.
  intros H0 H Hend Hskip n C d.
  unfold scan_vb in H. rewrite bind_tell in H.
  inv_uint H 4. inv_unused H 16. inv_uint H 8.
  replace (pos f + 4 + 16) with (pos f + 20) in H by lia.
  change (Z.to_nat 8) with 8%nat in H.
  rewrite truthy_land_1, Hend in H. rewrite !truthy_flag in H by lia.
  unfold skip_flags in Hskip. rewrite Hskip in H.
  inv_uints H 4 2%nat 2%nat.
  assert (Hn : nth 0 (map le_Z (chunks 2 2 (bytes_at (content f) (pos f + 20 + 8) (Z.to_nat 4)))) 0 = n).
  { unfold n. replace (pos f + 28) with (pos f + 20 + 8 + Z.of_nat (0 * 2)) by lia.
    apply (field_at _ _ 2 2 0); lia. }
  assert (HC : nth 1 (map le_Z (chunks 2 2 (bytes_at (content f) (pos f + 20 + 8) (Z.to_nat 4)))) 0 = C).
  { unfold C. replace (pos f + 30) with (pos f + 20 + 8 + Z.of_nat (1 * 2)) by lia.
    apply (field_at _ _ 2 2 1); lia. }
  rewrite Hn, HC in H.
  inv_lift H b0.
  inv_uints H 28 2%nat 14%nat. inv_unused H 12. inv_unused H 8.
  inv_uints H 8 2%nat 4%nat. inv_uints H 8 2%nat 4%nat.
  assert (Hd : nth 0 (map le_Z (chunks 2 4
              (bytes_at (content f) (pos f + 20 + 8 + 4 + 28 + 12 + 8 + 8) (Z.to_nat 8)))) 0 = d).
  { unfold d. replace (pos f + 88) with (pos f + 20 + 8 + 4 + 28 + 12 + 8 + 8 + Z.of_nat (0 * 2)) by lia.
    apply (field_at _ _ 2 4 0); lia. }
  rewrite Hd in H.
  inv_lift H u. inv_lift H b1. inv_unused H 28.
  replace (pos f + 20 + 8 + 4 + 28 + 12 + 8 + 8 + 8 + 28) with (pos f + 124) in H by lia.
  unfold rbind at 1 in H.
  destruct (channels_vb _ _ _ _ _) as [[m g]| |] eqn:Hch in H; [|discriminate..].
  cbv zeta in H. unfold rbind, seek, ret in H.
  destruct (_ <? 0) in H; [discriminate|]. destruct (_ <=? _) in H; [discriminate|].
  inversion H; subst ctl b' f'; clear H.
  match goal with
  | E1 : set_num_channels _ _ = Ok _, E2 : set_np _ _ = Ok _ |- _ =>
      apply set_num_channels_fields in E1 as (_ & Hd1 & _ & _);
      apply set_np_fields in E2 as (Hnp & Hd2 & _)
  end.
  exists u, m, g. cbn [add_scan data np]. rewrite Hd2, Hd1. done.
Qed.

Lemma channels_vd_rows : forall C n d u f m f',
  0 <= pos f -> 0 <= n ->
  channels_vd C n d u f = Ok (m, f') ->
  length m = C /\
  forall c : nat, (c < C)%nat ->
    let off := pos f + Z.of_nat c * (8 * n + 32) + 32 in
    off + 8 * n <= Z.of_nat (length (content f))
    /\ m !! c = Some (slice d (d + u) (samples_at (content f) off n))
    /\ length (slice d (d + u) (samples_at (content f) off n)) = u.
Proof.
  induction C as [|C IH]; intros n d u f m f' H0 Hn H.
  - cbn in H. inversion H; subst. split; [done|]. intros c Hc. lia.
  - cbn [channels_vd] in H.
    inv_unused H 32.
    rewrite (bind_read_uints (n * 4 * 2) 4 (Z.to_nat (n * 2))) in H by lia.
    cbn [at_pos content pos] in H.
    destruct (_ =? _)%nat eqn:E8 in H; [|discriminate]. apply Nat.eqb_eq in E8.
    rewrite bind_lift in H. unfold channel_row in H.
    fold (samples_at (content f) (pos f + 32) n) in H.
    destruct (_ =? _)%nat eqn:Er in H; [|discriminate]. apply Nat.eqb_eq in Er.
    unfold rbind in H.
    match type of H with
    | context [channels_vd C n d u ?f1] =>
        destruct (channels_vd C n d u f1) as [[rows f2]| |] eqn:Hrec; [|discriminate..];
        set (g := f1) in *
    end.
    cbn [ret] in H. inversion H; subst m f'; clear H.
    assert (Hg0 : 0 <= pos g) by (unfold g; cbn [pos at_pos content]; lia).
    destruct (IH n d u g rows f2 Hg0 Hn Hrec) as [Hlen Hrows].
    assert (Hhead : pos f + 32 <= Z.of_nat (length (content f))).
    { apply length_bytes_at_inv in E; simpl; lia. }
    assert (Hbytes : pos f + 32 + 8 * n <= Z.of_nat (length (content f))).
    { destruct (decide (n = 0)) as [->|Hnz]; [lia|].
      apply length_bytes_at_inv in E8; lia. }
    split; [cbn [length]; by rewrite Hlen|].
    intros [|c] Hc off.
    + subst off. replace (pos f + Z.of_nat 0 * (8 * n + 32) + 32) with (pos f + 32) by lia.
      split; [lia|]. split; [done|]. done.
    + destruct (Hrows c ltac:(lia)) as (Hb & Hrow & Hl).
      cbv zeta in Hb, Hrow, Hl.
      unfold g in Hb, Hrow, Hl. cbn [content at_pos pos] in Hb, Hrow, Hl.
      subst off.
      replace (pos f + Z.of_nat (S c) * (8 * n + 32) + 32)
        with (pos f + 32 + n * 4 * 2 + Z.of_nat c * (8 * n + 32) + 32) by lia.
      split; [done|]. split; [done|]. done.
Qed.

Lemma scan_vd_data (b : TwixBuilder) (f : file) ctl b' f' :
  0 <= pos f ->
  scan_vd b f = Ok (ctl, b', f') ->
  Z.testbit (le_Z (bytes_at (content f) (pos f + 40) 8)) 0 = false ->
  skip_flags (le_Z (bytes_at (content f) (pos f + 40) 8)) = false ->
  let n := le_Z (bytes_at (content f) (pos f + 48) 2) in
  let C := le_Z (bytes_at (content f) (pos f + 50) 2) in
  let s := le_Z (bytes_at (content f) (pos f + 136) 2)
           + le_Z (bytes_at (content f) (pos f + 176) 2) in
  exists u m g,
    usable_np (n - s) = Ok u
    /\ data b' = data b ++ [m]
    /\ np b' = Some u
    /\ channels_vd (Z.to_nat C) n (Z.to_nat s) u (at_pos f (pos f + 192)) = Ok (m, g).
Proof.
  intros H0 H Hend Hskip n C s.
  unfold scan_vd in H. rewrite bind_tell in H.
  inv_uint H 4. inv_unused H 16. inv_unused H 20. inv_uint H 8.
  replace (pos f + 4 + 16 + 20) with (pos f + 40) in H by lia.
  change (Z.to_nat 8) with 8%nat in H.
  rewrite truthy_land_1, Hend in H. rewrite !truthy_flag in H by lia.
  unfold skip_flags in Hskip. rewrite Hskip in H.
  inv_uints H 4 2%nat 2%nat.
  assert (Hn : nth 0 (map le_Z (chunks 2 2 (bytes_at (content f) (pos f + 40 + 8) (Z.to_nat 4)))) 0 = n).
  { unfold n. replace (pos f + 48) with (pos f + 40 + 8 + Z.of_nat (0 * 2)) by lia.
    apply (field_at _ _ 2 2 0); lia. }
  assert (HC : nth 1 (map le_Z (chunks 2 2 (bytes_at (content f) (pos f + 40 + 8) (Z.to_nat 4)))) 0 = C).
  { unfold C. replace (pos f + 50) with (pos f + 40 + 8 + Z.of_nat (1 * 2)) by lia.
    apply (field_at _ _ 2 2 1); lia. }
  rewrite Hn, HC in H.
  inv_lift H b0.
  inv_uints H 28 2%nat 14%nat. inv_unused H 12. inv_unused H 8. inv_unused H 28.
  inv_uints H 48 2%nat 24%nat. inv_uints H 8 2%nat 4%nat.
  assert (Hi : nth 4 (map le_Z (chunks 2 24
              (bytes_at (content f) (pos f + 40 + 8 + 4 + 28 + 12 + 8 + 28) (Z.to_nat 48)))) 0
               = le_Z (bytes_at (content f) (pos f + 136) 2)).
  { replace (pos f + 136) with (pos f + 40 + 8 + 4 + 28 + 12 + 8 + 28 + Z.of_nat (4 * 2)) by lia.
    apply (field_at _ _ 2 24 4); lia. }
  assert (Hd : nth 0 (map le_Z (chunks 2 4
              (bytes_at (content f) (pos f + 40 + 8 + 4 + 28 + 12 + 8 + 28 + 48) (Z.to_nat 8)))) 0
               = le_Z (bytes_at (content f) (pos f + 176) 2)).
  { replace (pos f + 176) with (pos f + 40 + 8 + 4 + 28 + 12 + 8 + 28 + 48 + Z.of_nat (0 * 2)) by lia.
    apply (field_at _ _ 2 4 0); lia. }
  rewrite Hi, Hd in H. fold s in H.
  inv_lift H u. inv_lift H b1. inv_unused H 8.
  replace (pos f + 40 + 8 + 4 + 28 + 12 + 8 + 28 + 48 + 8 + 8) with (pos f + 192) in H by lia.
  unfold rbind at 1 in H.
  destruct (channels_vd _ _ _ _ _) as [[m g]| |] eqn:Hch in H; [|discriminate..].
  cbv zeta in H. unfold rbind, seek, ret in H.
  destruct (_ <? 0) in H; [discriminate|]. destruct (_ <=? _) in H; [discriminate|].
  inversion H; subst ctl b' f'; clear H.
  match goal with
  | E1 : set_num_channels _ _ = Ok _, E2 : set_np _ _ = Ok _ |- _ =>
      apply set_num_channels_fields in E1 as (_ & Hd1 & _ & _);
      apply set_np_fields in E2 as (Hnp & Hd2 & _)
  end.
  exists u, m, g. cbn [add_scan data np]. rewrite Hd2, Hd1. done.
Qed.

End DataRecord.

(** ** The usable samples of a data record *)

Section UsableSamples.

Lemma usable_np_spec d u :
  usable_np d = Ok u ->
  0 <= d
  /\ (d = 0 -> u = 0%nat)
  /\ (1 <= d ->
      Z.of_nat u = 2 ^ Z.log2 d
      /\ Z.of_nat u <= d
      /\ forall k, 0 <= k -> 2 ^ k <= d -> 2 ^ k <= Z.of_nat u).
Proof.
  unfold usable_np. destruct (d <? 0) eqn:E1; [discriminate|].
  destruct (d =? 0) eqn:E2; intros H; inversion H; subst; clear H.
  - split; [lia|]. split; [done|]. lia.
  - split; [lia|]. split; [lia|]. intros Hd.
    pose proof (Z.log2_spec d ltac:(lia)) as [Hlo Hhi].
    pose proof (Z.log2_nonneg d) as Hl.
    assert (0 < 2 ^ Z.log2 d) by (apply Z.pow_pos_nonneg; lia).
    rewrite Z2Nat.id by lia. split; [done|]. split; [done|].
    intros k Hk Hle. apply Z.pow_le_mono_r; [lia|].
    destruct (Z.le_gt_cases k (Z.log2 d)) as [|Hgt]; [done|].
    assert (2 ^ Z.succ (Z.log2 d) <= 2 ^ k) by (apply Z.pow_le_mono_r; lia). lia.
Qed.

Lemma is_data_record_flags v bs p :
  is_data_record v bs p = true ->
  Z.testbit (le_Z (bytes_at bs (p + flag_word_offset v) 8)) 0 = false
  /\ skip_flags (le_Z (bytes_at bs (p + flag_word_offset v) 8)) = false.
Proof.
  unfold is_data_record. cbv zeta. intros H. apply andb_true_iff in H as [H1 H2].
  by destruct (Z.testbit _ 0), (skip_flags _).
Qed.

(** What both variants do with a data record they accept. *)
Lemma scan_data_record (v : variant) (b : TwixBuilder) (f : file) ctl b' f' :
  0 <= pos f ->
  is_data_record v (content f) (pos f) = true ->
  scan_of v b f = Ok (ctl, b', f') ->
  let n := num_samples_at v (content f) (pos f) in
  let s := sample_start_at v (content f) (pos f) in
  let C := num_channels_at v (content f) (pos f) in
  exists (u : nat) (m : matrix),
    usable_np (n - s) = Ok u
    /\ data b' = data b ++ [m]
    /\ np b' = Some u
    /\ length m = Z.to_nat C
    /\ forall c : nat, (c < Z.to_nat C)%nat ->
         let off := channel_samples_offset v (pos f) n c in
         off + 8 * n <= Z.of_nat (length (content f))
         /\ m !! c = Some (slice (Z.to_nat s) (Z.to_nat s + u) (samples_at (content f) off n))
         /\ length (slice (Z.to_nat s) (Z.to_nat s + u) (samples_at (content f) off n)) = u.
Proof.
  intros H0 Hdata H n s C.
  apply is_data_record_flags in Hdata as [Hend Hskip].
  destruct v; cbn [scan_of flag_word_offset] in *.
  - destruct (scan_vb_data b f ctl b' f' H0 H Hend Hskip) as (u & m & g & Hu & Hd & Hnp & Hch).
    apply channels_vb_rows in Hch as [Hlen Hrows];
      [|cbn [at_pos pos]; lia|apply le_Z_nonneg].
    exists u, m. repeat (split; [done|]).
    intros c Hc. specialize (Hrows c Hc). cbv zeta in Hrows.
    cbn [at_pos pos content] in Hrows.
    cbv zeta. unfold channel_samples_offset.
    replace (pos f + 124 + Z.of_nat c * (4 + 8 * n + 124) + 4)
      with (pos f + 124 + Z.of_nat c * (8 * n + 128) + 4) by lia.
    exact Hrows.
  - destruct (scan_vd_data b f ctl b' f' H0 H Hend Hskip) as (u & m & g & Hu & Hd & Hnp & Hch).
    apply channels_vd_rows in Hch as [Hlen Hrows];
      [|cbn [at_pos pos]; lia|apply le_Z_nonneg].
    exists u, m. repeat (split; [done|]).
    intros c Hc. specialize (Hrows c Hc). cbv zeta in Hrows.
    cbn [at_pos pos content] in Hrows.
    cbv zeta. unfold channel_samples_offset.
    replace (pos f + 192 + Z.of_nat c * (32 + 8 * n) + 32)
      with (pos f + 192 + Z.of_nat c * (8 * n + 32) + 32) by lia.
    exact Hrows.
Qed.

(** C2 as amended.  For every data record either decoder accepts, with raw
    sample count [n] and start offset [s] (the dummy-point count in
    variant A, the FID-start offset plus the dummy-point count in variant
    B): [s <= n]; when [n - s >= 1] the usable length [u] stored for the
    record is [2 ^ log2 (n - s)], the largest power of two not exceeding
    [n - s]; when [n = s] it is zero; and the row of every channel is the
    slice from [s] to [s + u] of the [n] conjugated samples of that
    channel. *)
Theorem usable_sample_window (v : variant) (b : TwixBuilder) (f : file) ctl b' f' :
  0 <= pos f ->
  is_data_record v (content f) (pos f) = true ->
  scan_of v b f = Ok (ctl, b', f') ->
  let n := num_samples_at v (content f) (pos f) in
  let s := sample_start_at v (content f) (pos f) in
  let C := num_channels_at v (content f) (pos f) in
  exists (u : nat) (m : matrix),
    data b' = data b ++ [m] /\ np b' = Some u /\ length m = Z.to_nat C
    /\ s <= n
    /\ (1 <= n - s ->
        Z.of_nat u = 2 ^ Z.log2 (n - s)
        /\ Z.of_nat u <= n - s
        /\ forall k, 0 <= k -> 2 ^ k <= n - s -> 2 ^ k <= Z.of_nat u)
    /\ (n = s -> u = 0%nat)
    /\ forall c : nat, (c < Z.to_nat C)%nat ->
         let samples := samples_at (content f) (channel_samples_offset v (pos f) n c) n in
         length samples = Z.to_nat n
         /\ m !! c = Some (slice (Z.to_nat s) (Z.to_nat s + u) samples)
         /\ length (slice (Z.to_nat s) (Z.to_nat s + u) samples) = u.
Proof.
  intros H0 Hdata H n s C.
  destruct (scan_data_record v b f ctl b' f' H0 Hdata H)
    as (u & m & Hu & Hd & Hnp & Hlen & Hrows).
  fold n s C in Hu, Hlen, Hrows.
  apply usable_np_spec in Hu as (Hns & Hz & Hpow).
  exists u, m. repeat (split; [done|]).
  split; [lia|]. split; [done|]. split; [intros ->; apply Hz; lia|].
  intros c Hc. cbv zeta. destruct (Hrows c Hc) as (_ & Hrow & Hl).
  split; [|done].
  apply length_samples_at. unfold n, num_samples_at. destruct v; apply le_Z_nonneg.
Qed.

End UsableSamples.

Section UsableSamplesExamples.

Lemma usable_sample_window_witness :
  exists ctl b' f',
    scan_vb new_builder (open_rb two_channel_stream) = Ok (ctl, b', f')
    /\ exists (u : nat) (m : matrix),
         data b' = data new_builder ++ [m] /\ np b' = Some u
         /\ Z.of_nat u = 2 ^ Z.log2 (8 - 2).
Proof.
  destruct (scan_vb new_builder (open_rb two_channel_stream)) as [[[ctl b'] f']| |] eqn:H.
  - exists ctl, b', f'. split; [reflexivity|].
    destruct (usable_sample_window VariantA new_builder (open_rb two_channel_stream)
                ctl b' f') as (u & m & Hd & Hnp & _ & _ & Hpow & _).
    + simpl. lia.
    + reflexivity.
    + exact H.
    + exists u, m. split; [exact Hd|]. split; [exact Hnp|].
      destruct Hpow as [Hu _]; [vm_compute; discriminate|]. exact Hu.
  - vm_compute in H. discriminate.
  - vm_compute in H. discriminate.
Defined.

(** A record whose samples are all dummy points is accepted with a usable
    length of zero, which is no power of two. *)
Lemma all_dummy_record_accepted :
  is_data_record VariantA all_dummy_stream 0 = true
  /\ num_samples_at VariantA all_dummy_stream 0 = 2
  /\ sample_start_at VariantA all_dummy_stream 0 = 2
  /\ (exists b' f',
        scan_vb new_builder (open_rb all_dummy_stream) = Ok (Continue, b', f')
        /\ np b' = Some 0%nat
        /\ data b' = [[[]; []]])
  /\ ~ (exists k, 0 <= k /\ Z.of_nat 0 = 2 ^ k).
Proof.
  split; [reflexivity|]. split; [reflexivity|]. split; [reflexivity|]. split.
  - eexists _, _. split; [vm_compute; reflexivity|]. split; reflexivity.
  - intros (k & Hk & E). assert (0 < 2 ^ k) by (apply Z.pow_pos_nonneg; lia).
    simpl in E. lia.
Qed.

End UsableSamplesExamples.

Section ChannelLayout.

(** C8 as amended.  In variant A, for every accepted data record and each
    of its channels [c], the decoder reads a 4-byte channel sub-header,
    then [n] interleaved (real, imaginary) pairs of 32-bit floats, and
    then passes over 124 bytes: the channel's samples start 4 bytes after
    [record + 124 + c * (4 + 8 n + 124)], sample [k] has the float at
    byte [8 k] as real part and the negated float at byte [8 k + 4] as
    imaginary part, and the channel's row is the window of these samples
    from the dummy-point count on. *)
Theorem vb_channel_decoding (b : TwixBuilder) (f : file) ctl b' f' :
  0 <= pos f ->
  is_data_record VariantA (content f) (pos f) = true ->
  scan_vb b f = Ok (ctl, b', f') ->
  let n := num_samples_at VariantA (content f) (pos f) in
  let d := Z.to_nat (sample_start_at VariantA (content f) (pos f)) in
  let C := Z.to_nat (num_channels_at VariantA (content f) (pos f)) in
  exists (u : nat) (m : matrix),
    data b' = data b ++ [m] /\ length m = C
    /\ forall c : nat, (c < C)%nat ->
         let sub_header := pos f + 124 + Z.of_nat c * (4 + 8 * n + 124) in
         sub_header + 4 + 8 * n <= Z.of_nat (length (content f))
         /\ m !! c = Some (slice d (d + u) (samples_at (content f) (sub_header + 4) n))
         /\ forall k : nat, Z.of_nat k < n ->
              samples_at (content f) (sub_header + 4) n !! k
              = Some {| re_part := le_Z (bytes_at (content f) (sub_header + 4 + 8 * Z.of_nat k) 4);
                        im_part := fneg (le_Z (bytes_at (content f)
                                                  (sub_header + 4 + 8 * Z.of_nat k + 4) 4)) |}.
Proof.
  intros H0 Hdata H n d C.
  destruct (scan_data_record VariantA b f ctl b' f' H0 Hdata H)
    as (u & m & Hu & Hd & Hnp & Hlen & Hrows).
  exists u, m. split; [done|]. split; [done|].
  intros c Hc. cbv zeta. destruct (Hrows c Hc) as (Hb & Hrow & _).
  unfold channel_samples_offset in Hb, Hrow. fold n in Hb, Hrow.
  split; [lia|]. split; [done|].
  intros k Hk. apply samples_at_lookup; [|done].
  assert (0 <= n) by (unfold n, num_samples_at; apply le_Z_nonneg). nia.
Qed.

Lemma vb_channel_decoding_witness :
  exists ctl b' f',
    scan_vb new_builder (open_rb two_channel_stream) = Ok (ctl, b', f')
    /\ exists m : matrix,
         data b' = data new_builder ++ [m] /\ length m = 2%nat.
Proof.
  destruct (scan_vb new_builder (open_rb two_channel_stream)) as [[[ctl b'] f']| |] eqn:H.
  - exists ctl, b', f'. split; [reflexivity|].
    destruct (vb_channel_decoding new_builder (open_rb two_channel_stream) ctl b' f')
      as (u & m & Hd & Hlen & _).
    + simpl. lia.
    + reflexivity.
    + exact H.
    + exists m. split; [exact Hd|exact Hlen].
  - vm_compute in H. discriminate.
  - vm_compute in H. discriminate.
Defined.

(** On a record of two channels the rows the decoder builds are not the
    rows that skipping 124 bytes before each channel's samples gives. *)
Lemma channel_loop_not_as_claimed :
  (exists b' f',
     scan_vb new_builder (open_rb two_channel_stream) = Ok (Continue, b', f')
     /\ Some (data b')
        = (fun m => [m]) <$> rows_of (channels_vb 2 8 2 4 (at_pos (open_rb two_channel_stream) 124)))
  /\ rows_of (channels_vb 2 8 2 4 (at_pos (open_rb two_channel_stream) 124))
     <> rows_of (channels_vb_as_claimed 2 8 2 4 (at_pos (open_rb two_channel_stream) 124))
  /\ is_Some (rows_of (channels_vb_as_claimed 2 8 2 4 (at_pos (open_rb two_channel_stream) 124))).
Proof.
  split; [|split].
  - eexists _, _. split; vm_compute; reflexivity.
  - vm_compute. discriminate.
  - vm_compute. eauto.
Qed.

End ChannelLayout.


(** ** Anonymization: what a run rewrites *)

Section Matcher.
Local Open Scope nat_scope.

Lemma greedy_prefix {R} c (k : text -> option (text * R)) : forall s t r,
  greedy c k s = Some (t, r) ->
  (exists t1 t2 rest, t = t1 ++ t2 /\ s = t1 ++ rest /\ k rest = Some (t2, r)).
Proof.
  induction s as [|a s IH]; intros t r H; cbn [greedy] in H.
  - exists [], t, []. by destruct (k []).
  - destruct (c a).
    + destruct (greedy c k s) as [[t' r']|] eqn:E.
      * inversion H; subst. destruct (IH _ _ eq_refl) as (t1 & t2 & rest & -> & -> & Hk).
        exists (a :: t1), t2, rest. done.
      * exists [], t, (a :: s). done.
    + exists [], t, (a :: s). done.
Qed.

(** What the pieces matched is a prefix of the text, at least as long as
    the pieces demand, and the continuation accepted the rest. *)
Lemma match_pieces_prefix {R} : forall ps (k : text -> option R) s t r,
  match_pieces ps k s = Some (t, r) ->
  exists rest, s = t ++ rest /\ k rest = Some r
               /\ min_len ps <= length t
               /\ (all_one ps = true -> length t = length ps).
Proof.
  induction ps as [|q ps IH]; intros k s t r H.
  - cbn [match_pieces] in H. destruct (k s) eqn:E; [|discriminate]. inversion H; subst.
    exists s. repeat split; auto.
  - destruct q as [c|c|c]; cbn [match_pieces] in H.
    + destruct s as [|a s]; [discriminate|]. destruct (c a); [|discriminate].
      destruct (match_pieces ps k s) as [[t' r']|] eqn:E; [|discriminate].
      inversion H; subst. destruct (IH _ _ _ _ E) as (rest & -> & Hk & Hmin & Hall).
      exists rest. split; [done|]. split; [done|]. split.
      * cbn. lia.
      * cbn. intros Ha. rewrite Hall by done. done.
    + apply greedy_prefix in H as (t1 & t2 & rest & -> & -> & Hk).
      destruct (IH _ _ _ _ Hk) as (rest' & -> & Hk' & Hmin & Hall).
      exists rest'. split; [by rewrite <- app_assoc|]. split; [done|]. split.
      * cbn [min_len]. rewrite length_app. lia.
      * cbn. discriminate.
    + destruct s as [|a s]; [discriminate|]. destruct (c a); [|discriminate].
      destruct (greedy c (match_pieces ps k) s) as [[t' r']|] eqn:E; [|discriminate].
      inversion H; subst.
      apply greedy_prefix in E as (t1 & t2 & rest & -> & -> & Hk).
      destruct (IH _ _ _ _ Hk) as (rest' & -> & Hk' & Hmin & Hall).
      exists rest'. split; [simpl; by rewrite (app_assoc t1)|]. split; [done|]. split.
      * cbn [min_len length]. rewrite length_app. lia.
      * cbn. discriminate.
Qed.

Lemma match_groups_prefix : forall p s gs,
  match_groups p s = Some gs ->
  (exists rest, s = concat gs ++ rest)
  /\ Forall2 (fun g t => min_len g <= length t
                         /\ (all_one g = true -> length t = length g)) p gs.
Proof.
  induction p as [|g p IH]; intros s gs H; cbn [match_groups] in H.
  - inversion H; subst. split; [by exists s|constructor].
  - destruct (match_pieces g (match_groups p) s) as [[t ts]|] eqn:E; [|discriminate].
    inversion H; subst.
    destruct (match_pieces_prefix _ _ _ _ _ E) as (rest & -> & Hk & Hmin & Hall).
    destruct (IH _ _ Hk) as [[rest' ->] HF].
    split.
    + exists rest'. cbn. by rewrite <- app_assoc.
    + by constructor.
Qed.

Lemma match_groups_length p s gs :
  match_groups p s = Some gs -> length (concat gs) <= length s.
Proof.
  intros H. destruct (match_groups_prefix _ _ _ H) as [[rest ->] _].
  rewrite length_app. lia.
Qed.

End Matcher.

Section Substitution.
Local Open Scope nat_scope.

Variable p : pattern.
Variable repl : list text -> text.
Hypothesis repl_length :
  forall s gs, match_groups p s = Some gs -> length (repl gs) = length (concat gs).

Lemma sub_go_length : forall s skip,
  length (sub_go p repl skip s) = length s - skip.
Proof.
  induction s as [|a s IH]; intros skip.
  - destruct skip; cbn [sub_go]; [|done].
    destruct (match_groups p []) as [gs|] eqn:E; [|done].
    rewrite (repl_length _ _ E). pose proof (match_groups_length _ _ _ E). cbn in *. lia.
  - destruct skip as [|n]; cbn [sub_go].
    + destruct (match_groups p (a :: s)) as [gs|] eqn:E.
      * pose proof (match_groups_length _ _ _ E) as Hle.
        pose proof (repl_length _ _ E) as Hr.
        destruct (length (concat gs)) as [|n] eqn:El.
        -- rewrite length_app. cbn [length]. rewrite IH, Hr. lia.
        -- rewrite length_app, IH, Hr. cbn [length] in *. lia.
      * cbn [length]. rewrite IH. lia.
    + rewrite IH. cbn [length]. lia.
Qed.

Lemma re_sub_length s : length (re_sub p repl s) = length s.
Proof. unfold re_sub. rewrite sub_go_length. lia. Qed.




End Substitution.


Section Located.
Local Open Scope nat_scope.

Lemma search_from_spec p : forall s i m,
  search_from p i s = Some m ->
  i <= m_start m
  /\ m_start m - i <= length s
  /\ match_groups p (drop (m_start m - i) s) = Some (m_groups m).
Proof.
  induction s as [|a s IH]; intros i m H; cbn [search_from] in H.
  - destruct (match_groups p []) as [gs|] eqn:E; [|discriminate].
    inversion H; subst. cbn [m_start m_groups]. rewrite Nat.sub_diag. cbn. auto with lia.
  - destruct (match_groups p (a :: s)) as [gs|] eqn:E.
    + inversion H; subst. cbn [m_start m_groups]. rewrite Nat.sub_diag. cbn. auto with lia.
    + destruct (IH _ _ H) as (Hi & Hl & Hm).
      split; [lia|]. split; [cbn; lia|].
      replace (m_start m - i) with (S (m_start m - S i)) by lia. exact Hm.
Qed.



(** A match of a pattern of single characters has as many characters as
    the pattern has pieces. *)
Lemma match_atoms_length ps s gs :
  all_one ps = true -> match_groups [ps] s = Some gs -> length (concat gs) = length ps.
Proof.
  intros Ha H. destruct (match_groups_prefix _ _ _ H) as [_ HF].
  inversion HF as [|? t ? ? [_ Hl] HF']; subst. inversion HF'; subst.
  cbn. rewrite app_nil_r. by apply Hl.
Qed.

Lemma single_char_sub_length c t :
  length (re_sub [[One c]] (fun _ => str "x") t) = length t.
Proof.
  apply re_sub_length. intros s gs H.
  by rewrite (match_atoms_length [One c] s gs eq_refl H).
Qed.

End Located.

Section Stages.
Local Open Scope nat_scope.











End Stages.

Section Header.
Local Open Scope nat_scope.




End Header.

Section Container.
Local Open Scope Z_scope.

Lemma code_bounds b : 0 <= code b < 256.
Proof.
  unfold code. pose proof (N_ascii_bounded b). lia.
Qed.

Lemma le_bytes_le_Z : forall bs, le_bytes (length bs) (le_Z bs) = bs.
Proof.
  induction bs as [|b bs IH]; [done|].
  cbn [length le_bytes le_Z]. pose proof (code_bounds b) as Hb.
  replace ((code b + 256 * le_Z bs) mod 256) with (code b).
  2:{ apply (Z.mod_unique _ 256 (le_Z bs)); lia. }
  replace ((code b + 256 * le_Z bs) / 256) with (le_Z bs).
  2:{ apply (Z.div_unique _ 256 _ (code b)); lia. }
  rewrite IH. f_equal. unfold code. rewrite N2Z.id. apply ascii_N_embedding.
Qed.

(** What [read] returns is the run of bytes at the position, as long as
    the bytes returned. *)
Lemma read_inv n f bs f' :
  read n f = Ok (bs, f') ->
  bs = take (length bs) (drop (Z.to_nat (pos f)) (content f))
  /\ f' = at_pos f (pos f + Z.of_nat (length bs)).
Proof.
  unfold read, at_pos. destruct (n <? -1); [discriminate|].
  set (rest := drop (Z.to_nat (pos f)) (content f)).
  intros [= <- <-]. split; [|done].
  destruct (n =? -1).
  - by rewrite firstn_all.
  - rewrite length_take.
    destruct (Nat.min_spec (Z.to_nat n) (length rest)) as [[_ ->]|[Hge ->]]; [done|].
    by rewrite firstn_all, take_ge by lia.
Qed.

Lemma read_all f :
  read (-1) f = Ok (drop (Z.to_nat (pos f)) (content f),
                    at_pos f (pos f + Z.of_nat (length (drop (Z.to_nat (pos f)) (content f))))).
Proof. reflexivity. Qed.

Lemma decode_cp1252_inv bs t : decode_cp1252 bs = Ok t -> t = bs.
Proof. unfold decode_cp1252. destruct (existsb _ _); [discriminate|]. by intros [= <-]. Qed.

(** The header text a variant A file holds, and the bytes around it. *)
Lemma vb_header_string_inv input h :
  vb_header_string input = Ok h ->
  exists header,
    length (take 4 input) = 4%nat
    /\ read (le_Z (take 4 input) - 4) (at_pos (open_rb input) 4)
       = Ok (header, at_pos (open_rb input) (4 + Z.of_nat (length header)))
    /\ header = take (length header) (drop 4 input)
    /\ h = but_last 24 header.
Proof.
  unfold vb_header_string, rbind.
  assert (E4 : read 4 (open_rb input)
               = Ok (take 4 input,
                     at_pos (open_rb input) (Z.of_nat (length (take 4 input))))) by done.
  rewrite E4. clear E4.
  unfold lift at 1, unpack_uint.
  destruct (length (take 4 input) =? 4)%nat eqn:El; [|discriminate].
  apply Nat.eqb_eq in El. rewrite El.
  destruct (read _ _) as [[header f2]| |] eqn:Er; [|discriminate..].
  destruct (read_inv _ _ _ _ Er) as [Hh Hf]. cbn [at_pos pos content open_rb] in Hh, Hf.
  unfold lift. destruct (decode_cp1252 _) as [t| |] eqn:Ed; [|discriminate..].
  intros [= <-]. apply decode_cp1252_inv in Ed. exists header.
  split; [done|]. split; [by rewrite Hf|]. split; [exact Hh|done].
Qed.

Lemma anonymize_twix_vb_inv input out f' :
  anonymize_twix_vb (open_rb input) = Ok (out, f') ->
  exists h a,
    vb_header_string input = Ok h
    /\ anonymize_twix_header h = Ok a
    /\ (4 + length h <= length input)%nat
    /\ out = take 4 input ++ encode_cp1252 a ++ drop (4 + length h) input.
Proof.
  intros H.
  assert (Hv : exists h, vb_header_string input = Ok h).
  { revert H. unfold anonymize_twix_vb, vb_header_string, rbind.
    destruct (read 4 (open_rb input)) as [[hs f1]| |]; [|discriminate..].
    destruct (lift (unpack_uint 4 hs) f1) as [[z f2]| |]; [|discriminate..].
    destruct (read (z - 4) f2) as [[header f3]| |]; [|discriminate..].
    destruct (lift (decode_cp1252 (but_last 24 header)) f3) as [[t f4]| |]; [|discriminate..].
    intros _. by exists t. }
  destruct Hv as [h Hv]. exists h.
  destruct (vb_header_string_inv _ _ Hv) as (header & H4 & Hr & Hh & ->).
  revert H. unfold anonymize_twix_vb, rbind.
  assert (E4 : read 4 (open_rb input)
               = Ok (take 4 input,
                     at_pos (open_rb input) (Z.of_nat (length (take 4 input))))) by done.
  rewrite H4 in E4. change (Z.of_nat 4) with 4 in E4.
  assert (Hle : le_bytes 4 (le_Z (take 4 input)) = take 4 input).
  { rewrite <- H4 at 1. apply le_bytes_le_Z. }
  rewrite E4. unfold lift at 1, unpack_uint. rewrite H4. cbn [Nat.eqb].
  rewrite Hr, Hle.
  assert (Ed : decode_cp1252 (but_last 24 header) = Ok (but_last 24 header)).
  { revert Hv. unfold vb_header_string, rbind. rewrite E4.
    unfold lift at 1, unpack_uint. rewrite H4. cbn [Nat.eqb]. rewrite Hr.
    unfold lift. destruct (decode_cp1252 (but_last 24 header)) as [t| |] eqn:Ed;
      [|discriminate..].
    intros _. by rewrite (decode_cp1252_inv _ _ Ed). }
  unfold lift at 1. rewrite Ed.
  unfold lift at 1.
  destruct (anonymize_twix_header (but_last 24 header)) as [a| |] eqn:Ea; [|discriminate..].
  rewrite read_all. unfold ret. cbn [at_pos pos content open_rb].
  intros [= <- _]. exists a. split; [done|]. split; [done|].
  assert (Hlen : (length header <= length input - 4)%nat).
  { rewrite Hh, length_take, length_drop. lia. }
  assert (Hin : (4 <= length input)%nat).
  { rewrite length_take in H4. lia. }
  split.
  { unfold but_last. rewrite length_take. lia. }
  f_equal. unfold encode_cp1252. f_equal.
  unfold last_n, but_last. unfold byte, text in *. rewrite length_take.
  replace (Z.to_nat (4 + Z.of_nat (length header))) with (4 + length header)%nat by lia.
  rewrite (Nat.min_l (length header - 24) (length header)) by lia.
  rewrite <- (drop_drop input (length header) 4).
  rewrite <- (drop_drop input (length header - 24) 4).
  set (body := drop 4 input) in *.
  rewrite <- (take_drop (length header) body) at 2.
  rewrite <- Hh. by rewrite drop_app_le by lia.
Qed.

Lemma anonymize_twix_vb_case input out :
  is_vd (le_Z (take 4 input)) (le_Z (take 4 (drop 4 input))) = false ->
  anonymize_twix input = {| outcome := Ok tt; output_file := Some out |} ->
  exists f', anonymize_twix_vb (open_rb input) = Ok (out, f').
Proof.
  intros Hvd. unfold anonymize_twix.
  unfold rbind at 1. rewrite read_spec by lia.
  cbn [open_rb content pos]. change (Z.to_nat 8) with 8%nat.
  unfold lift, unpack_uints.
  destruct (length (bytes_at input 0 8) =? 2 * 4)%nat eqn:El; [|discriminate].
  rewrite chunks_4_2.
  unfold bytes_at. cbn [Z.to_nat drop nth at_pos seek pos content Z.ltb Z.leb Z.compare].
  rewrite take_take, (skipn_firstn_comm 4 8).
  rewrite take_take. cbn [Nat.min Nat.sub].
  change (Z.to_nat 0) with 0%nat. rewrite !drop_0. rewrite Hvd.
  change (2 ^ 63 <=? 0) with false. cbv beta iota.
  change {| content := content (open_rb input); pos := 0 |} with (open_rb input).
  destruct (anonymize_twix_vb (open_rb input)) as [[o f']| |]; cbv beta iota;
    [|discriminate..].
  intros [= <-]. by exists f'.
Qed.

End Container.


(** ** Anonymization keeps the length of the file *)

Section AnonymizeLength.




End AnonymizeLength.

(** ** What anonymization changes outside the protected values *)

Section AnonymizeFrame.
Local Open Scope nat_scope.

(** C5, at the input where the program departs from it.  The located
    patient id is handed to [re.sub] as a pattern without the
    [re.escape] that the patient name gets two lines further on, so an
    id with a period also matches the value of another parameter:
    characters 414 and 416 of the header, the 1 and the 5 of the sequence
    variant, lie in none of the PHI spans and are replaced by x, in a run
    that keeps the length of the header. *)
Lemma patient_id_pattern_rewrites_other_value :
  keeps_length dotted_id_header = true
  /\ slice 413 418 dotted_id_header = dq :: str "1x5" ++ [dq]
  /\ phi_span_as_claimed dotted_id_header 414 = false
  /\ phi_span_as_claimed dotted_id_header 416 = false
  /\ exists out,
       anonymize_twix_header dotted_id_header = Ok out
       /\ length out = length dotted_id_header
       /\ slice 413 418 out = dq :: str "xxx" ++ [dq]
       /\ out !! 414 <> dotted_id_header !! 414
       /\ out !! 416 <> dotted_id_header !! 416.
Proof.
  split; [vm_compute; reflexivity|]. split; [vm_compute; reflexivity|].
  split; [vm_compute; reflexivity|]. split; [vm_compute; reflexivity|].
  eexists. split; [vm_compute; reflexivity|].
  split; [vm_compute; reflexivity|]. split; [vm_compute; reflexivity|].
  split; vm_compute; discriminate.
Qed.

End AnonymizeFrame.


(** ** Further properties of the anonymizer's file handling *)

Section AnonymizeFile.

Lemma anonymize_twix_head input :
  (8 <= length input)%nat ->
  is_vd (le_Z (take 4 input)) (le_Z (take 4 (drop 4 input))) = false ->
  anonymize_twix input
  = match anonymize_twix_vb (open_rb input) with
    | Ok (out, _) => {| outcome := Ok tt; output_file := Some out |}
    | Raise e => {| outcome := Raise e; output_file := Some [] |}
    | Unmodelled => {| outcome := Unmodelled; output_file := Some [] |}
    end.
Proof.
  intros Hlen Hvd. unfold anonymize_twix.
  unfold rbind at 1. rewrite read_spec by lia.
  cbn [open_rb content pos]. change (Z.to_nat 8) with 8%nat.
  unfold lift, unpack_uints.
  rewrite length_bytes_at by lia. cbn [Nat.mul Nat.add Nat.eqb].
  rewrite chunks_4_2.
  unfold bytes_at. cbn [Z.to_nat drop nth at_pos seek pos content Z.ltb Z.leb Z.compare].
  rewrite take_take, (skipn_firstn_comm 4 8).
  rewrite take_take. cbn [Nat.min Nat.sub].
  change (Z.to_nat 0) with 0%nat. rewrite !drop_0. rewrite Hvd.
  change (2 ^ 63 <=? 0) with false. cbv beta iota. reflexivity.
Qed.

(** Whatever the lengths of what is replaced, the output of a successful
    run on a variant A file is the input with the header text replaced:
    the length word, the 24 bytes after the header text and the records
    are copied as they are. *)
Theorem anonymize_twix_copies_around_header (input out : list byte) :
  is_vd (le_Z (take 4 input)) (le_Z (take 4 (drop 4 input))) = false ->
  anonymize_twix input = {| outcome := Ok tt; output_file := Some out |} ->
  exists h a,
    vb_header_string input = Ok h
    /\ anonymize_twix_header h = Ok a
    /\ (4 + length h <= length input)%nat
    /\ out = take 4 input ++ encode_cp1252 a ++ drop (4 + length h) input.
Proof.
  intros Hvd H. destruct (anonymize_twix_vb_case _ _ Hvd H) as [f' Hvb].
  exact (anonymize_twix_vb_inv _ _ _ Hvb).
Qed.

Lemma anonymize_twix_copies_around_header_witness :
  exists out h a,
    anonymize_twix short_birthday_container
    = {| outcome := Ok tt; output_file := Some out |}
    /\ vb_header_string short_birthday_container = Ok h
    /\ anonymize_twix_header h = Ok a
    /\ out = take 4 short_birthday_container ++ encode_cp1252 a
             ++ drop (4 + length h) short_birthday_container.
Proof.
  destruct (output_file (anonymize_twix short_birthday_container)) as [out|] eqn:E;
    [|vm_compute in E; discriminate].
  exists out.
  destruct (anonymize_twix_copies_around_header short_birthday_container out)
    as (h & a & Hh & Ha & _ & Hout).
  - vm_compute. reflexivity.
  - vm_compute in E. injection E as <-. vm_compute. reflexivity.
  - exists h, a. split; [|by repeat split].
    vm_compute in E. injection E as <-. vm_compute. reflexivity.
Defined.

(** A file that was anonymized is again a variant A file: its length
    word is that of the input and is not zero. *)
Theorem anonymized_file_is_variant_a (input out : list byte) :
  is_vd (le_Z (take 4 input)) (le_Z (take 4 (drop 4 input))) = false ->
  anonymize_twix input = {| outcome := Ok tt; output_file := Some out |} ->
  take 4 out = take 4 input
  /\ 3 <= le_Z (take 4 out)
  /\ is_vd (le_Z (take 4 out)) (le_Z (take 4 (drop 4 out))) = false.
Proof.
  intros Hvd H.
  destruct (anonymize_twix_vb_case _ _ Hvd H) as [f' Hvb].
  destruct (anonymize_twix_vb_inv _ _ _ Hvb) as (h & a & Hh & Ha & Hlen & ->).
  destruct (vb_header_string_inv _ _ Hh) as (header & H4 & Hr & _ & _).
  assert (Ht : take 4 (take 4 input ++ encode_cp1252 a ++ drop (4 + length h) input)
               = take 4 input).
  { rewrite take_app_le by lia. rewrite take_take. f_equal. }
  rewrite Ht. split; [done|].
  assert (H3 : 3 <= le_Z (take 4 input)).
  { unfold read in Hr. destruct (le_Z (take 4 input) - 4 <? -1) eqn:E; [discriminate|]. lia. }
  split; [exact H3|].
  unfold is_vd. destruct (le_Z (take 4 input) =? 0) eqn:E; [lia|]. done.
Qed.

Lemma anonymized_file_is_variant_a_witness :
  exists out,
    anonymize_twix sample_container = {| outcome := Ok tt; output_file := Some out |}
    /\ is_vd (le_Z (take 4 out)) (le_Z (take 4 (drop 4 out))) = false.
Proof.
  destruct (output_file (anonymize_twix sample_container)) as [out|] eqn:E;
    [|vm_compute in E; discriminate].
  exists out.
  assert (Ha : anonymize_twix sample_container
               = {| outcome := Ok tt; output_file := Some out |}).
  { vm_compute in E. injection E as <-. vm_compute. reflexivity. }
  split; [exact Ha|].
  apply (anonymized_file_is_variant_a sample_container out); [|exact Ha].
  vm_compute. reflexivity.
Defined.

Lemma short_file_unpack (input : list byte) :
  (length input < 8)%nat ->
  (bs <~ read 8 ;; lift (unpack_uints 4 2 bs)) (open_rb input) = Raise StructError.
Proof.
  intros Hlen. unfold rbind. rewrite read_spec by lia. unfold lift, unpack_uints.
  cbn [open_rb content pos]. unfold bytes_at. rewrite length_take, length_drop.
  destruct (_ =? _)%nat eqn:E; [|done]. apply Nat.eqb_eq in E. lia.
Qed.

(** A file of fewer than eight bytes is refused by [struct.unpack] before
    anything else happens: [load_twix] raises, and [anonymize_twix] raises
    without creating the output file. *)
Theorem short_file_is_refused (input : list byte) :
  (length input < 8)%nat ->
  (forall fuel, load_twix fuel input = Some (Raise StructError))
  /\ anonymize_twix input = {| outcome := Raise StructError; output_file := None |}.
Proof.
  intros Hlen. pose proof (short_file_unpack input Hlen) as Hr.
  split.
  - intros fuel. unfold load_twix. cbv zeta. by rewrite Hr.
  - unfold anonymize_twix. cbv zeta. by rewrite Hr.
Qed.

Lemma short_file_is_refused_witness :
  load_twix 1 (le_bytes 4 32) = Some (Raise StructError)
  /\ anonymize_twix (le_bytes 4 32)
     = {| outcome := Raise StructError; output_file := None |}.
Proof.
  destruct (short_file_is_refused (le_bytes 4 32)) as [Hl Ha].
  - vm_compute. lia.
  - split; [apply Hl|exact Ha].
Defined.

(** The anonymizer decodes the header as windows-1252: a header text
    with one of the five bytes that code page leaves undefined makes it
    raise UnicodeDecodeError, with the output file created and empty. *)
Theorem anonymize_twix_undecodable_header (input header : list byte) (f' : file) :
  (8 <= length input)%nat ->
  is_vd (le_Z (take 4 input)) (le_Z (take 4 (drop 4 input))) = false ->
  read (le_Z (take 4 input) - 4) (at_pos (open_rb input) 4) = Ok (header, f') ->
  existsb cp1252_undefined (but_last 24 header) = true ->
  anonymize_twix input
  = {| outcome := Raise UnicodeDecodeError; output_file := Some [] |}.
Proof.
  intros Hlen Hvd Hr Hu. rewrite anonymize_twix_head by done.
  unfold anonymize_twix_vb, rbind.
  assert (H4 : length (take 4 input) = 4%nat) by (rewrite length_take; lia).
  assert (E4 : read 4 (open_rb input)
               = Ok (take 4 input,
                     at_pos (open_rb input) (Z.of_nat (length (take 4 input))))) by done.
  rewrite H4 in E4. change (Z.of_nat 4) with 4 in E4.
  rewrite E4. unfold lift at 1, unpack_uint. rewrite H4. cbn [Nat.eqb].
  rewrite Hr. unfold lift at 1, decode_cp1252. rewrite Hu. reflexivity.
Qed.

Lemma anonymize_twix_undecodable_header_witness :
  anonymize_twix undecodable_container
  = {| outcome := Raise UnicodeDecodeError; output_file := Some [] |}.
Proof.
  eapply (anonymize_twix_undecodable_header undecodable_container).
  - apply Nat.leb_le. vm_compute. reflexivity.
  - vm_compute. reflexivity.
  - vm_compute. reflexivity.
  - vm_compute. reflexivity.
Defined.

End AnonymizeFile.


(** ** The record loop and the builder *)

Section RecordLoop.

Ltac rstep H :=
  unfold rbind at 1 in H;
  match type of H with
  | match ?m ?f with _ => _ end = _ =>
      let E := fresh "E" in destruct (m f) as [[? ?]| |] eqn:E; [|discriminate..]
  end.

Lemma lift_inv {A} (r : result A) f a f' : lift r f = Ok (a, f') -> r = Ok a /\ f' = f.
Proof. unfold lift. destruct r; [|discriminate..]. by intros [= <- <-]. Qed.

Lemma channel_row_length s u raw row : channel_row s u raw = Ok row -> length row = u.
Proof.
  unfold channel_row. cbv zeta. destruct (_ =? _)%nat eqn:E; [|discriminate].
  intros [= <-]. by apply Nat.eqb_eq.
Qed.

Lemma has_shape_cons C u row (rows : matrix) :
  length row = u -> has_shape C u rows = true -> has_shape (S C) u (row :: rows) = true.
Proof.
  unfold has_shape. intros Hr H. apply andb_prop in H as [Hl Hf].
  cbn [length forallb]. apply Nat.eqb_eq in Hl.
  rewrite Hl, Hr, !Nat.eqb_refl. by rewrite Hf.
Qed.

Lemma channels_vb_shape : forall C n d u f m f',
  channels_vb C n d u f = Ok (m, f') -> has_shape C u m = true.
Proof.
  induction C as [|C IH]; intros n d u f m f' H; cbn [channels_vb] in H.
  - unfold ret in H. by injection H as <- <-.
  - rstep H. rstep H. rstep H. rstep H. rstep H. rstep H. rstep H.
    unfold ret in H. injection H as <- <-.
    apply has_shape_cons; [|by eapply IH].
    match goal with E : lift (channel_row _ _ _) _ = _ |- _ =>
      apply lift_inv in E as [E _]; by apply channel_row_length in E end.
Qed.

Lemma channels_vd_shape : forall C n d u f m f',
  channels_vd C n d u f = Ok (m, f') -> has_shape C u m = true.
Proof.
  induction C as [|C IH]; intros n d u f m f' H; cbn [channels_vd] in H.
  - unfold ret in H. by injection H as <- <-.
  - rstep H. rstep H. rstep H. rstep H. rstep H. rstep H.
    unfold ret in H. injection H as <- <-.
    apply has_shape_cons; [|by eapply IH].
    match goal with E : lift (channel_row _ _ _) _ = _ |- _ =>
      apply lift_inv in E as [E _]; by apply channel_row_length in E end.
Qed.

Lemma unpack_uints_length w c bs l : unpack_uints w c bs = Ok l -> length l = c.
Proof.
  unfold unpack_uints. destruct (_ =? _)%nat; [|discriminate].
  intros [= <-]. by rewrite length_map, length_chunks.
Qed.

Lemma scan_vb_step b f ctl b' f' : scan_vb b f = Ok (ctl, b', f') -> scan_step b ctl b'.
Proof.
  intros H. unfold scan_vb in H.
  do 7 rstep H.
  destruct (truthy _) in H.
  { unfold ret in H. injection H as <- <- <-. constructor. }
  destruct (_ || _) in H.
  { rstep H. unfold ret in H. injection H as <- <- <-. constructor. }
  repeat rstep H.
  unfold ret in H. injection H as <- <- <-.
  repeat match goal with E : lift _ _ = Ok _ |- _ => apply lift_inv in E as [E _] end.
  eapply step_data; eauto.
  - rewrite length_map. by eapply unpack_uints_length.
  - by eapply channels_vb_shape.
Qed.


Lemma scan_vd_step b f ctl b' f' : scan_vd b f = Ok (ctl, b', f') -> scan_step b ctl b'.
Proof.
  intros H. unfold scan_vd in H.
  do 9 rstep H.
  destruct (truthy _) in H.
  { unfold ret in H. injection H as <- <- <-. constructor. }
  destruct (_ || _) in H.
  { rstep H. unfold ret in H. injection H as <- <- <-. constructor. }
  repeat rstep H.
  unfold ret in H. injection H as <- <- <-.
  repeat match goal with E : lift _ _ = Ok _ |- _ => apply lift_inv in E as [E _] end.
  eapply step_data; eauto.
  - rewrite length_map. by eapply unpack_uints_length.
  - by eapply channels_vd_shape.
Qed.

Lemma scan_of_step v b f ctl b' f' : scan_of v b f = Ok (ctl, b', f') -> scan_step b ctl b'.
Proof. destruct v; [apply scan_vb_step|apply scan_vd_step]. Qed.

Lemma set_np_inv b v b1 :
  set_np b v = Ok b1 ->
  (np b = None \/ np b = Some v)
  /\ np b1 = Some v /\ num_channels b1 = num_channels b
  /\ header_params b1 = header_params b
  /\ data b1 = data b /\ loop_counters b1 = loop_counters b.
Proof.
  unfold set_np. destruct (np b) as [old|] eqn:E.
  - destruct (old =? v)%nat eqn:Ev; [|discriminate]. intros [= <-].
    apply Nat.eqb_eq in Ev. subst. auto 10.
  - intros [= <-]. cbn. auto 10.
Qed.

Lemma set_num_channels_inv b v b1 :
  set_num_channels b v = Ok b1 ->
  (num_channels b = None \/ num_channels b = Some v)
  /\ num_channels b1 = Some v /\ np b1 = np b
  /\ header_params b1 = header_params b
  /\ data b1 = data b /\ loop_counters b1 = loop_counters b.
Proof.
  unfold set_num_channels. destruct (num_channels b) as [old|] eqn:E.
  - destruct (old =? v)%nat eqn:Ev; [|discriminate]. intros [= <-].
    apply Nat.eqb_eq in Ev. subst. auto 10.
  - intros [= <-]. cbn. auto 10.
Qed.

Lemma continues_refl b : continues b b.
Proof.
  repeat split; auto. exists [], []. by rewrite !app_nil_r.
Qed.

Lemma continues_trans b1 b2 b3 : continues b1 b2 -> continues b2 b3 -> continues b1 b3.
Proof.
  intros (Hh & Hn & Hc & (ms & lcs & Hd & Hl & Hlen) & Hw)
         (Hh' & Hn' & Hc' & (ms' & lcs' & Hd' & Hl' & Hlen') & Hw').
  split; [congruence|]. split; [auto|]. split; [auto|]. split; [|auto].
  exists (ms ++ ms'), (lcs ++ lcs'). rewrite Hd', Hl', Hd, Hl, !app_assoc, !length_app.
  auto.
Qed.

Lemma well_formed_add_scan b C u b0 b1 lc m :
  set_num_channels b C = Ok b0 -> set_np b0 u = Ok b1 ->
  length lc = 14%nat -> has_shape C u m = true ->
  well_formed b = true -> well_formed (add_scan b1 lc m) = true.
Proof.
  intros H0 H1 Hlc Hm Hw.
  apply set_num_channels_inv in H0 as (Hc & Hc0 & Hn0 & _ & Hd0 & Hl0).
  apply set_np_inv in H1 as (Hn & Hn1 & Hc1 & _ & Hd1 & Hl1).
  unfold well_formed in *. cbn [add_scan data loop_counters np num_channels].
  rewrite Hd1, Hd0, Hl1, Hl0, Hn1, Hc1, Hc0.
  apply andb_prop in Hw as [Hw Hs]. apply andb_prop in Hw as [Hlen H14].
  apply Nat.eqb_eq in Hlen.
  rewrite !length_app, Hlen, Nat.eqb_refl. cbn [length andb].
  rewrite forallb_app, H14. cbn [forallb]. rewrite Hlc. cbn [Nat.eqb andb].
  destruct (data b) as [|m0 ms] eqn:Ed.
  - cbn [app forallb]. by rewrite Hm.
  - cbn [app]. cbv beta iota in Hs.
    rewrite Hn0 in Hn.
    destruct (num_channels b) as [nc|]; [|discriminate].
    destruct (np b) as [n|]; [|discriminate].
    destruct Hc as [|[= ->]]; [discriminate|]. destruct Hn as [|[= ->]]; [discriminate|].
    change (m0 :: ms ++ [m]) with ((m0 :: ms) ++ [m]).
    rewrite forallb_app, Hs. cbn [forallb]. by rewrite Hm.
Qed.

Lemma scan_step_continues b ctl b' : scan_step b ctl b' -> continues b b'.
Proof.
  intros [| |C u b0 b1 lc m H0 H1 Hlc Hm]; [apply continues_refl..|].
  pose proof (well_formed_add_scan _ _ _ _ _ _ _ H0 H1 Hlc Hm) as Hw.
  apply set_num_channels_inv in H0 as (Hc & Hc0 & Hn0 & Hh0 & Hd0 & Hl0).
  apply set_np_inv in H1 as (Hn & Hn1 & Hc1 & Hh1 & Hd1 & Hl1).
  split; [cbn; congruence|].
  split. { intros n E. cbn. rewrite Hn0, E in Hn. destruct Hn; congruence. }
  split. { intros c E. cbn. rewrite E in Hc. destruct Hc; congruence. }
  split; [|exact Hw].
  exists [m], [lc]. cbn. rewrite Hd1, Hd0, Hl1, Hl0. done.
Qed.

Lemma scan_loop_continues (v : variant) : forall (fuel : nat) (b : TwixBuilder) (f : file)
    (b' : TwixBuilder),
  scan_loop (scan_of v) fuel b f = Some (Ok b') -> continues b b'.
Proof.
  induction fuel as [|fuel IH]; intros b f b' H; [discriminate|].
  cbn [scan_loop] in H.
  destruct (scan_of v b f) as [[[ctl b1] f1]| |] eqn:E; [|discriminate..].
  apply scan_of_step, scan_step_continues in E.
  destruct ctl.
  - injection H as <-. exact E.
  - exact (continues_trans _ _ _ E (IH _ _ _ H)).
Qed.

(** Every run of the record loop that ends leaves a builder that
    continues the one it started with: the parsed header is untouched, a
    channel count or sample count that was set is still the same, scans
    were only appended, one tuple of counters with each matrix, and the
    scans are well formed if they were. *)
Theorem record_loop_continues_builder (v : variant) (fuel : nat) (b : TwixBuilder)
        (f : file) (b' : TwixBuilder) :
  scan_loop (scan_of v) fuel b f = Some (Ok b') ->
  header_params b' = header_params b
  /\ (forall n, np b = Some n -> np b' = Some n)
  /\ (forall c, num_channels b = Some c -> num_channels b' = Some c)
  /\ (exists ms lcs, data b' = data b ++ ms /\ loop_counters b' = loop_counters b ++ lcs
                     /\ length ms = length lcs)
  /\ (well_formed b = true -> well_formed b' = true).
Proof.
  intros H. exact (scan_loop_continues v fuel b f b' H).
Qed.

Lemma record_loop_continues_builder_witness :
  exists b',
    scan_loop (scan_of VariantA) 3 new_builder (open_rb two_channel_stream) = Some (Ok b')
    /\ header_params b' = None
    /\ well_formed b' = true
    /\ length (data b') = 1%nat.
Proof.
  destruct (scan_loop (scan_of VariantA) 3 new_builder (open_rb two_channel_stream))
    as [[b'| |]|] eqn:E; try (vm_compute in E; discriminate).
  exists b'. split; [reflexivity|].
  destruct (record_loop_continues_builder _ _ _ _ _ E) as (Hh & _ & _ & _ & Hw).
  split; [exact Hh|]. split; [by apply Hw|].
  vm_compute in E. injection E as <-. reflexivity.
Defined.

End RecordLoop.


(** ** What [load_twix] returns *)

Section Load.

Ltac rstep H :=
  unfold rbind at 1 in H;
  match type of H with
  | match ?m ?f with _ => _ end = _ =>
      let E := fresh "E" in destruct (m f) as [[? ?]| |] eqn:E; [|discriminate..]
  end.

Lemma load_twix_loader fuel input :
  (8 <= length input)%nat ->
  load_twix fuel input
  = match loader fuel input with
    | Some (Ok b) => Some (build_mrsdata b)
    | Some (Raise e) => Some (Raise e)
    | Some Unmodelled => Some Unmodelled
    | None => None
    end.
Proof.
  intros Hlen. unfold load_twix, loader.
  unfold rbind at 1. rewrite read_spec by lia.
  cbn [open_rb content pos]. change (Z.to_nat 8) with 8%nat.
  unfold lift, unpack_uints.
  rewrite length_bytes_at by lia. cbn [Nat.mul Nat.add Nat.eqb].
  rewrite chunks_4_2.
  unfold bytes_at. cbn [Z.to_nat drop nth at_pos seek pos content Z.ltb Z.leb Z.compare].
  rewrite take_take, (skipn_firstn_comm 4 8).
  rewrite take_take. cbn [Nat.min Nat.sub].
  change (Z.to_nat 0) with 0%nat. rewrite !drop_0.
  change (2 ^ 63 <=? 0) with false. cbv beta iota zeta. reflexivity.
Qed.

Lemma load_twix_long fuel input r :
  load_twix fuel input = Some (Ok r) -> (8 <= length input)%nat.
Proof.
  intros H. destruct (decide (8 <= length input)%nat) as [|Hn]; [done|].
  unfold load_twix in H. cbv zeta in H.
  rewrite (short_file_unpack input ltac:(lia)) in H. discriminate.
Qed.

Lemma set_header_string_inv b h b1 :
  set_header_string b h = Ok b1 ->
  exists hp, parse_twix_header h = Ok hp
             /\ header_params b1 = Some hp /\ np b1 = np b
             /\ num_channels b1 = num_channels b
             /\ data b1 = data b /\ loop_counters b1 = loop_counters b.
Proof.
  unfold set_header_string. destruct (parse_twix_header h) as [hp| |]; [|discriminate..].
  cbn [bind]. intros [= <-]. by exists hp.
Qed.

Lemma loader_inv fuel input b :
  loader fuel input = Some (Ok b) ->
  exists v b0 f0 h hp,
    scan_loop (scan_of v) fuel b0 f0 = Some (Ok b)
    /\ parse_twix_header h = Ok hp
    /\ header_params b0 = Some hp /\ np b0 = None /\ num_channels b0 = None
    /\ data b0 = [] /\ loop_counters b0 = [].
Proof.
  unfold loader. destruct (is_vd _ _).
  - unfold load_twix_vd.
    destruct (header_vd new_builder (open_rb input)) as [[b0 f0]| |] eqn:E;
      [|discriminate..].
    intros H. unfold header_vd in E. repeat rstep E.
    apply lift_inv in E as [E _]. apply set_header_string_inv in E
      as (hp & Hp & Hh & Hn & Hc & Hd & Hl).
    eexists VariantB, b0, f0, _, hp. repeat split; eauto.
  - unfold load_twix_vb.
    destruct (header_vb new_builder (open_rb input)) as [[b0 f0]| |] eqn:E;
      [|discriminate..].
    intros H. unfold header_vb in E. repeat rstep E.
    apply lift_inv in E as [E _]. apply set_header_string_inv in E
      as (hp & Hp & Hh & Hn & Hc & Hd & Hl).
    eexists VariantA, b0, f0, _, hp. repeat split; eauto.
Qed.

Lemma forallb_Forall {A} (p : A -> bool) (l : list A) :
  forallb p l = true -> Forall (fun x => p x = true) l.
Proof.
  induction l as [|x l IH]; cbn [forallb]; [constructor|].
  intros H. apply andb_prop in H as [Hx Hl]. constructor; auto.
Qed.

Lemma build_mrsdata_inv b r :
  build_mrsdata b = Ok r ->
  loop_counters b <> []
  /\ exists nc n hp,
       num_channels b = Some nc /\ np b = Some n /\ header_params b = Some hp
       /\ r = {| mrs_data := squeeze (scatter (loop_counters b) (data b) nc n);
                 mrs_dt := dt hp;
                 mrs_f0 := f0 hp;
                 mrs_metadata :=
                   {| md_patient_name := patient_name hp;
                      md_patient_id := patient_id hp;
                      md_patient_birthdate := patient_birthdate hp |} |}.
Proof.
  intros H.
  destruct (build_mrsdata_ok _ _ H) as (nc & n & hp & Hc & Hn & Hh & Hne & _ & _ & _ & _ & ->).
  split; [done|]. by exists nc, n, hp.
Qed.

(** A successful [load_twix] assembled its result from a builder that
    one of the two loaders filled from the file: the builder holds at
    least one scan, its scans are well formed (one tuple of 14 counters
    per matrix, every matrix of the one channel count and the one sample
    count), and the result is the squeezed scatter of these scans with
    the dwell time, the frequency and the patient fields of the parsed
    header. *)
Theorem load_twix_assembles_well_formed_scans (fuel : nat) (input : list byte)
        (r : MRSData) :
  load_twix fuel input = Some (Ok r) ->
  exists b nc n hp,
    loader fuel input = Some (Ok b)
    /\ well_formed b = true
    /\ loop_counters b <> []
    /\ num_channels b = Some nc /\ np b = Some n /\ header_params b = Some hp
    /\ Forall (fun m => has_shape nc n m = true) (data b)
    /\ r = {| mrs_data := squeeze (scatter (loop_counters b) (data b) nc n);
              mrs_dt := dt hp;
              mrs_f0 := f0 hp;
              mrs_metadata :=
                {| md_patient_name := patient_name hp;
                   md_patient_id := patient_id hp;
                   md_patient_birthdate := patient_birthdate hp |} |}.
Proof.
  intros H. pose proof (load_twix_long _ _ _ H) as Hlen.
  rewrite load_twix_loader in H by done.
  destruct (loader fuel input) as [[b| |]|] eqn:El; [|discriminate..].
  injection H as H.
  destruct (loader_inv _ _ _ El) as (v & b0 & f0 & h & hp0 & Hloop & _ & Hh0 & Hn0 & Hc0 & Hd0 & Hl0).
  destruct (scan_loop_continues _ _ _ _ _ Hloop) as (_ & _ & _ & _ & Hw).
  assert (Hw0 : well_formed b0 = true).
  { unfold well_formed. by rewrite Hd0, Hl0. }
  specialize (Hw Hw0).
  destruct (build_mrsdata_inv _ _ H) as (Hne & nc & n & hp & Hc & Hn & Hh & Hr).
  exists b, nc, n, hp. repeat (split; [done|]). split; [|done].
  unfold well_formed in Hw. rewrite Hc, Hn in Hw.
  apply andb_prop in Hw as [_ Hs].
  destruct (data b) as [|m0 ms]; [constructor|]. by apply forallb_Forall.
Qed.


Lemma load_twix_assembles_well_formed_scans_witness :
  exists r b,
    load_twix 2 sample_container = Some (Ok r)
    /\ loader 2 sample_container = Some (Ok b)
    /\ well_formed b = true
    /\ shape (mrs_data r) = [2; 4]%nat.
Proof.
  destruct (load_twix 2 sample_container) as [[r| |]|] eqn:E;
    try (vm_compute in E; discriminate).
  destruct (load_twix_assembles_well_formed_scans _ _ _ E)
    as (b & nc & n & hp & Hl & Hw & _ & _ & _ & _ & _ & Hr).
  exists r, b. split; [reflexivity|]. split; [exact Hl|]. split; [exact Hw|].
  vm_compute in E. injection E as <-. reflexivity.
Defined.

Lemma seek_inv p f u f' : seek p f = Ok (u, f') -> 0 <= p /\ f' = at_pos f p.
Proof.
  unfold seek. destruct (p <? 0) eqn:E; [discriminate|].
  destruct (2 ^ 63 <=? p); [discriminate|]. intros [= _ <-]. split; [lia|done].
Qed.

Lemma unpack_uint_inv n bs v : unpack_uint n bs = Ok v -> length bs = n /\ v = le_Z bs.
Proof.
  unfold unpack_uint. destruct (_ =? _)%nat eqn:E; [|discriminate].
  intros [= <-]. by apply Nat.eqb_eq in E.
Qed.

Lemma unpack_unused_inv n bs u : unpack_unused n bs = Ok u -> length bs = n.
Proof.
  unfold unpack_unused. destruct (_ =? _)%nat eqn:E; [|discriminate].
  intros _. by apply Nat.eqb_eq in E.
Qed.

Lemma read_bytes_at n f bs f' (k : nat) :
  0 <= pos f -> read n f = Ok (bs, f') -> length bs = k ->
  bs = bytes_at (content f) (pos f) k /\ f' = at_pos f (pos f + Z.of_nat k).
Proof.
  intros H0 H Hk. destruct (read_inv _ _ _ _ H) as [Hb Hf].
  rewrite Hk in Hb, Hf. done.
Qed.

(** The header block of a variant A file: the length word, then the
    header, whose text is all but its last 24 bytes. *)
Lemma header_vb_inv b input b0 f0 :
  header_vb b (open_rb input) = Ok (b0, f0) ->
  exists header f1 hp,
    length (take 4 input) = 4%nat
    /\ read (le_Z (take 4 input) - 4) (at_pos (open_rb input) 4) = Ok (header, f1)
    /\ parse_twix_header (decode_latin1 (but_last 24 header)) = Ok hp
    /\ header_params b0 = Some hp.
Proof.
  intros H. unfold header_vb in H. repeat rstep H.
  apply lift_inv in H as [H _].
  apply set_header_string_inv in H as (hp & Hp & Hh & _).
  match goal with E : read 4 _ = _ |- _ =>
    apply read_inv in E as [E Ef]; cbn [open_rb pos content] in E, Ef end.
  match goal with E : lift (unpack_uint 4 _) _ = _ |- _ =>
    apply lift_inv in E as [E ->]; apply unpack_uint_inv in E as [E4 ->] end.
  change (Z.to_nat 0) with 0%nat in *. rewrite drop_0 in *.
  match goal with E : ?l = take (length ?l) input |- _ => rewrite E4 in E; subst l end.
  rewrite E4 in Ef. change (0 + Z.of_nat 4) with 4 in Ef. subst.
  match goal with E : read _ _ = Ok (?h, ?g) |- _ => exists h, g, hp end.
  split; [done|]. split; [|done].
  match goal with E : read _ _ = _ |- _ => exact E end.
Qed.

(** The header block of a variant B file: found through the index entry
    of the last measurement, whose offset field points to the length
    word; the header text is the whole of the header. *)
Lemma header_vd_inv b input b0 f0 :
  header_vd b (open_rb input) = Ok (b0, f0) ->
  let num_measurements := le_Z (take 4 (drop 4 input)) in
  let entry := bytes_at input (8 + 152 * (num_measurements - 1)) 152 in
  let offset := le_Z (slice 8 16 entry) in
  exists header f1 hp,
    1 <= num_measurements
    /\ length entry = 152%nat
    /\ length (bytes_at input offset 4) = 4%nat
    /\ read (le_Z (bytes_at input offset 4) - 4) (at_pos (open_rb input) (offset + 4))
       = Ok (header, f1)
    /\ parse_twix_header (decode_latin1 header) = Ok hp
    /\ header_params b0 = Some hp.
Proof.
  intros H. unfold header_vd in H. repeat rstep H.
  apply lift_inv in H as [H _].
  apply set_header_string_inv in H as (hp & Hp & Hh & _).
  repeat match goal with
         | E : lift _ _ = Ok _ |- _ => apply lift_inv in E as [E ->]
         end.
  repeat match goal with
         | E : unpack_unused _ _ = Ok _ |- _ => apply unpack_unused_inv in E
         | E : unpack_uint _ _ = Ok _ |- _ => apply unpack_uint_inv in E as [E ->]
         end.
  match goal with E : unpack_uints 4 2 ?l = Ok ?l0 |- _ =>
    unfold unpack_uints in E; destruct (length l =? 2 * 4)%nat eqn:E8 in E; [|discriminate];
    injection E as <-; apply Nat.eqb_eq in E8; rename l into ids end.
  match goal with E : read 8 _ = _ |- _ =>
    apply (read_bytes_at _ _ _ _ 8) in E as [-> ->]; [|cbn [pos at_pos open_rb]; lia|done] end.
  cbn [open_rb pos content at_pos] in *.
  cbn [nth] in *.
  assert (Hn : le_Z (take 4 (drop 4 (bytes_at input 0 8))) = le_Z (take 4 (drop 4 input))).
  { unfold bytes_at. change (Z.to_nat 0) with 0%nat. rewrite drop_0.
    rewrite (skipn_firstn_comm 4 8), take_take. done. }
  rewrite Hn in *. clear Hn.
  match goal with E : seek (8 + _) _ = _ |- _ => apply seek_inv in E as [Hs ->] end.
  match goal with E : read 152 _ = _ |- _ =>
    apply (read_bytes_at _ _ _ _ 152) in E as [-> ->]; [|cbn [pos at_pos open_rb]; lia|done] end.
  cbn [pos content at_pos open_rb] in *.
  match goal with E : seek (le_Z _) _ = _ |- _ => apply seek_inv in E as [Ho ->] end.
  match goal with E : read 4 _ = _ |- _ =>
    apply (read_bytes_at _ _ _ _ 4) in E as [-> ->]; [|cbn [pos at_pos open_rb]; lia|done] end.
  cbn [pos content at_pos open_rb] in *.
  match goal with E : read _ _ = Ok (?h, ?g) |- _ => exists h, g, hp end.
  split; [lia|]. split; [done|]. split; [done|].
  split; [|done].
  match goal with E : read _ _ = _ |- _ => exact E end.
Qed.

(** The dwell time, the frequency and the patient fields [load_twix]
    returns are those [parse_twix_header] finds in the header text of the
    file: for variant A the header block after the length word without
    its last 24 bytes, for variant B the whole header block that the
    index entry of the last measurement points to, each decoded as
    latin-1. *)
Theorem load_twix_returns_parsed_header (fuel : nat) (input : list byte) (r : MRSData) :
  load_twix fuel input = Some (Ok r) ->
  let first_uint := le_Z (take 4 input) in
  let second_uint := le_Z (take 4 (drop 4 input)) in
  let entry := bytes_at input (8 + 152 * (second_uint - 1)) 152 in
  let offset := le_Z (slice 8 16 entry) in
  exists header f1 hp,
    (if is_vd first_uint second_uint
     then read (le_Z (bytes_at input offset 4) - 4) (at_pos (open_rb input) (offset + 4))
          = Ok (header, f1)
          /\ parse_twix_header (decode_latin1 header) = Ok hp
     else read (first_uint - 4) (at_pos (open_rb input) 4) = Ok (header, f1)
          /\ parse_twix_header (decode_latin1 (but_last 24 header)) = Ok hp)
    /\ mrs_dt r = dt hp /\ mrs_f0 r = f0 hp
    /\ mrs_metadata r = {| md_patient_name := patient_name hp;
                           md_patient_id := patient_id hp;
                           md_patient_birthdate := patient_birthdate hp |}.
Proof.
  intros H first_uint second_uint entry offset.
  pose proof (load_twix_long _ _ _ H) as Hlen.
  rewrite load_twix_loader in H by done.
  destruct (loader fuel input) as [[b| |]|] eqn:El; [|discriminate..].
  injection H as H.
  destruct (build_mrsdata_inv _ _ H) as (_ & nc & n & hp & _ & _ & Hh & ->).
  cbn [mrs_dt mrs_f0 mrs_metadata].
  unfold loader in El. fold first_uint second_uint in El.
  destruct (is_vd first_uint second_uint).
  - unfold load_twix_vd in El.
    destruct (header_vd new_builder (open_rb input)) as [[b0 f0]| |] eqn:E;
      [|discriminate..].
    destruct (scan_loop_continues VariantB _ _ _ _ El) as (Hk & _).
    destruct (header_vd_inv _ _ _ _ E) as (header & f1 & hp0 & _ & _ & _ & Hr & Hp & Hh0).
    assert (hp0 = hp) as -> by congruence.
    by exists header, f1, hp.
  - unfold load_twix_vb in El.
    destruct (header_vb new_builder (open_rb input)) as [[b0 f0]| |] eqn:E;
      [|discriminate..].
    destruct (scan_loop_continues VariantA _ _ _ _ El) as (Hk & _).
    destruct (header_vb_inv _ _ _ _ E) as (header & f1 & hp0 & _ & Hr & Hp & Hh0).
    assert (hp0 = hp) as -> by congruence.
    by exists header, f1, hp.
Qed.

Lemma load_twix_returns_parsed_header_witness :
  exists r hp,
    load_twix 2 sample_container = Some (Ok r)
    /\ parse_twix_header sample_header_plain = Ok hp
    /\ mrs_dt r = dt hp /\ mrs_f0 r = f0 hp
    /\ md_patient_id (mrs_metadata r) = str "AB12".
Proof.
  destruct (load_twix 2 sample_container) as [[r| |]|] eqn:E;
    try (vm_compute in E; discriminate).
  destruct (load_twix_returns_parsed_header _ _ _ E)
    as (header & f1 & hp & Hv & Hdt & Hf0 & Hm).
  change (is_vd (le_Z (take 4 sample_container)) (le_Z (take 4 (drop 4 sample_container))))
    with false in Hv.
  destruct Hv as [Hr Hp].
  vm_compute in Hr. injection Hr as <- _.
  exists r, hp. split; [reflexivity|]. split; [exact Hp|].
  split; [exact Hdt|]. split; [exact Hf0|].
  vm_compute in E. injection E as <-. reflexivity.
Defined.

End Load.


(** ** The channels of a variant B record *)

Section ChannelLayoutVd.

(** In variant B the record header has 192 bytes and every channel has a
    32-byte header of its own before its samples: for an accepted data
    record with [n] samples, channel [c] starts at [record + 192 + c * (32
    + 8 n)], its samples 32 bytes later; sample [k] has the float at byte
    [8 k] as real part and the negated float at byte [8 k + 4] as
    imaginary part, and the channel's row is the window of these samples
    from the FID-start offset plus the dummy-point count on. *)
Theorem vd_channel_decoding (b : TwixBuilder) (f : file) ctl b' f' :
  0 <= pos f ->
  is_data_record VariantB (content f) (pos f) = true ->
  scan_vd b f = Ok (ctl, b', f') ->
  let n := num_samples_at VariantB (content f) (pos f) in
  let d := Z.to_nat (sample_start_at VariantB (content f) (pos f)) in
  let C := Z.to_nat (num_channels_at VariantB (content f) (pos f)) in
  exists (u : nat) (m : matrix),
    data b' = data b ++ [m] /\ length m = C
    /\ forall c : nat, (c < C)%nat ->
         let channel_header := pos f + 192 + Z.of_nat c * (32 + 8 * n) in
         channel_header + 32 + 8 * n <= Z.of_nat (length (content f))
         /\ m !! c = Some (slice d (d + u) (samples_at (content f) (channel_header + 32) n))
         /\ forall k : nat, Z.of_nat k < n ->
              samples_at (content f) (channel_header + 32) n !! k
              = Some {| re_part := le_Z (bytes_at (content f)
                                           (channel_header + 32 + 8 * Z.of_nat k) 4);
                        im_part := fneg (le_Z (bytes_at (content f)
                                                 (channel_header + 32 + 8 * Z.of_nat k + 4) 4)) |}.
Proof.
  intros H0 Hdata H n d C.
  destruct (scan_data_record VariantB b f ctl b' f' H0 Hdata H)
    as (u & m & Hu & Hd & Hnp & Hlen & Hrows).
  exists u, m. split; [done|]. split; [done|].
  intros c Hc. cbv zeta. destruct (Hrows c Hc) as (Hb & Hrow & _).
  unfold channel_samples_offset in Hb, Hrow. fold n in Hb, Hrow.
  split; [lia|]. split; [done|].
  intros k Hk. apply samples_at_lookup; [|done].
  assert (0 <= n) by (unfold n, num_samples_at; apply le_Z_nonneg). nia.
Qed.

Lemma vd_channel_decoding_witness :
  exists ctl b' f',
    scan_vd new_builder (open_rb vd_two_channel_stream) = Ok (ctl, b', f')
    /\ exists m : matrix,
         data b' = data new_builder ++ [m] /\ length m = 2%nat.
Proof.
  destruct (scan_vd new_builder (open_rb vd_two_channel_stream)) as [[[ctl b'] f']| |] eqn:H.
  - exists ctl, b', f'. split; [reflexivity|].
    destruct (vd_channel_decoding new_builder (open_rb vd_two_channel_stream) ctl b' f')
      as (u & m & Hd & Hlen & _).
    + simpl. lia.
    + reflexivity.
    + exact H.
    + exists m. split; [exact Hd|exact Hlen].
  - vm_compute in H. discriminate.
  - vm_compute in H. discriminate.
Defined.

End ChannelLayoutVd.


(** ** A file without scans *)

Section NoScan.

Lemma le_Z_bound bs : le_Z bs < 256 ^ Z.of_nat (length bs).
Proof.
  induction bs as [|b bs IH]; cbn [le_Z length]; [done|].
  pose proof (code_bounds b). pose proof (le_Z_nonneg bs).
  rewrite Nat2Z.inj_succ, Z.pow_succ_r by lia. lia.
Qed.

Lemma header_vb_spec b input :
  4 <= le_Z (take 4 input) -> le_Z (take 4 input) <= Z.of_nat (length input) ->
  header_vb b (open_rb input)
  = match set_header_string b
            (decode_latin1
               (but_last 24 (bytes_at input 4 (Z.to_nat (le_Z (take 4 input) - 4))))) with
    | Ok b1 => Ok (b1, at_pos (open_rb input) (le_Z (take 4 input)))
    | Raise e => Raise e
    | Unmodelled => Unmodelled
    end.
Proof.
  intros H4 Hlen. unfold header_vb.
  rewrite (bind_read_uint 4) by lia. cbn [open_rb content pos].
  change (Z.to_nat 4) with 4%nat.
  rewrite length_bytes_at by (cbn [content open_rb]; unfold byte in *; lia). cbn [Nat.eqb].
  assert (Ht : bytes_at input 0 4 = take 4 input) by (unfold bytes_at; by rewrite drop_0).
  rewrite Ht.
  rewrite bind_read by lia. cbn [at_pos content pos open_rb].
  rewrite length_bytes_at by (cbn [content open_rb]; unfold byte in *; lia).
  unfold lift. cbv zeta.
  replace (0 + 4 + Z.of_nat (Z.to_nat (le_Z (take 4 input) - 4)))
    with (le_Z (take 4 input)) by lia.
  replace (0 + 4) with 4 by lia. reflexivity.
Qed.

(** A variant A file whose first record after the header is the end of
    acquisition holds no scan: the header is parsed, the loop ends at
    once, and building the result raises ValueError (the maximum of no
    loop counters). *)
Theorem load_twix_vb_without_scan (input : list byte) (hp : header_params_t) :
  4 <= le_Z (take 4 input) ->
  le_Z (take 4 input) + 28 <= Z.of_nat (length input) ->
  parse_twix_header
    (decode_latin1 (but_last 24 (bytes_at input 4 (Z.to_nat (le_Z (take 4 input) - 4)))))
  = Ok hp ->
  Z.testbit (le_Z (bytes_at input (le_Z (take 4 input) + 20) 8)) 0 = true ->
  forall fuel, load_twix (S fuel) input = Some (Raise ValueError).
Proof.
  intros H4 Hlen Hp Hend fuel.
  rewrite load_twix_loader by (unfold byte in *; lia). unfold loader, is_vd.
  destruct (le_Z (take 4 input) =? 0) eqn:E0; [lia|]. cbn [andb].
  unfold load_twix_vb. rewrite header_vb_spec by (unfold byte in *; lia).
  unfold set_header_string. rewrite Hp. cbn [bind].
  set (b1 := {| header_params := Some hp |}).
  set (f1 := at_pos (open_rb input) (le_Z (take 4 input))).
  pose proof (le_Z_bound (take 4 input)) as Hb.
  assert (length (take 4 input) <= 4)%nat by (rewrite length_take; lia).
  assert (Hb' : le_Z (take 4 input) < 256 ^ 4).
  { eapply Z.lt_le_trans; [exact Hb|]. apply Z.pow_le_mono_r; lia. }
  destruct (scan_vb_head b1 f1) as [Hbreak _].
  { cbn. lia. } { cbn. unfold byte in *. lia. } { cbn. lia. }
  cbn [scan_loop]. rewrite Hbreak by exact Hend.
  reflexivity.
Qed.

Lemma load_twix_vb_without_scan_witness :
  load_twix 1 header_only_container = Some (Raise ValueError).
Proof.
  eapply (load_twix_vb_without_scan header_only_container).
  - apply Z.leb_le. vm_compute. reflexivity.
  - apply Z.leb_le. vm_compute. reflexivity.
  - vm_compute. reflexivity.
  - vm_compute. reflexivity.
Defined.

End NoScan.


(** ** Where a data record leaves the stream *)

Section RecordAdvance.

Ltac rstep H :=
  unfold rbind at 1 in H;
  match type of H with
  | match ?m ?f with _ => _ end = _ =>
      let E := fresh "E" in destruct (m f) as [[? ?]| |] eqn:E; [|discriminate..]
  end.

Ltac inv_if H :=
  cbn [at_pos content pos] in H;
  match type of H with
  | (if ?c then _ else _) _ = _ =>
      let E := fresh "E" in destruct c eqn:E; [apply Nat.eqb_eq in E | discriminate]
  | (if ?c then _ else _) = _ =>
      let E := fresh "E" in destruct c eqn:E; [apply Nat.eqb_eq in E | discriminate]
  end.

Ltac inv_uint H n := rewrite (bind_read_uint n) in H by lia; inv_if H.
Ltac inv_unused H n := rewrite (bind_read_unused n) in H by lia; inv_if H.
Ltac inv_uints H n w c :=
  rewrite (bind_read_uints n w c) in H by first [reflexivity | lia]; inv_if H.
Ltac inv_lift H x :=
  rewrite bind_lift in H;
  match type of H with
  | match ?r with _ => _ end = _ =>
      let E := fresh "E" in destruct r as [x| |] eqn:E; [|discriminate..]
  end.

Lemma read_content n f bs f' : read n f = Ok (bs, f') -> content f' = content f.
Proof. intros H. apply read_inv in H as [_ ->]. done. Qed.

Lemma channels_vb_content : forall C n d u f m f',
  channels_vb C n d u f = Ok (m, f') -> content f' = content f.
Proof.
  induction C as [|C IH]; intros n d u f m f' H; cbn [channels_vb] in H.
  - unfold ret in H. by injection H as _ <-.
  - repeat rstep H. unfold ret in H. injection H as _ <-.
    repeat match goal with
           | E : lift _ _ = Ok _ |- _ => apply lift_inv in E as [_ ->]
           | E : channels_vb _ _ _ _ _ = Ok _ |- _ => apply IH in E
           | E : read _ _ = Ok _ |- _ => apply read_content in E
           end.
    congruence.
Qed.

Lemma channels_vd_content : forall C n d u f m f',
  channels_vd C n d u f = Ok (m, f') -> content f' = content f.
Proof.
  induction C as [|C IH]; intros n d u f m f' H; cbn [channels_vd] in H.
  - unfold ret in H. by injection H as _ <-.
  - repeat rstep H. unfold ret in H. injection H as _ <-.
    repeat match goal with
           | E : lift _ _ = Ok _ |- _ => apply lift_inv in E as [_ ->]
           | E : channels_vd _ _ _ _ _ = Ok _ |- _ => apply IH in E
           | E : read _ _ = Ok _ |- _ => apply read_content in E
           end.
    congruence.
Qed.

Lemma scan_vb_record (b : TwixBuilder) (f : file) ctl b' f' :
  0 <= pos f ->
  scan_vb b f = Ok (ctl, b', f') ->
  Z.testbit (le_Z (bytes_at (content f) (pos f + 20) 8)) 0 = false ->
  skip_flags (le_Z (bytes_at (content f) (pos f + 20) 8)) = false ->
  ctl = Continue
  /\ f' = at_pos f (pos f + le_Z (bytes_at (content f) (pos f) 4) mod 2 ^ 26)
  /\ loop_counters b' = loop_counters b ++ [loop_counters_at VariantA (content f) (pos f)]
  /\ num_channels b' = Some (Z.to_nat (le_Z (bytes_at (content f) (pos f + 30) 2))).
Proof.
  intros H0 H Hend Hskip.
  unfold scan_vb in H. rewrite bind_tell in H.
  inv_uint H 4. inv_unused H 16. inv_uint H 8.
  replace (pos f + 4 + 16) with (pos f + 20) in H by lia.
  change (Z.to_nat 8) with 8%nat in H.
  rewrite truthy_land_1, Hend in H. rewrite !truthy_flag in H by lia.
  unfold skip_flags in Hskip. rewrite Hskip in H.
  inv_uints H 4 2%nat 2%nat.
  assert (HC : nth 1 (map le_Z (chunks 2 2 (bytes_at (content f) (pos f + 20 + 8) (Z.to_nat 4)))) 0
               = le_Z (bytes_at (content f) (pos f + 30) 2)).
  { replace (pos f + 30) with (pos f + 20 + 8 + Z.of_nat (1 * 2)) by lia.
    apply (field_at _ _ 2 2 1); lia. }
  rewrite HC in H.
  inv_lift H b0.
  inv_uints H 28 2%nat 14%nat. inv_unused H 12. inv_unused H 8.
  inv_uints H 8 2%nat 4%nat. inv_uints H 8 2%nat 4%nat.
  inv_lift H u. inv_lift H b1. inv_unused H 28.
  unfold rbind at 1 in H.
  destruct (channels_vb _ _ _ _ _) as [[m g]| |] eqn:Hch in H; [|discriminate..].
  apply channels_vb_content in Hch. cbn [at_pos content] in Hch.
  cbv zeta in H. unfold rbind, seek, ret in H.
  destruct (_ <? 0) in H; [discriminate|]. destruct (_ <=? _) in H; [discriminate|].
  inversion H; subst ctl b' f'; clear H.
  match goal with
  | E1 : set_num_channels _ _ = Ok _, E2 : set_np _ _ = Ok _ |- _ =>
      apply set_num_channels_inv in E1 as (_ & Hc1 & _ & _ & _ & Hl1);
      apply set_np_inv in E2 as (_ & _ & Hc2 & _ & _ & Hl2)
  end.
  split; [done|]. split.
  { unfold at_pos. rewrite Hch. f_equal. f_equal. apply dma_length_low_bits. }
  cbn [add_scan loop_counters num_channels]. rewrite Hl2, Hl1, Hc2, Hc1.
  split; [|done]. replace (pos f + 20 + 8 + 4) with (pos f + 32) by lia. reflexivity.
Qed.

Lemma scan_vd_record (b : TwixBuilder) (f : file) ctl b' f' :
  0 <= pos f ->
  scan_vd b f = Ok (ctl, b', f') ->
  Z.testbit (le_Z (bytes_at (content f) (pos f + 40) 8)) 0 = false ->
  skip_flags (le_Z (bytes_at (content f) (pos f + 40) 8)) = false ->
  ctl = Continue
  /\ f' = at_pos f (pos f + le_Z (bytes_at (content f) (pos f) 4) mod 2 ^ 26)
  /\ loop_counters b' = loop_counters b ++ [loop_counters_at VariantB (content f) (pos f)]
  /\ num_channels b' = Some (Z.to_nat (le_Z (bytes_at (content f) (pos f + 50) 2))).
Proof.
  intros H0 H Hend Hskip.
  unfold scan_vd in H. rewrite bind_tell in H.
  inv_uint H 4. inv_unused H 16. inv_unused H 20. inv_uint H 8.
  replace (pos f + 4 + 16 + 20) with (pos f + 40) in H by lia.
  change (Z.to_nat 8) with 8%nat in H.
  rewrite truthy_land_1, Hend in H. rewrite !truthy_flag in H by lia.
  unfold skip_flags in Hskip. rewrite Hskip in H.
  inv_uints H 4 2%nat 2%nat.
  assert (HC : nth 1 (map le_Z (chunks 2 2 (bytes_at (content f) (pos f + 40 + 8) (Z.to_nat 4)))) 0
               = le_Z (bytes_at (content f) (pos f + 50) 2)).
  { replace (pos f + 50) with (pos f + 40 + 8 + Z.of_nat (1 * 2)) by lia.
    apply (field_at _ _ 2 2 1); lia. }
  rewrite HC in H.
  inv_lift H b0.
  inv_uints H 28 2%nat 14%nat. inv_unused H 12. inv_unused H 8. inv_unused H 28.
  inv_uints H 48 2%nat 24%nat. inv_uints H 8 2%nat 4%nat.
  inv_lift H u. inv_lift H b1. inv_unused H 8.
  unfold rbind at 1 in H.
  destruct (channels_vd _ _ _ _ _) as [[m g]| |] eqn:Hch in H; [|discriminate..].
  apply channels_vd_content in Hch. cbn [at_pos content] in Hch.
  cbv zeta in H. unfold rbind, seek, ret in H.
  destruct (_ <? 0) in H; [discriminate|]. destruct (_ <=? _) in H; [discriminate|].
  inversion H; subst ctl b' f'; clear H.
  match goal with
  | E1 : set_num_channels _ _ = Ok _, E2 : set_np _ _ = Ok _ |- _ =>
      apply set_num_channels_inv in E1 as (_ & Hc1 & _ & _ & _ & Hl1);
      apply set_np_inv in E2 as (_ & _ & Hc2 & _ & _ & Hl2)
  end.
  split; [done|]. split.
  { unfold at_pos. rewrite Hch. f_equal. f_equal. apply dma_length_low_bits. }
  cbn [add_scan loop_counters num_channels]. rewrite Hl2, Hl1, Hc2, Hc1.
  split; [|done]. replace (pos f + 40 + 8 + 4) with (pos f + 52) by lia. reflexivity.
Qed.

(** After an accepted data record of either variant the loop goes on at
    the record's start plus the low 26 bits of its leading word, however
    many bytes the channels took; the scan it appended has the record's
    14 loop counters as its index tuple, and the builder's channel count
    is the record's. *)
Theorem data_record_advances_by_dma_length (v : variant) (b : TwixBuilder) (f : file)
        ctl b' f' :
  0 <= pos f ->
  is_data_record v (content f) (pos f) = true ->
  scan_of v b f = Ok (ctl, b', f') ->
  ctl = Continue
  /\ f' = at_pos f (pos f + Z.land (le_Z (bytes_at (content f) (pos f) 4)) (Z.ones 26))
  /\ loop_counters b' = loop_counters b ++ [loop_counters_at v (content f) (pos f)]
  /\ num_channels b' = Some (Z.to_nat (num_channels_at v (content f) (pos f))).
Proof.
  intros H0 Hdata H.
  apply is_data_record_flags in Hdata as [Hend Hskip].
  rewrite Z.land_ones by lia.
  destruct v; cbn [scan_of flag_word_offset num_channels_at] in *.
  - by apply scan_vb_record.
  - by apply scan_vd_record.
Qed.

Lemma data_record_advances_by_dma_length_witness :
  exists b' f',
    scan_vb new_builder (open_rb two_channel_stream) = Ok (Continue, b', f')
    /\ pos f' = 384
    /\ loop_counters b' = [replicate 14 0%nat]
    /\ num_channels b' = Some 2%nat.
Proof.
  destruct (scan_vb new_builder (open_rb two_channel_stream)) as [[[ctl b'] f']| |] eqn:H;
    try (vm_compute in H; discriminate).
  destruct (data_record_advances_by_dma_length VariantA new_builder
              (open_rb two_channel_stream) ctl b' f') as (-> & -> & Hl & Hc).
  - simpl. lia.
  - reflexivity.
  - exact H.
  - eexists _, _. split; [reflexivity|]. split; [vm_compute; reflexivity|].
    split; [rewrite Hl; vm_compute; reflexivity|].
    rewrite Hc. vm_compute. reflexivity.
Defined.

End RecordAdvance.


(** ** Records that disagree with the builder *)

Section Inconsistent.

Ltac forward_read n :=
  first [ rewrite (bind_read_uint n) by lia
        | rewrite (bind_read_unused n) by lia ];
  cbn [at_pos content pos];
  let m := eval compute in (Z.to_nat n) in change (Z.to_nat n) with m;
  rewrite length_bytes_at by lia;
  rewrite Nat.eqb_refl.

Ltac forward_uints n w c :=
  rewrite (bind_read_uints n w c) by first [reflexivity | lia];
  cbn [at_pos content pos];
  let m := eval compute in (Z.to_nat n) in change (Z.to_nat n) with m;
  rewrite length_bytes_at by lia;
  rewrite Nat.eqb_refl.

Lemma set_num_channels_differs b c C :
  num_channels b = Some c -> c <> C -> set_num_channels b C = Raise ValueError.
Proof.
  intros Hb Hne. unfold set_num_channels. rewrite Hb.
  destruct (c =? C)%nat eqn:E; [|done]. apply Nat.eqb_eq in E. done.
Qed.

Lemma scan_vb_channel_count b f (c : nat) :
  0 <= pos f -> pos f + 32 <= Z.of_nat (length (content f)) ->
  Z.testbit (le_Z (bytes_at (content f) (pos f + 20) 8)) 0 = false ->
  skip_flags (le_Z (bytes_at (content f) (pos f + 20) 8)) = false ->
  num_channels b = Some c ->
  c <> Z.to_nat (le_Z (bytes_at (content f) (pos f + 30) 2)) ->
  scan_vb b f = Raise ValueError.
Proof.
  intros H0 Hlen Hend Hskip Hb Hne.
  unfold scan_vb. rewrite bind_tell.
  forward_read 4. forward_read 16. forward_read 8.
  replace (pos f + 4 + 16) with (pos f + 20) by lia.
  rewrite truthy_land_1, Hend. rewrite !truthy_flag by lia.
  unfold skip_flags in Hskip. rewrite Hskip.
  forward_uints 4 2%nat 2%nat.
  assert (HC : nth 1 (map le_Z (chunks 2 2 (bytes_at (content f) (pos f + 20 + 8) 4))) 0
               = le_Z (bytes_at (content f) (pos f + 30) 2)).
  { replace (pos f + 30) with (pos f + 20 + 8 + Z.of_nat (1 * 2)) by lia.
    apply (field_at _ _ 2 2 1); lia. }
  rewrite HC. rewrite bind_lift.
  by rewrite (set_num_channels_differs _ _ _ Hb Hne).
Qed.

Lemma scan_vd_channel_count b f (c : nat) :
  0 <= pos f -> pos f + 52 <= Z.of_nat (length (content f)) ->
  Z.testbit (le_Z (bytes_at (content f) (pos f + 40) 8)) 0 = false ->
  skip_flags (le_Z (bytes_at (content f) (pos f + 40) 8)) = false ->
  num_channels b = Some c ->
  c <> Z.to_nat (le_Z (bytes_at (content f) (pos f + 50) 2)) ->
  scan_vd b f = Raise ValueError.
Proof.
  intros H0 Hlen Hend Hskip Hb Hne.
  unfold scan_vd. rewrite bind_tell.
  forward_read 4. forward_read 16. forward_read 20. forward_read 8.
  replace (pos f + 4 + 16 + 20) with (pos f + 40) by lia.
  rewrite truthy_land_1, Hend. rewrite !truthy_flag by lia.
  unfold skip_flags in Hskip. rewrite Hskip.
  forward_uints 4 2%nat 2%nat.
  assert (HC : nth 1 (map le_Z (chunks 2 2 (bytes_at (content f) (pos f + 40 + 8) 4))) 0
               = le_Z (bytes_at (content f) (pos f + 50) 2)).
  { replace (pos f + 50) with (pos f + 40 + 8 + Z.of_nat (1 * 2)) by lia.
    apply (field_at _ _ 2 2 1); lia. }
  rewrite HC. rewrite bind_lift.
  by rewrite (set_num_channels_differs _ _ _ Hb Hne).
Qed.

(** A data record whose channel count is not the one the builder already
    holds makes the turn, and with it the whole load, raise ValueError as
    soon as the count is read; no scan is added. *)
Theorem inconsistent_channel_count_is_refused (v : variant) (b : TwixBuilder) (f : file)
        (c : nat) :
  0 <= pos f ->
  pos f + flag_word_offset v + 12 <= Z.of_nat (length (content f)) ->
  is_data_record v (content f) (pos f) = true ->
  num_channels b = Some c ->
  c <> Z.to_nat (num_channels_at v (content f) (pos f)) ->
  scan_of v b f = Raise ValueError
  /\ forall fuel, scan_loop (scan_of v) (S fuel) b f = Some (Raise ValueError).
Proof.
  intros H0 Hlen Hdata Hb Hne.
  apply is_data_record_flags in Hdata as [Hend Hskip].
  assert (Hs : scan_of v b f = Raise ValueError).
  { destruct v; cbn [scan_of flag_word_offset num_channels_at] in *.
    - apply (scan_vb_channel_count b f c); auto. lia.
    - apply (scan_vd_channel_count b f c); auto. lia. }
  split; [exact Hs|]. intros fuel. cbn [scan_loop]. by rewrite Hs.
Qed.


Lemma inconsistent_channel_count_is_refused_witness :
  scan_loop scan_vb 1 (builder_with_counts 3 4) (open_rb two_channel_stream)
  = Some (Raise ValueError).
Proof.
  apply (proj2 (inconsistent_channel_count_is_refused VariantA (builder_with_counts 3 4)
                  (open_rb two_channel_stream) 3
                  ltac:(simpl; lia) ltac:(apply Z.leb_le; vm_compute; reflexivity)
                  eq_refl eq_refl ltac:(vm_compute; lia))).
Defined.

Lemma set_num_channels_agrees b C :
  num_channels b = None \/ num_channels b = Some C ->
  exists b0, set_num_channels b C = Ok b0 /\ np b0 = np b.
Proof.
  unfold set_num_channels. intros [Hb|Hb]; rewrite Hb.
  - eexists. split; [reflexivity|done].
  - rewrite Nat.eqb_refl. by exists b.
Qed.

Lemma set_np_differs b u0 u :
  np b = Some u0 -> u0 <> u -> set_np b u = Raise ValueError.
Proof.
  intros Hb Hne. unfold set_np. rewrite Hb.
  destruct (u0 =? u)%nat eqn:E; [|done]. apply Nat.eqb_eq in E. done.
Qed.

Lemma scan_vb_sample_count b f (u0 u : nat) :
  0 <= pos f -> pos f + 96 <= Z.of_nat (length (content f)) ->
  Z.testbit (le_Z (bytes_at (content f) (pos f + 20) 8)) 0 = false ->
  skip_flags (le_Z (bytes_at (content f) (pos f + 20) 8)) = false ->
  num_channels b = None
  \/ num_channels b = Some (Z.to_nat (le_Z (bytes_at (content f) (pos f + 30) 2))) ->
  usable_np (le_Z (bytes_at (content f) (pos f + 28) 2)
             - le_Z (bytes_at (content f) (pos f + 88) 2)) = Ok u ->
  np b = Some u0 -> u0 <> u ->
  scan_vb b f = Raise ValueError.
Proof.
  intros H0 Hlen Hend Hskip Hc Hu Hb Hne.
  unfold scan_vb. rewrite bind_tell.
  forward_read 4. forward_read 16. forward_read 8.
  replace (pos f + 4 + 16) with (pos f + 20) by lia.
  rewrite truthy_land_1, Hend. rewrite !truthy_flag by lia.
  unfold skip_flags in Hskip. rewrite Hskip.
  forward_uints 4 2%nat 2%nat.
  assert (Hn : nth 0 (map le_Z (chunks 2 2 (bytes_at (content f) (pos f + 20 + 8) 4))) 0
               = le_Z (bytes_at (content f) (pos f + 28) 2)).
  { replace (pos f + 28) with (pos f + 20 + 8 + Z.of_nat (0 * 2)) by lia.
    apply (field_at _ _ 2 2 0); lia. }
  assert (HC : nth 1 (map le_Z (chunks 2 2 (bytes_at (content f) (pos f + 20 + 8) 4))) 0
               = le_Z (bytes_at (content f) (pos f + 30) 2)).
  { replace (pos f + 30) with (pos f + 20 + 8 + Z.of_nat (1 * 2)) by lia.
    apply (field_at _ _ 2 2 1); lia. }
  rewrite Hn, HC. rewrite bind_lift.
  destruct (set_num_channels_agrees _ _ Hc) as (b0 & -> & Hnp).
  forward_uints 28 2%nat 14%nat. forward_read 12. forward_read 8.
  forward_uints 8 2%nat 4%nat. forward_uints 8 2%nat 4%nat.
  assert (Hd : nth 0 (map le_Z (chunks 2 4
              (bytes_at (content f) (pos f + 20 + 8 + 4 + 28 + 12 + 8 + 8) 8))) 0
               = le_Z (bytes_at (content f) (pos f + 88) 2)).
  { replace (pos f + 88) with (pos f + 20 + 8 + 4 + 28 + 12 + 8 + 8 + Z.of_nat (0 * 2)) by lia.
    apply (field_at _ _ 2 4 0); lia. }
  rewrite Hd. rewrite bind_lift, Hu. rewrite bind_lift.
  rewrite Hb in Hnp. by rewrite (set_np_differs _ _ _ Hnp Hne).
Qed.

Lemma scan_vd_sample_count b f (u0 u : nat) :
  0 <= pos f -> pos f + 184 <= Z.of_nat (length (content f)) ->
  Z.testbit (le_Z (bytes_at (content f) (pos f + 40) 8)) 0 = false ->
  skip_flags (le_Z (bytes_at (content f) (pos f + 40) 8)) = false ->
  num_channels b = None
  \/ num_channels b = Some (Z.to_nat (le_Z (bytes_at (content f) (pos f + 50) 2))) ->
  usable_np (le_Z (bytes_at (content f) (pos f + 48) 2)
             - (le_Z (bytes_at (content f) (pos f + 136) 2)
                + le_Z (bytes_at (content f) (pos f + 176) 2))) = Ok u ->
  np b = Some u0 -> u0 <> u ->
  scan_vd b f = Raise ValueError.
Proof.
  intros H0 Hlen Hend Hskip Hc Hu Hb Hne.
  unfold scan_vd. rewrite bind_tell.
  forward_read 4. forward_read 16. forward_read 20. forward_read 8.
  replace (pos f + 4 + 16 + 20) with (pos f + 40) by lia.
  rewrite truthy_land_1, Hend. rewrite !truthy_flag by lia.
  unfold skip_flags in Hskip. rewrite Hskip.
  forward_uints 4 2%nat 2%nat.
  assert (Hn : nth 0 (map le_Z (chunks 2 2 (bytes_at (content f) (pos f + 40 + 8) 4))) 0
               = le_Z (bytes_at (content f) (pos f + 48) 2)).
  { replace (pos f + 48) with (pos f + 40 + 8 + Z.of_nat (0 * 2)) by lia.
    apply (field_at _ _ 2 2 0); lia. }
  assert (HC : nth 1 (map le_Z (chunks 2 2 (bytes_at (content f) (pos f + 40 + 8) 4))) 0
               = le_Z (bytes_at (content f) (pos f + 50) 2)).
  { replace (pos f + 50) with (pos f + 40 + 8 + Z.of_nat (1 * 2)) by lia.
    apply (field_at _ _ 2 2 1); lia. }
  rewrite Hn, HC. rewrite bind_lift.
  destruct (set_num_channels_agrees _ _ Hc) as (b0 & -> & Hnp).
  forward_uints 28 2%nat 14%nat. forward_read 12. forward_read 8. forward_read 28.
  forward_uints 48 2%nat 24%nat. forward_uints 8 2%nat 4%nat.
  assert (Hi : nth 4 (map le_Z (chunks 2 24
              (bytes_at (content f) (pos f + 40 + 8 + 4 + 28 + 12 + 8 + 28) 48))) 0
               = le_Z (bytes_at (content f) (pos f + 136) 2)).
  { replace (pos f + 136) with (pos f + 40 + 8 + 4 + 28 + 12 + 8 + 28 + Z.of_nat (4 * 2)) by lia.
    apply (field_at _ _ 2 24 4); lia. }
  assert (Hd : nth 0 (map le_Z (chunks 2 4
              (bytes_at (content f) (pos f + 40 + 8 + 4 + 28 + 12 + 8 + 28 + 48) 8))) 0
               = le_Z (bytes_at (content f) (pos f + 176) 2)).
  { replace (pos f + 176) with (pos f + 40 + 8 + 4 + 28 + 12 + 8 + 28 + 48 + Z.of_nat (0 * 2)) by lia.
    apply (field_at _ _ 2 4 0); lia. }
  rewrite Hi, Hd. rewrite bind_lift, Hu. rewrite bind_lift.
  rewrite Hb in Hnp. by rewrite (set_np_differs _ _ _ Hnp Hne).
Qed.

(** A data record whose channel count the builder accepts but whose
    usable sample count is not the one the builder already holds makes
    the turn, and with it the whole load, raise ValueError before any
    sample is read; no scan is added.  The record's fields up to the
    dummy-point count (96 bytes in variant A, 184 in variant B) are in
    the file. *)
Theorem inconsistent_sample_count_is_refused (v : variant) (b : TwixBuilder) (f : file)
        (u0 u : nat) :
  0 <= pos f ->
  pos f + (match v with VariantA => 96 | VariantB => 184 end)
  <= Z.of_nat (length (content f)) ->
  is_data_record v (content f) (pos f) = true ->
  num_channels b = None
  \/ num_channels b = Some (Z.to_nat (num_channels_at v (content f) (pos f))) ->
  usable_np (num_samples_at v (content f) (pos f) - sample_start_at v (content f) (pos f))
  = Ok u ->
  np b = Some u0 -> u0 <> u ->
  scan_of v b f = Raise ValueError
  /\ forall fuel, scan_loop (scan_of v) (S fuel) b f = Some (Raise ValueError).
Proof.
  intros H0 Hlen Hdata Hc Hu Hb Hne.
  apply is_data_record_flags in Hdata as [Hend Hskip].
  assert (Hs : scan_of v b f = Raise ValueError).
  { destruct v;
      cbn [scan_of flag_word_offset num_channels_at num_samples_at sample_start_at] in *.
    - by apply (scan_vb_sample_count b f u0 u).
    - by apply (scan_vd_sample_count b f u0 u). }
  split; [exact Hs|]. intros fuel. cbn [scan_loop]. by rewrite Hs.
Qed.

Lemma inconsistent_sample_count_is_refused_witness :
  scan_loop scan_vb 1 (builder_with_counts 2 8) (open_rb two_channel_stream)
  = Some (Raise ValueError).
Proof.
  apply (proj2 (inconsistent_sample_count_is_refused VariantA (builder_with_counts 2 8)
                  (open_rb two_channel_stream) 8 4
                  ltac:(simpl; lia) ltac:(apply Z.leb_le; vm_compute; reflexivity)
                  eq_refl ltac:(right; vm_compute; reflexivity)
                  ltac:(vm_compute; reflexivity) eq_refl ltac:(lia))).
Defined.

End Inconsistent.


(** ** What the matcher accepts *)

Section Accepts.
Local Open Scope nat_scope.

Lemma greedy_sound {R} c (k : text -> option (text * R)) : forall s t r,
  greedy c k s = Some (t, r) ->
  exists t1 t2 rest,
    t = t1 ++ t2 /\ s = t1 ++ rest /\ Forall (fun a => c a = true) t1
    /\ k rest = Some (t2, r).
Proof.
  induction s as [|a s IH]; intros t r H; cbn [greedy] in H.
  - exists [], t, []. by destruct (k []).
  - destruct (c a) eqn:Ec.
    + destruct (greedy c k s) as [[t' r']|] eqn:E.
      * inversion H; subst. destruct (IH _ _ eq_refl) as (t1 & t2 & rest & -> & -> & Hf & Hk).
        exists (a :: t1), t2, rest. repeat split; auto.
      * exists [], t, (a :: s). auto.
    + exists [], t, (a :: s). auto.
Qed.

Lemma match_pieces_sound {R} : forall ps (k : text -> option R) s t r,
  match_pieces ps k s = Some (t, r) ->
  accepts ps t /\ exists rest, s = t ++ rest /\ k rest = Some r.
Proof.
  induction ps as [|q ps IH]; intros k s t r H.
  - cbn [match_pieces] in H. destruct (k s) eqn:E; [|discriminate]. inversion H; subst.
    split; [constructor|]. by exists s.
  - destruct q as [c|c|c]; cbn [match_pieces] in H.
    + destruct s as [|a s]; [discriminate|]. destruct (c a) eqn:Ec; [|discriminate].
      destruct (match_pieces ps k s) as [[t' r']|] eqn:E; [|discriminate].
      inversion H; subst. destruct (IH _ _ _ _ E) as (Ha & rest & -> & Hk).
      split; [by constructor|]. by exists rest.
    + apply greedy_sound in H as (t1 & t2 & rest & -> & -> & Hf & Hk).
      destruct (IH _ _ _ _ Hk) as (Ha & rest' & -> & Hk').
      split; [by constructor|]. exists rest'. by rewrite <- app_assoc.
    + destruct s as [|a s]; [discriminate|]. destruct (c a) eqn:Ec; [|discriminate].
      destruct (greedy c (match_pieces ps k) s) as [[t' r']|] eqn:E; [|discriminate].
      inversion H; subst.
      apply greedy_sound in E as (t1 & t2 & rest & -> & -> & Hf & Hk).
      destruct (IH _ _ _ _ Hk) as (Ha & rest' & -> & Hk').
      split; [by constructor|]. exists rest'. simpl. by rewrite <- app_assoc.
Qed.

Lemma match_groups_sound : forall p s gs,
  match_groups p s = Some gs -> Forall2 accepts p gs.
Proof.
  induction p as [|g p IH]; intros s gs H; cbn [match_groups] in H.
  - inversion H; subst. constructor.
  - destruct (match_pieces g (match_groups p) s) as [[t ts]|] eqn:E; [|discriminate].
    inversion H; subst.
    destruct (match_pieces_sound _ _ _ _ _ E) as (Ha & rest & -> & Hk).
    constructor; [done|]. by eapply IH.
Qed.

Lemma re_search_sound p s m : re_search p s = Some m -> Forall2 accepts p (m_groups m).
Proof.
  intros H. apply search_from_spec in H as (_ & _ & Hm). by eapply match_groups_sound.
Qed.

Lemma all_ascii_complete a : In a all_ascii.
Proof.
  unfold all_ascii. rewrite <- (ascii_nat_embedding a).
  apply in_map, in_seq. pose proof (nat_ascii_bounded a). lia.
Qed.

Lemma only_accepts_spec x c a : only_accepts x c = true -> c a = true -> a = x.
Proof.
  unfold only_accepts. intros H Ha. apply andb_prop in H as [_ H].
  rewrite forallb_forall in H. specialize (H a (all_ascii_complete a)).
  rewrite Ha in H. cbn in H. by apply Ascii.eqb_eq.
Qed.

Lemma occurrences_app x t1 t2 :
  occurrences x (t1 ++ t2) = occurrences x t1 + occurrences x t2.
Proof. apply count_occ_app. Qed.

(** A text the pieces accept has the character of each piece that
    accepts one character only. *)
Lemma accepts_forced x ps t : accepts ps t -> forced x ps <= occurrences x t.
Proof.
  induction 1 as [|c ps a t Hc _ IH|c ps t1 t2 _ _ IH|c ps a t1 t2 _ _ _ IH];
    cbn [forced].
  - lia.
  - unfold occurrences in *. cbn [count_occ].
    destruct (only_accepts x c) eqn:E.
    + rewrite (only_accepts_spec _ _ _ E Hc). destruct (ascii_dec x x); [lia|done].
    + destruct (ascii_dec a x); lia.
  - rewrite occurrences_app. lia.
  - change (a :: t1 ++ t2) with ((a :: t1) ++ t2). rewrite occurrences_app. lia.
Qed.

Lemma length_split_on sep t : length (split_on sep t) = S (occurrences sep t).
Proof.
  unfold occurrences. induction t as [|c t IH]; [done|].
  cbn [split_on count_occ].
  destruct (Ascii.eqb c sep) eqn:E.
  - apply Ascii.eqb_eq in E. subst. destruct (ascii_dec sep sep); [|done].
    cbn [length]. by rewrite IH.
  - apply Ascii.eqb_neq in E. destruct (ascii_dec c sep); [done|].
    destruct (split_on sep t); [discriminate|]. exact IH.
Qed.

End Accepts.

(** ** [parse_twix_header] *)

Section Parser.
Local Open Scope nat_scope.

Lemma quoted_line_splits ps h m :
  re_search [ps] h = Some m -> 4 <= forced dq ps ->
  exists x, index (split_on dq (group0 m)) 3 = Ok x.
Proof.
  intros H H4. apply re_search_sound in H.
  inversion H as [|? t ? ? Ha Hrest]; subst. inversion Hrest; subst.
  assert (Hg : group0 m = t ++ []) by (unfold group0; by rewrite <- H2).
  rewrite Hg, app_nil_r.
  pose proof (accepts_forced dq _ _ Ha) as Hocc.
  pose proof (length_split_on dq t) as Hlen.
  destruct (split_on dq t !! 3) as [x|] eqn:E.
  - exists x. unfold index. by rewrite E.
  - apply lookup_ge_None in E. lia.
Qed.

Lemma parse_int_cases t :
  (parse_int t = Ok (int_of_digits t) /\ length t <= max_str_digits)
  \/ (parse_int t = Unmodelled /\ max_str_digits < length t).
Proof.
  unfold parse_int. destruct (max_str_digits <? length t) eqn:E.
  - right. apply Nat.ltb_lt in E. done.
  - left. apply Nat.ltb_ge in E. done.
Qed.

(** The first integer that is too large for a float is [2^1024 - 2^970],
    half way between the largest double and [2^1024]. *)
Lemma float_of_int_boundary :
  float_of_int (2 ^ 1024 - 2 ^ 970) = Raise OverflowError
  /\ float_of_int (2 ^ 1024 - 2 ^ 970 - 1) = Ok (S754_finite false (2 ^ 53 - 1) 971).
Proof. split; vm_compute; reflexivity. Qed.

Lemma int_times_float_cases v x :
  (exists y, float_of_int v = Ok y /\ int_times_float v x = Ok (SFmul 53 1024 y x))
  \/ (float_of_int v = Raise OverflowError /\ int_times_float v x = Raise OverflowError).
Proof.
  unfold int_times_float, float_of_int.
  destruct (binary_normalize 53 1024 v 0 false) eqn:E; cbn [bind]; eauto.
Qed.

Ltac missing :=
  split; [intros ? [= <-]; auto|split; [try done; auto|split; discriminate]].

(** [parse_twix_header] raises no exception other than AttributeError
    and OverflowError: the fourth part of a matched line split at the
    quotes always exists.  It raises AttributeError whenever one of the
    five patterns it searches before it computes the frequency is not
    found; OverflowError only when the integer of the Frequency or of the
    DwellTimeSig parameter is too large for a float; and it is outside
    the model only for a run of more than 4300 digits. *)
Theorem parse_twix_header_exceptions (h : text) :
  (forall e, parse_twix_header h = Raise e -> e = AttributeError \/ e = OverflowError)
  /\ (forall q,
        In q [re_protocol_name; re_patient_id_line; re_patient_name_value;
              re_patient_birthday_value; re_frequency] ->
        re_search q h = None -> parse_twix_header h = Raise AttributeError)
  /\ (parse_twix_header h = Raise OverflowError ->
        float_of_int (int_of_digits (number_string re_frequency h)) = Raise OverflowError
        \/ float_of_int (int_of_digits (number_string re_dwell_time h)) = Raise OverflowError)
  /\ (parse_twix_header h = Unmodelled ->
        max_str_digits < length (number_string re_frequency h)
        \/ max_str_digits < length (number_string re_dwell_time h)).
Proof.
  assert (Hq : forall (r : result header_params_t) m q,
            re_search re_protocol_name h = Some m ->
            re_search re_patient_id_line h <> None ->
            re_search re_patient_name_value h <> None ->
            re_search re_patient_birthday_value h <> None ->
            re_search re_frequency h <> None ->
            In q [re_protocol_name; re_patient_id_line; re_patient_name_value;
                  re_patient_birthday_value; re_frequency] ->
            re_search q h = None -> r = Raise AttributeError).
  { intros r m q H1 H2 H3 H4 H5 Hin Hn. cbn [In] in Hin.
    destruct Hin as [<-|[<-|[<-|[<-|[<-|[]]]]]]; congruence. }
  unfold parse_twix_header, found, of_option, number_string.
  destruct (re_search re_protocol_name h) as [m1|] eqn:E1; cbn [bind]; [|missing].
  destruct (quoted_line_splits _ _ _ E1) as [x1 ->]; [vm_compute; lia|]. cbn [bind].
  destruct (re_search re_patient_id_line h) as [m2|] eqn:E2; cbn [bind]; [|missing].
  destruct (quoted_line_splits _ _ _ E2) as [x2 ->]; [vm_compute; lia|]. cbn [bind].
  destruct (re_search re_patient_name_value h) as [m3|] eqn:E3; cbn [bind]; [|missing].
  destruct (re_search re_patient_birthday_value h) as [m4|] eqn:E4; cbn [bind]; [|missing].
  destruct (re_search re_frequency h) as [m5|] eqn:E5; cbn [bind]; [|missing].
  specialize (fun r q => Hq r m1 q eq_refl ltac:(congruence) ltac:(congruence)
                            ltac:(congruence) ltac:(congruence)).
  destruct (re_search re_number (group0 m5)) as [m6|]; cbn [bind]; [|missing].
  destruct (parse_int_cases (group0 m6)) as [[-> _]|[-> Hlong]]; cbn [bind];
    [|split; [discriminate|split; [apply Hq|split; [discriminate|auto]]]].
  destruct (int_times_float_cases (int_of_digits (group0 m6)) float_1e_6)
    as [(y & _ & ->)|[Hov ->]]; cbn [bind];
    [|split; [intros e [= <-]; auto|split; [apply Hq|split; [auto|discriminate]]]].
  destruct (re_search re_dwell_time h) as [m7|] eqn:E7; cbn [bind]; [|missing].
  destruct (re_search re_number (group0 m7)) as [m8|]; cbn [bind]; [|missing].
  destruct (parse_int_cases (group0 m8)) as [[-> _]|[-> Hlong]]; cbn [bind];
    [|split; [discriminate|split; [apply Hq|split; [discriminate|auto]]]].
  destruct (int_times_float_cases (int_of_digits (group0 m8)) float_1e_9)
    as [(y' & _ & ->)|[Hov ->]]; cbn [bind];
    [|split; [intros e [= <-]; auto|split; [apply Hq|split; [auto|discriminate]]]].
  split; [discriminate|split; [apply Hq|split; discriminate]].
Qed.

Lemma parse_twix_header_exceptions_witness :
  parse_twix_header (partial_header 4) = Raise AttributeError
  /\ parse_twix_header long_frequency_header = Raise OverflowError
  /\ float_of_int (int_of_digits (number_string re_frequency long_frequency_header))
     = Raise OverflowError.
Proof.
  split; [|split].
  - apply (proj1 (proj2 (parse_twix_header_exceptions (partial_header 4)))
             re_protocol_name).
    + left. reflexivity.
    + vm_compute. reflexivity.
  - vm_compute. reflexivity.
  - destruct (proj1 (proj2 (proj2 (parse_twix_header_exceptions long_frequency_header))))
      as [H|H].
    + vm_compute. reflexivity.
    + exact H.
    + vm_compute in H. discriminate H.
Defined.

End Parser.


(** ** The patient name stage *)

Section Changed.
Local Open Scope nat_scope.

Variable p : pattern.
Variable repl : list text -> text.
Hypothesis repl_length :
  forall s gs, match_groups p s = Some gs -> length (repl gs) = length (concat gs).

(** A character [re.sub] changed lies in a match and is the character
    the replacement has at that place. *)
Lemma sub_go_changed : forall s skip base i,
  sub_go p repl skip s !! i <> s !! (skip + i) ->
  exists m, In m (finditer_go p base skip s)
            /\ m_start m <= base + skip + i < m_start m + length (group0 m)
            /\ sub_go p repl skip s !! i = repl (m_groups m) !! (base + skip + i - m_start m).
Proof.
  induction s as [|a s IH]; intros skip base i H.
  - exfalso. apply H. destruct skip; cbn [sub_go].
    + destruct (match_groups p []) as [gs|] eqn:E; [|done].
      pose proof (repl_length _ _ E) as Hr.
      pose proof (match_groups_length _ _ _ E) as Hle. cbn in Hle.
      destruct (repl gs); [done|]. cbn in Hr. lia.
    + done.
  - destruct skip as [|n]; cbn [sub_go finditer_go] in *.
    + destruct (match_groups p (a :: s)) as [gs|] eqn:E.
      * pose proof (match_groups_length _ _ _ E) as Hle.
        pose proof (repl_length _ _ E) as Hr.
        destruct (length (concat gs)) as [|n] eqn:El.
        -- destruct (repl gs); [|cbn in Hr; lia]. cbn [app] in H |- *.
           destruct i as [|i]; [done|]. cbn [pred].
           destruct (IH 0 (S base) i H) as (m & Hin & Hrange & Hv).
           exists m. split; [by right|]. split; [lia|].
           replace (base + 0 + S i - m_start m) with (S base + 0 + i - m_start m) by lia.
           exact Hv.
        -- destruct (decide (i < S n)) as [Hi|Hi].
           ++ eexists. split; [left; reflexivity|]. unfold group0. cbn [m_start m_groups].
              split; [lia|].
              etrans; [apply lookup_app_l; lia|]. f_equal. lia.
           ++ cbn [pred].
              destruct (IH n (S base) (i - S n)) as (m & Hin & Hrange & Hv).
              { intros Heq. apply H.
                etrans; [apply lookup_app_r; lia|]. rewrite Hr.
                etrans; [exact Heq|].
                replace (0 + i) with (S (n + (i - S n))) by lia. done. }
              exists m. split; [by right|]. split; [lia|].
              etrans; [apply lookup_app_r; lia|]. rewrite Hr.
              replace (base + 0 + i - m_start m)
                with (S base + n + (i - S n) - m_start m) by lia.
              exact Hv.
      * destruct i as [|i]; [done|].
        destruct (IH 0 (S base) i H) as (m & Hin & Hrange & Hv).
        exists m. split; [done|]. split; [lia|].
        replace (base + 0 + S i - m_start m) with (S base + 0 + i - m_start m) by lia.
        exact Hv.
    + destruct (IH n (S base) i H) as (m & Hin & Hrange & Hv).
      exists m. split; [done|]. split; [lia|].
      replace (base + S n + i - m_start m) with (S base + n + i - m_start m) by lia.
      exact Hv.
Qed.

End Changed.

Section Finditer.
Local Open Scope nat_scope.

(** Every match [re.finditer] yields is a match of the pattern at its
    start. *)
Lemma finditer_go_spec p : forall s base skip m,
  In m (finditer_go p base skip s) ->
  base + skip <= m_start m
  /\ m_start m - base <= length s
  /\ match_groups p (drop (m_start m - base) s) = Some (m_groups m).
Proof.
  induction s as [|a s IH]; intros base skip m H.
  - destruct skip; cbn [finditer_go] in H; [|done].
    destruct (match_groups p []) as [gs|] eqn:E; [|done].
    destruct H as [<-|[]]. cbn [m_start m_groups]. rewrite Nat.sub_diag.
    split; [lia|]. split; [cbn; lia|]. done.
  - destruct skip as [|n]; cbn [finditer_go] in H.
    + destruct (match_groups p (a :: s)) as [gs|] eqn:E.
      * destruct H as [<-|H].
        -- cbn [m_start m_groups]. rewrite Nat.sub_diag.
           split; [lia|]. split; [cbn; lia|]. done.
        -- destruct (IH _ _ _ H) as (Hb & Hl & Hm).
           split; [lia|]. split; [cbn [length]; lia|].
           replace (m_start m - base) with (S (m_start m - S base)) by lia. exact Hm.
      * destruct (IH _ _ _ H) as (Hb & Hl & Hm).
        split; [lia|]. split; [cbn [length]; lia|].
        replace (m_start m - base) with (S (m_start m - S base)) by lia. exact Hm.
    + destruct (IH _ _ _ H) as (Hb & Hl & Hm).
      split; [lia|]. split; [cbn [length]; lia|].
      replace (m_start m - base) with (S (m_start m - S base)) by lia. exact Hm.
Qed.

End Finditer.

Section NameStage.
Local Open Scope nat_scope.

Lemma all_ascii_forall (P : ascii -> bool) :
  forallb P all_ascii = true -> forall a, P a = true.
Proof. intros H a. rewrite forallb_forall in H. apply H, all_ascii_complete. Qed.

Lemma special_not_alnum c : is_special c = true -> is_ascii_alnum c = false.
Proof.
  intros H.
  pose proof (all_ascii_forall
                (fun c => implb (is_special c) (negb (is_ascii_alnum c)))
                ltac:(vm_compute; reflexivity) c) as Hc.
  cbv beta in Hc. rewrite H in Hc. cbn in Hc. by apply negb_true_iff.
Qed.

Lemma plain_is_literal c :
  is_special c = false ->
  Ascii.eqb c bsl = false /\ Ascii.eqb c "."%char = false /\ is_meta c = false.
Proof.
  intros H.
  pose proof (all_ascii_forall
                (fun c => implb (negb (is_special c))
                            (negb (Ascii.eqb c bsl) && negb (Ascii.eqb c "."%char)
                             && negb (is_meta c)))
                ltac:(vm_compute; reflexivity) c) as Hc.
  cbv beta in Hc. rewrite H in Hc. cbn [negb implb] in Hc.
  apply andb_prop in Hc as [Hc H3]. apply andb_prop in Hc as [H1 H2].
  by rewrite !negb_true_iff in *.
Qed.

(** An escaped text, compiled as a pattern, is the text itself, character
    by character. *)
Lemma compile_atoms_escape : forall t, compile_atoms (re_escape t) = Ok (literal t).
Proof.
  induction t as [|c t IH]; [done|].
  unfold re_escape in *. cbn [flat_map literal map].
  destruct (is_special c) eqn:Es.
  - cbn [app compile_atoms]. rewrite Ascii.eqb_refl.
    rewrite (special_not_alnum _ Es). rewrite IH. done.
  - destruct (plain_is_literal _ Es) as (H1 & H2 & H3).
    cbn [app compile_atoms]. rewrite H1, H2, H3, IH. done.
Qed.

Lemma accepts_literal : forall v t, accepts (literal v) t -> t = v.
Proof.
  induction v as [|c v IH]; intros t H; cbn [literal map] in H.
  - by inversion H.
  - inversion H as [|? ? a t' Hc Ha| |]; subst.
    unfold lit in Hc. apply Ascii.eqb_eq in Hc. subst. f_equal. by apply IH.
Qed.

Lemma match_literal v s gs :
  match_groups [literal v] s = Some gs -> gs = [v] /\ exists rest, s = v ++ rest.
Proof.
  intros H. destruct (match_groups_prefix _ _ _ H) as [[rest Hs] _].
  apply match_groups_sound in H.
  inversion H as [|? t ? ? Ha Hr]; subst. inversion Hr; subst.
  apply accepts_literal in Ha. subst. split; [done|].
  exists rest. cbn. by rewrite app_nil_r.
Qed.

Lemma starts_with_app v rest : starts_with v (v ++ rest) = true.
Proof. induction v as [|c v IH]; [done|]. cbn. by rewrite Ascii.eqb_refl. Qed.

Lemma match_one_char c a t :
  match_groups [[One c]] (a :: t) = if c a then Some [[a]] else None.
Proof. cbn. by destruct (c a). Qed.

(** Replacing every character of a class by x. *)
Lemma sub_one_char c : forall t,
  re_sub [[One c]] (fun _ => str "x") t = map (fun a => if c a then "x"%char else a) t.
Proof.
  unfold re_sub. induction t as [|a t IH]; [done|].
  cbn [sub_go map]. rewrite match_one_char.
  destruct (c a); cbn [concat app length]; by rewrite IH.
Qed.


Lemma lookup_map_list {A B} (f : A -> B) : forall (l : list A) k,
  map f l !! k = option_map f (l !! k).
Proof.
  induction l as [|x l IH]; intros [|k]; cbn; auto.
Qed.

(** The patient name stage treats the name as plain text.  It succeeds
    whenever the PatientName parameter is found; the text keeps its
    length; and every character it changes lies in an occurrence of the
    located name (quotes included) in the header, was no double quote,
    and is now an x. *)
Theorem scrub_patient_name_rewrites_the_name (h : text) :
  (forall m, re_search re_patient_name h = Some m ->
     exists t, scrub_patient_name h = Ok t)
  /\ (forall t, scrub_patient_name h = Ok t ->
        length t = length h
        /\ forall i, t !! i <> h !! i ->
             in_occurrence (located re_patient_name h) h i = true
             /\ t !! i = Some "x"%char
             /\ h !! i <> Some dq).
Proof.
  split.
  { intros m Hm. unfold scrub_patient_name, found, of_option. rewrite Hm. cbn [bind].
    rewrite compile_atoms_escape. cbn [bind]. by eexists. }
  intros t. unfold scrub_patient_name, located, found, of_option.
  destruct (re_search re_patient_name h) as [m|] eqn:Es; cbn [bind]; [|discriminate].
  rewrite compile_atoms_escape. cbn [bind]. intros [= <-].
  set (name := group m 2).
  set (repl := fun gs : list text => re_sub [[One not_quote]] (fun _ => str "x") (concat gs)).
  assert (Hrepl : forall s gs, match_groups [literal name] s = Some gs ->
                    length (repl gs) = length (concat gs)).
  { intros s gs _. apply single_char_sub_length. }
  split; [by apply re_sub_length|].
  intros i Hi.
  destruct (sub_go_changed _ repl Hrepl h 0 0 i Hi) as (m' & Hin & Hrange & Hv).
  apply finditer_go_spec in Hin as (_ & _ & Hm').
  rewrite Nat.sub_0_r in Hm'.
  apply match_literal in Hm' as (Hg & rest & Hd).
  unfold group0 in Hrange. rewrite Hg in Hrange, Hv. cbn [concat] in Hrange.
  rewrite app_nil_r in Hrange. cbn [Nat.add] in Hrange, Hv.
  set (j := m_start m') in *. set (k := i - j) in *.
  assert (Hk : k < length name) by (unfold k; lia).
  destruct (lookup_lt_is_Some_2 name k Hk) as [a Ha].
  assert (Hh : h !! i = Some a).
  { replace i with (j + k) by (unfold k; lia).
    etrans; [symmetry; apply (lookup_drop h j k)|].
    etrans; [exact (f_equal (fun l : list ascii => l !! k) Hd)|]. cbv beta.
    etrans; [apply lookup_app_l; exact Hk|]. exact Ha. }
  assert (Ht : re_sub [literal name] repl h !! i
               = Some (if not_quote a then "x"%char else a)).
  { unfold re_sub. etrans; [exact Hv|]. unfold repl. cbn [concat].
    rewrite app_nil_r, sub_one_char.
    etrans; [apply lookup_map_list|]. by rewrite Ha. }
  assert (Hq : not_quote a = true).
  { destruct (not_quote a) eqn:E; [done|]. exfalso. apply Hi.
    etrans; [exact Ht|]. by symmetry. }
  rewrite Hq in Ht. split; [|split].
  - unfold in_occurrence. apply existsb_exists. exists j. split.
    + apply in_seq. assert (Hl : length (drop j h) = length (name ++ rest)) by (by rewrite Hd).
      rewrite length_drop, length_app in Hl. lia.
    + rewrite Hd, starts_with_app. cbn [andb].
      apply andb_true_intro. split; [apply Nat.leb_le|apply Nat.ltb_lt]; lia.
  - exact Ht.
  - rewrite Hh. intros [= ->]. unfold not_quote in Hq. by rewrite Ascii.eqb_refl in Hq.
Qed.

Lemma scrub_patient_name_rewrites_the_name_witness :
  exists t,
    scrub_patient_name sample_header_plain = Ok t
    /\ length t = length sample_header_plain
    /\ forall i, t !! i <> sample_header_plain !! i -> t !! i = Some "x"%char.
Proof.
  destruct (re_search re_patient_name sample_header_plain) as [m|] eqn:Em;
    [|vm_compute in Em; discriminate].
  destruct (proj1 (scrub_patient_name_rewrites_the_name sample_header_plain) m Em)
    as [t Ht].
  exists t. split; [exact Ht|].
  destruct (proj2 (scrub_patient_name_rewrites_the_name sample_header_plain) t Ht)
    as [Hl Hf].
  split; [exact Hl|]. intros i Hi. by destruct (Hf i Hi) as (_ & Hx & _).
Defined.

End NameStage.


(** ** The exam date and the patient id *)

Section ExamDate.
Local Open Scope nat_scope.

(** The exam date is read from the eleventh field of the FrameOfReference
    value split at the periods: with fewer than ten periods in the value
    the anonymizer raises IndexError. *)
Theorem frame_of_reference_needs_eleven_fields (h t : text) (m : re_match) :
  before_exam_date h = Ok t ->
  re_search re_frame_of_reference t = Some m ->
  occurrences "."%char (group m 2) < 10 ->
  anonymize_twix_header h = Raise IndexError.
Proof.
  intros Ht Hm Hocc. rewrite anonymize_stages, Ht. cbn [bind].
  unfold scrub_exam_date, found, of_option. rewrite Hm. cbn [bind].
  pose proof (length_split_on "."%char (group m 2)) as Hlen.
  unfold index. rewrite (proj2 (lookup_ge_None _ 10)) by lia. reflexivity.
Qed.

Lemma frame_of_reference_needs_eleven_fields_witness :
  anonymize_twix_header short_frame_header = Raise IndexError.
Proof.
  destruct (before_exam_date short_frame_header) as [t| |] eqn:Ht;
    try (vm_compute in Ht; discriminate).
  destruct (re_search re_frame_of_reference t) as [m|] eqn:Hm.
  - apply (frame_of_reference_needs_eleven_fields short_frame_header t m Ht Hm).
    vm_compute in Ht. injection Ht as <-. vm_compute in Hm. injection Hm as <-.
    vm_compute. lia.
  - vm_compute in Ht. injection Ht as <-. vm_compute in Hm. discriminate.
Defined.

End ExamDate.

Section PlainId.
Local Open Scope nat_scope.

Lemma accepts_quoted_value t :
  accepts quoted_value t -> exists mid, t = dq :: mid ++ [dq] /\ mid <> [].
Proof.
  unfold quoted_value. intros H.
  inversion H as [|? ? a0 t0 H0 Hrest| |]; subst.
  inversion Hrest as [| | |? ? a1 t1 t2 H1 Hf Hlast]; subst.
  inversion Hlast as [|? ? a2 t3 H2 Hnil| |]; subst. inversion Hnil; subst.
  unfold lit in H0, H2. apply Ascii.eqb_eq in H0, H2. subst.
  exists (a1 :: t1). split; [done|discriminate].
Qed.

Lemma quoted_param_value name h m :
  re_search (re_quoted_param name) h = Some m ->
  exists mid, group m 2 = dq :: mid ++ [dq] /\ mid <> [].
Proof.
  intros H. apply re_search_sound in H. unfold re_quoted_param in H.
  apply Forall2_cons_inv_l in H as (t1 & k1 & _ & H & E1).
  apply Forall2_cons_inv_l in H as (t2 & k2 & Ha & _ & ->).
  unfold group. rewrite E1. cbn [nth Nat.sub]. by apply accepts_quoted_value.
Qed.

Lemma xs_lookup_changed (mid : text) k :
  k < S (S (length mid)) ->
  (dq :: xs (length mid) ++ [dq]) !! k <> (dq :: mid ++ [dq]) !! k ->
  (dq :: xs (length mid) ++ [dq]) !! k = Some "x"%char.
Proof.
  intros Hk Hne. destruct k as [|k]; [done|]. cbn [lookup list_lookup] in *.
  change ((xs (length mid) ++ [dq]) !! k <> (mid ++ [dq]) !! k) in Hne.
  change ((xs (length mid) ++ [dq]) !! k = Some "x"%char).
  destruct (decide (k < length mid)) as [Hlt|Hge].
  - etrans; [apply lookup_app_l; unfold xs; rewrite length_replicate; lia|].
    unfold xs. by apply lookup_replicate_2.
  - exfalso. apply Hne.
    etrans; [apply lookup_app_r; unfold xs; rewrite length_replicate; lia|].
    symmetry. etrans; [apply lookup_app_r; lia|].
    unfold xs. by rewrite length_replicate.
Qed.

(** When the located patient id has none of the characters [re.escape]
    would escape, the id stage rewrites the id and nothing else: the text
    keeps its length, and every character it changes lies inside a
    literal occurrence of the quoted id and becomes an x. *)
Theorem scrub_patient_id_plain (h t : text) :
  scrub_patient_id h = Ok t ->
  forallb (fun c => negb (is_special c)) (located re_patient_id h) = true ->
  length t = length h
  /\ forall i, t !! i <> h !! i ->
       in_occurrence (located re_patient_id h) h i = true
       /\ t !! i = Some "x"%char.
Proof.
  unfold scrub_patient_id, located, found, of_option.
  destruct (re_search re_patient_id h) as [m|] eqn:Es; cbn [bind]; [|discriminate].
  intros H Hplain.
  pose proof (compile_atoms_escape (group m 2)) as Hc.
  rewrite (re_escape_plain _ Hplain) in Hc. rewrite Hc in H. cbn [bind] in H.
  injection H as <-.
  destruct (quoted_param_value _ _ _ Es) as (mid & Hid & Hmid).
  set (id := group m 2) in *.
  assert (Hlen : length id = S (S (length mid))).
  { rewrite Hid. cbn [length]. rewrite length_app. cbn. lia. }
  replace (length id - 2) with (length mid) by lia.
  set (r := dq :: xs (length mid) ++ [dq]).
  assert (Hr : length r = length id).
  { unfold r. cbn [length]. rewrite length_app. unfold xs. rewrite length_replicate.
    cbn. lia. }
  assert (Hrepl : forall s gs, match_groups [literal id] s = Some gs ->
                    length ((fun _ : list text => r) gs) = length (concat gs)).
  { intros s gs Hm. apply match_literal in Hm as [-> _]. cbn. by rewrite app_nil_r. }
  split; [by apply re_sub_length|].
  intros i Hi.
  destruct (sub_go_changed _ _ Hrepl h 0 0 i Hi) as (m' & Hin & Hrange & Hv).
  apply finditer_go_spec in Hin as (_ & _ & Hm').
  rewrite Nat.sub_0_r in Hm'.
  apply match_literal in Hm' as (Hg & rest & Hd).
  unfold group0 in Hrange. rewrite Hg in Hrange. cbn [concat] in Hrange.
  rewrite app_nil_r in Hrange. cbn [Nat.add] in Hrange, Hv.
  set (j := m_start m') in *. set (k := i - j) in *.
  assert (Hk : k < length id) by (unfold k; lia).
  assert (Hh : h !! i = id !! k).
  { replace i with (j + k) by (unfold k; lia).
    etrans; [symmetry; apply (lookup_drop h j k)|].
    etrans; [exact (f_equal (fun l : list ascii => l !! k) Hd)|]. cbv beta.
    apply lookup_app_l. exact Hk. }
  split.
  - unfold in_occurrence. apply existsb_exists. exists j. split.
    + apply in_seq. assert (Hl : length (drop j h) = length (id ++ rest)) by (by rewrite Hd).
      rewrite length_drop, length_app in Hl. lia.
    + rewrite Hd, starts_with_app. cbn [andb].
      apply andb_true_intro. split; [apply Nat.leb_le|apply Nat.ltb_lt]; lia.
  - etrans; [exact Hv|]. apply xs_lookup_changed; [lia|].
    intros Heq. apply Hi. etrans; [exact Hv|]. etrans; [exact Heq|].
    rewrite <- Hid. by symmetry.
Qed.

Lemma scrub_patient_id_plain_witness :
  exists t,
    scrub_patient_id sample_header_plain = Ok t
    /\ length t = length sample_header_plain
    /\ located re_patient_id t = dq :: str "xxxx" ++ [dq].
Proof.
  destruct (scrub_patient_id sample_header_plain) as [t| |] eqn:Ht;
    try (vm_compute in Ht; discriminate).
  exists t. split; [reflexivity|].
  destruct (scrub_patient_id_plain sample_header_plain t Ht) as [Hl _].
  - vm_compute. reflexivity.
  - split; [exact Hl|]. vm_compute in Ht. injection Ht as <-. vm_compute. reflexivity.
Defined.

End PlainId.


(** ** The regular expressions the anonymizer builds from header values *)

Section Fragment.
Local Open Scope nat_scope.

Lemma compile_atoms_operator_free : forall t,
  has_operator t = false -> exists ps, compile_atoms t = Ok ps.
Proof.
  induction t as [|c t IH]; [by eexists|].
  unfold has_operator. cbn [existsb]. intros H.
  apply orb_false_iff in H as [Hc Ht]. apply orb_false_iff in Hc as [Hb Hm].
  destruct (IH Ht) as [ps Hps]. cbn [compile_atoms]. rewrite Hb.
  destruct (Ascii.eqb c "."); rewrite ?Hm, Hps; cbn [bind]; eauto.
Qed.

(** Inside the fragment the model describes every run: a header whose
    patient id, birth date and exam date hold no operator is anonymized
    or refused with an exception. *)
Lemma operator_free_is_modelled h :
  operator_free h = true -> anonymize_twix_header h <> Unmodelled.
Proof.
  unfold operator_free. intros H.
  apply andb_prop in H as [H H3]. apply andb_prop in H as [H1 H2].
  apply negb_true_iff in H1.
  unfold anonymize_twix_header.
  assert (E1 : scrub_patient_id h <> Unmodelled).
  { unfold scrub_patient_id, found, of_option. unfold located in H1.
    destruct (re_search re_patient_id h) as [m|]; cbn [bind]; [|discriminate].
    destruct (compile_atoms_operator_free _ H1) as [ps ->]. discriminate. }
  destruct (scrub_patient_id h) as [t1| |] eqn:S1; cbn [bind]; [|discriminate|done].
  apply negb_true_iff in H2. clear E1.
  assert (E2 : scrub_birthday t1 <> Unmodelled).
  { unfold scrub_birthday, found, of_option. unfold located in H2.
    destruct (re_search re_patient_birthday t1) as [m|]; cbn [bind]; [|discriminate].
    destruct (compile_atoms_operator_free _ H2) as [ps ->]. discriminate. }
  destruct (scrub_birthday t1) as [t2| |] eqn:S2; cbn [bind]; [|discriminate|done].
  clear E2.
  assert (E3 : scrub_patient_name t2 <> Unmodelled).
  { unfold scrub_patient_name, found, of_option.
    destruct (re_search re_patient_name t2) as [m|]; cbn [bind]; [|discriminate].
    rewrite compile_atoms_escape. discriminate. }
  destruct (scrub_patient_name t2) as [t3| |] eqn:S3; cbn [bind]; [|discriminate|done].
  clear E3.
  assert (E4 : scrub_patient_sex t3 <> Unmodelled).
  { unfold scrub_patient_sex, zero_sex_field, found, of_option.
    destruct (re_search re_patient_sex t3) as [m|]; cbn [bind]; discriminate. }
  destruct (scrub_patient_sex t3) as [t4| |] eqn:S4; cbn [bind]; [|discriminate|done].
  clear E4.
  assert (B : before_exam_date h = Ok t4).
  { unfold before_exam_date, before_sex, before_name.
    rewrite S1. cbn [bind]. rewrite S2. cbn [bind]. rewrite S3. cbn [bind]. exact S4. }
  rewrite B in H3. apply negb_true_iff in H3. unfold exam_date_of, located in H3.
  unfold scrub_exam_date, found, of_option, index.
  destruct (re_search re_frame_of_reference t4) as [m'|] eqn:Em; cbn [bind]; [|discriminate].

  destruct (split_on "." (group m' 2) !! 10) as [x|] eqn:Ex; cbn [of_option bind];
    [|discriminate].
  assert (Hn : nth 10 (split_on "." (group m' 2)) [] = x) by by apply nth_lookup_Some.
  unfold text in *. rewrite Hn in H3.
  destruct (compile_atoms_operator_free _ H3) as [ps Hps].
  rewrite Hps. discriminate.
Qed.

End Fragment.
